(** * The DICOM SR annotation factory of dwv

    A shallow embedding of [src/image/annotationFactory.js]: [mergeTags],
    and the methods [getWarning], [checkElements], [create] and [toDicom]
    of the class [AnnotationFactory].

    JavaScript values are kept dynamic ([JsValue]), member access on
    [undefined] throws a [TypeError], and objects keep their keys in the
    order [Object.keys] and the spread syntax enumerate them in: the array
    indices first, in ascending order, then the other keys in the order of
    their creation. The object [mergeTags] assigns to carries its
    prototype, through which the members it does not own are read and the
    key [__proto__] is assigned. *)

From Stdlib Require Import String Ascii List Bool Arith NArith Lia.
Import ListNotations.
Local Open Scope string_scope.
Local Open Scope list_scope.

(** ** JavaScript values *)

#[warnings="-register-all"]
Inductive JsValue : Type :=
| JUndefined
| JString (s : string)
| JArray (items : list JsValue)
| JObject (props : list (string * JsValue)).

(** An object: its own enumerable properties, in the order of
    enumeration. *)
Definition JsObject : Type := list (string * JsValue).

Fixpoint ownProperty (k : string) (o : JsObject) : option JsValue :=
  match o with
  | [] => None
  | (k', v) :: rest => if String.eqb k' k then Some v else ownProperty k rest
  end.

(** [o[k]] for a key [k] that is an own property of [o] or that no
    prototype of [o] defines (the tag names, element keys and member names
    the factory itself reads are of that kind): the value of the own
    property, [undefined] when there is none. *)
Definition readProperty (k : string) (o : JsObject) : JsValue :=
  match ownProperty k o with
  | Some v => v
  | None => JUndefined
  end.

(** The decimal digit a character stands for. *)
Definition digitOf (c : ascii) : option N :=
  let n := N_of_ascii c in
  if ((48 <=? n) && (n <=? 57))%N then Some (n - 48)%N else None.

Fixpoint digitsValue (acc : N) (s : string) : option N :=
  match s with
  | EmptyString => Some acc
  | String c rest =>
      match digitOf c with
      | Some d => digitsValue (acc * 10 + d)%N rest
      | None => None
      end
  end.

(** The array index a key stands for, if any: the key is the canonical
    decimal writing, without sign or leading zero, of an integer from 0 to
    2^32 - 2. *)
Definition arrayIndex (k : string) : option N :=
  match k with
  | EmptyString => None
  | String c rest =>
      match digitOf c with
      | None => None
      | Some 0%N =>
          match rest with
          | EmptyString => Some 0%N
          | String _ _ => None
          end
      | Some d =>
          match digitsValue d rest with
          | Some n => if (n <=? 4294967294)%N then Some n else None
          | None => None
          end
      end
  end.

(** The value of an own property is replaced where the property is. *)
Fixpoint replaceProperty (k : string) (v : JsValue) (o : JsObject)
  : JsObject :=
  match o with
  | [] => []
  | (k', v') :: rest =>
      if String.eqb k' k then (k', v) :: rest
      else (k', v') :: replaceProperty k v rest
  end.

(** A new property whose key is the array index [n] goes after the array
    indices up to [n], before the greater ones and the other keys. *)
Fixpoint insertIndexed (n : N) (k : string) (v : JsValue) (o : JsObject)
  : JsObject :=
  match o with
  | [] => [(k, v)]
  | (k', v') :: rest =>
      match arrayIndex k' with
      | Some n' =>
          if (n' <=? n)%N then (k', v') :: insertIndexed n k v rest
          else (k, v) :: o
      | None => (k, v) :: o
      end
  end.

(** The property [k] of [o] is given the value [v], by an object literal,
    a spread, or an assignment [o[k] = v] that no setter of a prototype
    takes: an existing key keeps its place, a new key goes among the array
    indices when it is one and last otherwise. *)
Definition writeProperty (k : string) (v : JsValue) (o : JsObject)
  : JsObject :=
  match ownProperty k o with
  | Some _ => replaceProperty k v o
  | None =>
      match arrayIndex k with
      | Some n => insertIndexed n k v o
      | None => o ++ [(k, v)]
      end
  end.

(** [Object.keys(o)]: the own keys, in the order of enumeration. *)
Definition objectKeys (o : JsObject) : list string := map fst o.

(** The properties of [src] are given to [dst], in their order. *)
Definition assignAll (dst src : JsObject) : JsObject :=
  fold_left (fun acc kv => writeProperty (fst kv) (snd kv) acc) src dst.

(** [{...a, ...b}]. *)
Definition spread (a b : JsObject) : JsObject :=
  assignAll (assignAll [] a) b.

(** [v !== undefined], also [typeof v !== 'undefined']. *)
Definition isDefined (v : JsValue) : bool :=
  match v with
  | JUndefined => false
  | _ => true
  end.

(** ** Prototypes

    An object made by an object literal or by a spread has
    [Object.prototype] as its prototype: a member it does not own is read
    from there, and an assignment to [__proto__] that finds no own
    property is taken by the setter of [Object.prototype], which replaces
    the prototype when the value is an object and does nothing otherwise. *)

(** The members of [Object.prototype], the accessor [__proto__] among
    them; each reads as a defined value. *)
Definition objectPrototypeNames : list string :=
  ["constructor"; "__defineGetter__"; "__defineSetter__"; "hasOwnProperty";
   "__lookupGetter__"; "__lookupSetter__"; "isPrototypeOf";
   "propertyIsEnumerable"; "toString"; "valueOf"; "__proto__";
   "toLocaleString"].

(** What the members of [Array.prototype] are depends on the edition of
    the language the engine implements: a parameter. *)
Class Engine : Type := {
  arrayPrototypeNames : list string
}.

Definition named (k : string) (names : list string) : bool :=
  existsb (String.eqb k) names.

(** The prototype of an object: [Object.prototype], or a value the setter
    of [__proto__] has put in its place, itself a plain object or an
    array. *)
Inductive Prototype : Type :=
| ObjectPrototype
| PlainObject (props : JsObject)
| ArrayObject (items : list JsValue).

(** An object with its prototype. *)
Record ProtoObject : Type := mkProtoObject {
  ownProperties : JsObject;
  prototype : Prototype
}.

(** Whether a member read through the prototype is not [undefined]: the
    first object of the chain that owns the key decides. An array owns
    its indices and [length], and inherits from [Array.prototype]. *)
Definition inheritedDefined `{Engine} (p : Prototype) (k : string) : bool :=
  match p with
  | ObjectPrototype => named k objectPrototypeNames
  | PlainObject props =>
      match ownProperty k props with
      | Some v => isDefined v
      | None => named k objectPrototypeNames
      end
  | ArrayObject items =>
      match arrayIndex k with
      | Some n =>
          if (n <? N.of_nat (length items))%N
          then isDefined (nth (N.to_nat n) items JUndefined)
          else false
      | None =>
          String.eqb k "length" || named k arrayPrototypeNames
          || named k objectPrototypeNames
      end
  end.

(** [o[k] !== undefined]. *)
Definition memberDefined `{Engine} (o : ProtoObject) (k : string) : bool :=
  match ownProperty k (ownProperties o) with
  | Some v => isDefined v
  | None => inheritedDefined (prototype o) k
  end.

(** Whether an assignment to [k] that finds no own property reaches the
    setter of [Object.prototype]: the key is [__proto__] and no object of
    the chain before [Object.prototype] owns it. *)
Definition reachesSetter (p : Prototype) (k : string) : bool :=
  String.eqb k "__proto__" &&
  match p with
  | PlainObject props =>
      match ownProperty k props with
      | Some _ => false
      | None => true
      end
  | ObjectPrototype | ArrayObject _ => true
  end.

(** [o[k] = v]: an own property is written; otherwise the setter of
    [__proto__], when reached, replaces the prototype by an object value
    and ignores any other value; otherwise the property is created. *)
Definition assignMember (k : string) (v : JsValue) (o : ProtoObject)
  : ProtoObject :=
  match ownProperty k (ownProperties o) with
  | Some _ =>
      {| ownProperties := writeProperty k v (ownProperties o);
         prototype := prototype o |}
  | None =>
      if reachesSetter (prototype o) k
      then match v with
           | JObject props =>
               {| ownProperties := ownProperties o;
                  prototype := PlainObject props |}
           | JArray items =>
               {| ownProperties := ownProperties o;
                  prototype := ArrayObject items |}
           | JUndefined | JString _ => o
           end
      else {| ownProperties := writeProperty k v (ownProperties o);
              prototype := prototype o |}
  end.

(** ** Exceptions *)

Inductive JsError : Type := TypeError.

Inductive result (A : Type) : Type :=
| Ok (a : A)
| Throw (e : JsError).
Arguments Ok {A} a.
Arguments Throw {A} e.

Definition bind {A B : Type} (c : result A) (k : A -> result B) : result B :=
  match c with
  | Ok a => k a
  | Throw e => Throw e
  end.

Notation "x <- c ;; k" := (bind c (fun x => k))
  (at level 61, c at next level, right associativity).

(** [v.k] for a property name [k] that is neither an array index, nor
    [length], nor a member of a prototype (the names the factory reads
    are of that kind): reading a member of [undefined] throws, strings
    and arrays have no such member. *)
Definition getMember (v : JsValue) (k : string) : result JsValue :=
  match v with
  | JUndefined => Throw TypeError
  | JObject o => Ok (readProperty k o)
  | JString _ | JArray _ => Ok JUndefined
  end.

(** [v[0]]. *)
Definition getFirst (v : JsValue) : result JsValue :=
  match v with
  | JUndefined => Throw TypeError
  | JArray items => Ok (nth 0 items JUndefined)
  | JString EmptyString => Ok JUndefined
  | JString (String c _) => Ok (JString (String c EmptyString))
  | JObject o => Ok (readProperty "0" o)
  end.

(** [for (const x of seq) body]: iterating [undefined] throws. *)
Fixpoint forEach {A S : Type} (body : A -> S -> result S) (l : list A) (s : S)
  : result S :=
  match l with
  | [] => Ok s
  | x :: rest => s' <- body x s ;; forEach body rest s'
  end.

Definition forOf {A S : Type} (seq : option (list A))
  (body : A -> S -> result S) (s : S) : result S :=
  match seq with
  | None => Throw TypeError
  | Some l => forEach body l s
  end.

(** ** The SR content model ([dicom/dicomSRContent], [dicom/dicomCode]) *)

(** Modelled from the spec: the coded concept of [dicom/dicomCode], which is
    not among the sources; a coded-value pair. *)
Module DicomCode.
Record t : Type := mk { value : string; schemeDesignator : string }.
End DicomCode.
Abbreviation DicomCode := DicomCode.t.

(** Modelled from the spec: the [ValueTypes] enumeration of
    [dicom/dicomSRContent]; the spec names five of its members. *)
Inductive ValueType : Type :=
| container
| scoord
| image
| uidref
| text
| otherValueType (name : string).

(** Modelled from the spec: the [RelationshipTypes] enumeration of
    [dicom/dicomSRContent]; the spec names three of its members. *)
Inductive RelationshipType : Type :=
| contains
| hasProperties
| selectedFrom
| otherRelationshipType (name : string).

Definition ValueType_eq_dec (a b : ValueType) : {a = b} + {a <> b}.
Proof. decide equality. apply string_dec. Defined.

Definition RelationshipType_eq_dec (a b : RelationshipType) : {a = b} + {a <> b}.
Proof. decide equality. apply string_dec. Defined.

(** [a === b] on value types. *)
Definition sameValueType (a b : ValueType) : bool :=
  if ValueType_eq_dec a b then true else false.

(** [r === b] where [r] may be [undefined]. *)
Definition sameRelationshipType (r : option RelationshipType)
  (b : RelationshipType) : bool :=
  match r with
  | Some a => if RelationshipType_eq_dec a b then true else false
  | None => false
  end.

(** Modelled from the spec: the class [DicomSRContent] of
    [dicom/dicomSRContent], a tree node with a value type, a relationship
    type, a concept-name code, a type-dependent value and ordered children;
    every field but the value type may be absent ([undefined]), the
    children in particular for leaves. *)
#[warnings="-register-all"]
Inductive DicomSRContent : Type := mkDicomSRContent {
  valueType : ValueType;
  conceptNameCode : option DicomCode;
  relationshipType : option RelationshipType;
  contentSequence : option (list DicomSRContent);
  value : JsValue
}.

(** [new DicomSRContent(valueType)]: only the value type is set. *)
Definition newDicomSRContent (vt : ValueType) : DicomSRContent :=
  {| valueType := vt; conceptNameCode := None; relationshipType := None;
     contentSequence := None; value := JUndefined |}.

Definition setRelationshipType (r : RelationshipType) (c : DicomSRContent) :=
  {| valueType := valueType c; conceptNameCode := conceptNameCode c;
     relationshipType := Some r; contentSequence := contentSequence c;
     value := value c |}.

Definition setConceptNameCode (code : DicomCode) (c : DicomSRContent) :=
  {| valueType := valueType c; conceptNameCode := Some code;
     relationshipType := relationshipType c;
     contentSequence := contentSequence c; value := value c |}.

Definition setValue (v : JsValue) (c : DicomSRContent) :=
  {| valueType := valueType c; conceptNameCode := conceptNameCode c;
     relationshipType := relationshipType c;
     contentSequence := contentSequence c; value := v |}.

Definition setContentSequence (l : list DicomSRContent) (c : DicomSRContent) :=
  {| valueType := valueType c; conceptNameCode := conceptNameCode c;
     relationshipType := relationshipType c; contentSequence := Some l;
     value := value c |}.

(** ** The collaborators

    The functions the factory imports from modules that are not among the
    sources, taken as parameters: the shape codec
    ([dicom/dicomSpatialCoordinate]), the identifier generator
    ([math/stats]), the date codec ([dicom/dicomDate]), the SR content
    reader and writer ([dicom/dicomSRContent]), the element builder
    ([dicom/dicomWriter]) and the five concept codes ([dicom/dicomCode]).
    [guid] reads and advances the generator's state; [Date] is the type of
    the instants [new Date()] yields. The reader, the writer and the
    element builder always return: the spec has [checkElements] never
    raise, and [toDicom] neither. *)
Class Collaborators : Type := {
  Shape : Type;
  getShapeFromScoord : JsValue -> Shape;
  getScoordFromShape : Shape -> JsValue;
  GuidState : Type;
  guid : GuidState -> string * GuidState;
  Date : Type;
  DateObj : Type;
  TimeObj : Type;
  dateToDateObj : Date -> DateObj;
  getDicomDate : DateObj -> string;
  dateToTimeObj : Date -> TimeObj;
  getDicomTime : TimeObj -> string;
  getSRContent : JsValue -> DicomSRContent;
  getDicomSRContentItem : DicomSRContent -> JsObject;
  getElementsFromJSONTags : JsObject -> JsValue;
  getMeasurementGroupCode : DicomCode;
  getImageRegionCode : DicomCode;
  getSourceImageCode : DicomCode;
  getTrackingIdentifierCode : DicomCode;
  getShortLabelCode : DicomCode
}.

(** ** Annotations ([image/annotation]) *)

(** Modelled from the spec: the class [Annotation] of [image/annotation];
    a fresh instance has no field set but the shape, which [create] gives
    it at once. *)
Module Annotation.
Record t `{Collaborators} : Type := mk {
  id : JsValue;
  mathShape : Shape;
  referenceSopUID : JsValue;
  textExpr : JsValue
}.
End Annotation.
Abbreviation Annotation := Annotation.t.

(** Modelled from the spec: the class [AnnotationGroup] of
    [image/annotation]; an ordered list of annotations and a side table of
    metadata, written by [setMeta] and read by [getMeta]. *)
Record AnnotationGroup `{Collaborators} : Type := mkAnnotationGroup {
  getList : list Annotation;
  metaTable : JsObject
}.

Section Factory.
Context `{X : Collaborators} `{Js : Engine}.

(** [new AnnotationGroup(list)]: no metadata yet. *)
Definition newAnnotationGroup (l : list Annotation) : AnnotationGroup :=
  {| getList := l; metaTable := [] |}.

Definition getMeta (g : AnnotationGroup) (key : string) : JsValue :=
  readProperty key (metaTable g).

Definition setMeta (key : string) (v : JsValue) (g : AnnotationGroup)
  : AnnotationGroup :=
  {| getList := getList g; metaTable := writeProperty key v (metaTable g) |}.

Definition setId (v : JsValue) (a : Annotation) : Annotation :=
  {| Annotation.id := v; Annotation.mathShape := Annotation.mathShape a;
     Annotation.referenceSopUID := Annotation.referenceSopUID a;
     Annotation.textExpr := Annotation.textExpr a |}.

Definition setTextExpr (v : JsValue) (a : Annotation) : Annotation :=
  {| Annotation.id := Annotation.id a;
     Annotation.mathShape := Annotation.mathShape a;
     Annotation.referenceSopUID := Annotation.referenceSopUID a;
     Annotation.textExpr := v |}.

Definition setReferenceSopUID (v : JsValue) (a : Annotation) : Annotation :=
  {| Annotation.id := Annotation.id a;
     Annotation.mathShape := Annotation.mathShape a;
     Annotation.referenceSopUID := v;
     Annotation.textExpr := Annotation.textExpr a |}.

(** ** The log ([utils/logger]) *)

Inductive LogLevel : Type := trace | debug | info | warn | error.

Definition LogEntry : Type := (LogLevel * string)%type.

Definition LogEntry_eq_dec (a b : LogEntry) : {a = b} + {a <> b}.
Proof. decide equality; [apply string_dec | decide equality]. Defined.

(** [logger.trace('Overwritting tag: ' + tagName)]: the entry it leaves. *)
Definition overwriteNotice (tagName : string) : LogEntry :=
  (trace, ("Overwritting tag: " ++ tagName)%string).

(** How many entries of the log are the notice naming [tagName]. *)
Definition noticesNaming (tagName : string) (log : list LogEntry) : nat :=
  count_occ LogEntry_eq_dec log (overwriteNotice tagName).

(** ** [mergeTags] (lines 44-52)

    The loop body and the loop over [Object.keys(tags2)]; the state is the
    object [tags1], which the source mutates, and the log written so far.
    The key comes from [Object.keys(tags2)], so [tags2[tagName2]] reads an
    own property. *)
Definition mergeTag (tags2 : JsObject) (tagName2 : string)
  (st : ProtoObject * list LogEntry) : ProtoObject * list LogEntry :=
  let (tags1, log) := st in
  let log' :=
    if memberDefined tags1 tagName2
    then log ++ [overwriteNotice tagName2]
    else log in
  (assignMember tagName2 (readProperty tagName2 tags2) tags1, log').

(** [tags1] is the object [toDicom] has built by an object literal and a
    spread, the only caller of [mergeTags]: its prototype is
    [Object.prototype]. The result is the own properties [tags1] ends
    with, which is what the element builder is given, and the log. *)
Definition mergeTags (tags1 tags2 : JsObject) (log : list LogEntry)
  : JsObject * list LogEntry :=
  let r :=
    fold_left (fun st tagName2 => mergeTag tags2 tagName2 st)
      (objectKeys tags2)
      ({| ownProperties := tags1; prototype := ObjectPrototype |}, log) in
  (ownProperties (fst r), snd r).

(** ** The factory's state: the private field [#warning] *)

Record AnnotationFactory : Type := mkAnnotationFactory {
  warning : option string
}.

Definition getWarning (this : AnnotationFactory) : option string :=
  warning this.

(** ** [checkElements] (lines 82-96): the returned value and the factory
    after the call. *)
Definition checkElements (this : AnnotationFactory) (dataElements : JsValue)
  : option string * AnnotationFactory :=
  let this0 := {| warning := None |} in
  let srContent := getSRContent dataElements in
  let this1 :=
    match conceptNameCode srContent with
    | Some code =>
        if String.eqb (DicomCode.value code)
             (DicomCode.value getMeasurementGroupCode)
        then this0
        else {| warning := Some "Not a measurement group" |}
    | None => {| warning := Some "No root concept name code" |}
    end in
  (warning this1, this1).

(** ** [create] (lines 104-163) *)

(** [value.referencedSOPSequence.referencedSOPInstanceUID] (line 121). *)
Definition referencedSOPInstanceUIDOf (v : JsValue) : result JsValue :=
  ref <- getMember v "referencedSOPSequence" ;;
  getMember ref "referencedSOPInstanceUID".

(** The three tests of the inner loop (lines 118-130) on one child of a
    [scoord] node. *)
Definition readSubItem (subItem : DicomSRContent) (annotation : Annotation)
  : result Annotation :=
  a1 <- (if sameValueType (valueType subItem) image &&
            sameRelationshipType (relationshipType subItem) selectedFrom
         then
           uid <- referencedSOPInstanceUIDOf (value subItem) ;;
           Ok (setReferenceSopUID uid annotation)
         else Ok annotation) ;;
  let a2 :=
    if sameValueType (valueType subItem) uidref &&
       sameRelationshipType (relationshipType subItem) hasProperties
    then setId (value subItem) a1 else a1 in
  let a3 :=
    if sameValueType (valueType subItem) text &&
       sameRelationshipType (relationshipType subItem) hasProperties
    then setTextExpr (value subItem) a2 else a2 in
  Ok a3.

(** Lines 111-131: the annotation of one [scoord] node; [guid] is called
    once, whether or not its identifier survives. *)
Definition createAnnotation (item : DicomSRContent) (gs : GuidState)
  : result (Annotation * GuidState) :=
  let shape := getShapeFromScoord (value item) in
  let (fresh, gs') := guid gs in
  let annotation :=
    {| Annotation.id := JString fresh; Annotation.mathShape := shape;
       Annotation.referenceSopUID := JUndefined;
       Annotation.textExpr := JString "" |} in
  a <- forOf (contentSequence item) readSubItem annotation ;;
  Ok (a, gs').

(** Lines 109-135: the body of the outer loop; the state is the array
    [annotations] and the identifier generator. *)
Definition readItem (item : DicomSRContent)
  (st : list Annotation * GuidState) : result (list Annotation * GuidState) :=
  let (annotations, gs) := st in
  if sameValueType (valueType item) scoord
  then
    r <- createAnnotation item gs ;;
    Ok (annotations ++ [fst r], snd r)
  else Ok (annotations, gs).

(** Lines 107-135: the array [annotations] after the outer loop. *)
Definition createAnnotations (srContent : DicomSRContent) (gs : GuidState)
  : result (list Annotation * GuidState) :=
  forOf (contentSequence srContent) readItem ([], gs).

(** The object literal of lines 149-153:
    [{value: [{SeriesInstanceUID: seriesUID}]}]. *)
Definition seriesReference (seriesUID : JsValue) : JsValue :=
  JObject [("value", JArray [JObject [("SeriesInstanceUID", seriesUID)]])].

(** [element.value[0]]. *)
Definition firstValue (element : JsValue) : result JsValue :=
  values <- getMember element "value" ;;
  getFirst values.

(** Lines 143-156: the optional [ReferencedSeriesSequence]. *)
Definition readSeriesMeta (dataElements : JsValue) (g1 : AnnotationGroup)
  : result AnnotationGroup :=
  element <- getMember dataElements "00081115" ;;
  if isDefined element
  then
    item0 <- firstValue element ;;
    seriesElement <- getMember item0 "0020000E" ;;
    if isDefined seriesElement
    then
      seriesUID <- firstValue seriesElement ;;
      Ok (setMeta "ReferencedSeriesSequence" (seriesReference seriesUID) g1)
    else Ok g1
  else Ok g1.

(** Lines 139-160: the metadata of the group. *)
Definition readMeta (dataElements : JsValue) (g0 : AnnotationGroup)
  : result AnnotationGroup :=
  modalityElement <- getMember dataElements "00080060" ;;
  modality <- firstValue modalityElement ;;
  let g1 := setMeta "Modality" modality g0 in
  g2 <- readSeriesMeta dataElements g1 ;;
  studyElement <- getMember dataElements "0020000D" ;;
  study <- firstValue studyElement ;;
  Ok (setMeta "StudyInstanceUID" study g2).

(** Lines 104-163: the group returned, or the exception thrown, and the
    identifier generator after the call. *)
Definition create (dataElements : JsValue) (gs : GuidState)
  : result (AnnotationGroup * GuidState) :=
  let srContent := getSRContent dataElements in
  r <- createAnnotations srContent gs ;;
  let annotationGroup := newAnnotationGroup (fst r) in
  g <- readMeta dataElements annotationGroup ;;
  Ok (g, snd r).

(** ** [toDicom] (lines 172-245) *)

(** Lines 173-194: the tags written before the content tree; [now] is the
    instant [new Date()] returned. *)
Definition baseTags (annotationGroup : AnnotationGroup) (now : Date)
  : JsObject :=
  let tags := [] in
  let tags := writeProperty "TransferSyntaxUID"
                (JString "1.2.840.10008.1.2.1") tags in
  let tags := writeProperty "SOPClassUID"
                (JString "1.2.840.10008.5.1.4.1.1.88.11") tags in
  let tags := writeProperty "SOPInstanceUID"
                (JString "1.2.840.10008.5.1.4.1.1.88.11.0") tags in
  let tags := writeProperty "MediaStorageSOPClassUID"
                (JString "1.2.840.10008.5.1.4.1.1.88.11") tags in
  let tags := writeProperty "MediaStorageSOPInstanceUID"
                (JString "1.2.840.10008.5.1.4.1.1.88.11.0") tags in
  let tags := writeProperty "Modality"
                (getMeta annotationGroup "Modality") tags in
  let tags := writeProperty "StudyInstanceUID"
                (getMeta annotationGroup "StudyInstanceUID") tags in
  let tags := writeProperty "ReferencedSeriesSequence"
                (getMeta annotationGroup "ReferencedSeriesSequence") tags in
  let tags := writeProperty "SeriesInstanceUID" (JString "1.2.3.4.5.6") tags in
  let tags := writeProperty "CompletionFlag" (JString "PARTIAL") tags in
  let tags := writeProperty "VerificationFlag" (JString "UNVERIFIED") tags in
  let tags := writeProperty "ContentDate"
                (JString (getDicomDate (dateToDateObj now))) tags in
  let tags := writeProperty "ContentTime"
                (JString (getDicomTime (dateToTimeObj now))) tags in
  tags.

(** Modelled from the spec: the classes [SopInstanceReference] and
    [ImageReference] of [dicom/dicomSopInstanceReference] and
    [dicom/dicomImageReference]; an instance is the object of the fields
    assigned to it. Lines 202-206. *)
Definition newImageReference (referenceSopUID : JsValue) : JsValue :=
  let sopRef := [] in
  let sopRef := writeProperty "referencedSOPClassUID" (JString "") sopRef in
  let sopRef := writeProperty "referencedSOPInstanceUID" referenceSopUID
                  sopRef in
  let imageRef := [] in
  let imageRef := writeProperty "referencedSOPSequence" (JObject sopRef)
                    imageRef in
  JObject imageRef.

(** Lines 199-223: the [scoord] node of one annotation. *)
Definition annotationToScoord (annotation : Annotation) : DicomSRContent :=
  let srImage := newDicomSRContent image in
  let srImage := setRelationshipType selectedFrom srImage in
  let srImage := setConceptNameCode getSourceImageCode srImage in
  let srImage :=
    setValue (newImageReference (Annotation.referenceSopUID annotation))
      srImage in
  let srUid := newDicomSRContent uidref in
  let srUid := setRelationshipType hasProperties srUid in
  let srUid := setConceptNameCode getTrackingIdentifierCode srUid in
  let srUid := setValue (Annotation.id annotation) srUid in
  let shortLabel := newDicomSRContent text in
  let shortLabel := setRelationshipType hasProperties shortLabel in
  let shortLabel := setConceptNameCode getShortLabelCode shortLabel in
  let shortLabel := setValue (Annotation.textExpr annotation) shortLabel in
  let srScoord := newDicomSRContent scoord in
  let srScoord := setRelationshipType contains srScoord in
  let srScoord := setConceptNameCode getImageRegionCode srScoord in
  let srScoord :=
    setValue (getScoordFromShape (Annotation.mathShape annotation))
      srScoord in
  let srScoord := setContentSequence [srImage; srUid; shortLabel] srScoord in
  srScoord.

(** Lines 196-226: the array [contentSequence] after the loop. *)
Definition scoordSequence (annotationGroup : AnnotationGroup)
  : list DicomSRContent :=
  fold_left (fun contentSequence annotation =>
               contentSequence ++ [annotationToScoord annotation])
    (getList annotationGroup) [].

(** Lines 229-231: the root container. *)
Definition rootContainer (contentSequence : list DicomSRContent)
  : DicomSRContent :=
  let srContent := newDicomSRContent container in
  let srContent := setConceptNameCode getMeasurementGroupCode srContent in
  let srContent := setContentSequence contentSequence srContent in
  srContent.

(** Lines 173-237: the tags before [extraTags] are merged. *)
Definition generatedTags (annotationGroup : AnnotationGroup) (now : Date)
  : JsObject :=
  let tags := baseTags annotationGroup now in
  let contentSequence := scoordSequence annotationGroup in
  if negb (Nat.eqb (length contentSequence) 0)
  then spread tags (getDicomSRContentItem (rootContainer contentSequence))
  else tags.

(** Lines 173-242: the final tags and the log entries of the call;
    [extraTags] is [None] when the argument is [undefined]. *)
Definition toDicomTags (annotationGroup : AnnotationGroup)
  (extraTags : option JsObject) (now : Date) : JsObject * list LogEntry :=
  let tags := generatedTags annotationGroup now in
  match extraTags with
  | Some extra => mergeTags tags extra []
  | None => (tags, [])
  end.

(** Lines 172-245: the elements returned and the log entries written. *)
Definition toDicom (annotationGroup : AnnotationGroup)
  (extraTags : option JsObject) (now : Date) : JsValue * list LogEntry :=
  let (tags, log) := toDicomTags annotationGroup extraTags now in
  (getElementsFromJSONTags tags, log).

(** The argument [extraTags] as a caller gives it: left out, [null], or an
    object. *)
Inductive ExtraTags : Type :=
| extraUndefined
| extraNull
| extraObject (extra : JsObject).

(** Lines 240-242 and 45 on such an argument: [null] is not [undefined],
    and [Object.keys(null)] throws. *)
Definition toDicomCall (annotationGroup : AnnotationGroup)
  (extraTags : ExtraTags) (now : Date) : result (JsValue * list LogEntry) :=
  match extraTags with
  | extraUndefined => Ok (toDicom annotationGroup None now)
  | extraNull => Throw TypeError
  | extraObject extra => Ok (toDicom annotationGroup (Some extra) now)
  end.

End Factory.

(** ** A sample of the collaborators

    A small implementation of every collaborator, on which the factory can
    be run: points as shapes, a counter as identifier generator, a writer
    that lays an SR node out as named tags, an element builder that keys
    the tags by their DICOM tag and a reader that builds the node back. *)
Module Sample.

Inductive SampleShape : Type :=
| Point2D (x y : string)
| NoShape.

Definition shapeFromScoord (v : JsValue) : SampleShape :=
  match v with
  | JObject o =>
      match readProperty "graphicData" o with
      | JArray [JString x; JString y] => Point2D x y
      | _ => NoShape
      end
  | _ => NoShape
  end.

Definition scoordFromShape (s : SampleShape) : JsValue :=
  match s with
  | Point2D x y =>
      JObject [("graphicType", JString "POINT");
               ("graphicData", JArray [JString x; JString y])]
  | NoShape => JObject [("graphicType", JUndefined)]
  end.

(** The n-th identifier is [n] letters long. *)
Definition nextGuid (n : nat) : string * nat :=
  (String.concat "" (repeat "g" (S n)), S n).

Definition valueTypeName (vt : ValueType) : string :=
  match vt with
  | container => "CONTAINER"
  | scoord => "SCOORD"
  | image => "IMAGE"
  | uidref => "UIDREF"
  | text => "TEXT"
  | otherValueType name => name
  end.

Definition valueTypeOfName (name : string) : ValueType :=
  if String.eqb name "CONTAINER" then container
  else if String.eqb name "SCOORD" then scoord
  else if String.eqb name "IMAGE" then image
  else if String.eqb name "UIDREF" then uidref
  else if String.eqb name "TEXT" then text
  else otherValueType name.

Definition relationshipTypeName (r : RelationshipType) : string :=
  match r with
  | contains => "CONTAINS"
  | hasProperties => "HAS PROPERTIES"
  | selectedFrom => "SELECTED FROM"
  | otherRelationshipType name => name
  end.

Definition relationshipTypeOfName (name : string) : RelationshipType :=
  if String.eqb name "CONTAINS" then contains
  else if String.eqb name "HAS PROPERTIES" then hasProperties
  else if String.eqb name "SELECTED FROM" then selectedFrom
  else otherRelationshipType name.

(** A sequence tag: [{value: [item, ...]}]. *)
Definition sequenceOf (items : list JsValue) : JsValue :=
  JObject [("value", JArray items)].

(** The tags of the value of a node, by its value type. *)
Definition writeValue (vt : ValueType) (v : JsValue) : JsObject :=
  match vt, v with
  | text, _ => [("TextValue", v)]
  | uidref, _ => [("UID", v)]
  | image, JObject o =>
      match readProperty "referencedSOPSequence" o with
      | JObject ref =>
          [("ReferencedSOPSequence",
            sequenceOf
              [JObject
                 [("ReferencedSOPClassUID",
                   readProperty "referencedSOPClassUID" ref);
                  ("ReferencedSOPInstanceUID",
                   readProperty "referencedSOPInstanceUID" ref)]])]
      | _ => []
      end
  | scoord, JObject o =>
      [("GraphicType", readProperty "graphicType" o);
       ("GraphicData", readProperty "graphicData" o)]
  | _, _ => []
  end.

(** The writer: one SR node as named tags, its children nested under
    [ContentSequence]. *)
Fixpoint writeContent (c : DicomSRContent) : JsObject :=
  match c with
  | mkDicomSRContent vt code rel children v =>
      [("ValueType", JString (valueTypeName vt))]
      ++ match rel with
         | Some r => [("RelationshipType", JString (relationshipTypeName r))]
         | None => []
         end
      ++ match code with
         | Some cd =>
             [("ConceptNameCodeSequence",
               sequenceOf
                 [JObject
                    [("CodeValue", JString (DicomCode.value cd));
                     ("CodingSchemeDesignator",
                      JString (DicomCode.schemeDesignator cd))]])]
         | None => []
         end
      ++ writeValue vt v
      ++ match children with
         | Some l =>
             [("ContentSequence",
               sequenceOf (map (fun child => JObject (writeContent child)) l))]
         | None => []
         end
  end.

(** The DICOM tag of a tag name. *)
Definition tagKeys : list (string * string) :=
  [("TransferSyntaxUID", "00020010"); ("MediaStorageSOPClassUID", "00020002");
   ("MediaStorageSOPInstanceUID", "00020003"); ("SOPClassUID", "00080016");
   ("SOPInstanceUID", "00080018"); ("ContentDate", "00080023");
   ("ContentTime", "00080033"); ("Modality", "00080060");
   ("CodeValue", "00080100"); ("CodingSchemeDesignator", "00080102");
   ("ReferencedSeriesSequence", "00081115");
   ("ReferencedSOPClassUID", "00081150");
   ("ReferencedSOPInstanceUID", "00081155");
   ("ReferencedSOPSequence", "00081199"); ("StudyInstanceUID", "0020000D");
   ("SeriesInstanceUID", "0020000E"); ("RelationshipType", "0040A010");
   ("ValueType", "0040A040"); ("ConceptNameCodeSequence", "0040A043");
   ("UID", "0040A124"); ("TextValue", "0040A160");
   ("CompletionFlag", "0040A491"); ("VerificationFlag", "0040A493");
   ("ContentSequence", "0040A730"); ("GraphicData", "00700022");
   ("GraphicType", "00700023")].

Fixpoint tagKey (name : string) (dict : list (string * string))
  : option string :=
  match dict with
  | [] => None
  | (n, key) :: rest => if String.eqb n name then Some key else tagKey name rest
  end.

(** A data element: [{value: [...]}]. *)
Definition dataElement (values : list JsValue) : JsValue :=
  JObject [("value", JArray values)].

(** The element builder: every named tag of the dictionary whose value is
    defined becomes a data element under its tag key; a sequence tag
    becomes the element of its items, built in turn. [depth] bounds the
    nesting. *)
Fixpoint elementsOfTags (depth : nat) (tags : JsObject) : JsObject :=
  match depth with
  | 0 => []
  | S depth' =>
      flat_map
        (fun kv =>
           match tagKey (fst kv) tagKeys with
           | None => []
           | Some key =>
               match snd kv with
               | JUndefined => []
               | JArray values => [(key, dataElement values)]
               | JString s => [(key, dataElement [JString s])]
               | JObject o =>
                   match readProperty "value" o with
                   | JArray items =>
                       [(key,
                         dataElement
                           (map (fun item =>
                                   match item with
                                   | JObject io =>
                                       JObject (elementsOfTags depth' io)
                                   | other => other
                                   end) items))]
                   | _ => [(key, dataElement [JObject o])]
                   end
               end
           end)
        tags
  end.

(** The element the builder makes of the value of a tag, none for
    [undefined]; [depth'] bounds the nesting of the items. *)
Definition elementOfValue (depth' : nat) (v : JsValue) : option JsValue :=
  match v with
  | JUndefined => None
  | JArray values => Some (dataElement values)
  | JString s => Some (dataElement [JString s])
  | JObject o =>
      match readProperty "value" o with
      | JArray items =>
          Some (dataElement
                  (map (fun item =>
                          match item with
                          | JObject io => JObject (elementsOfTags depth' io)
                          | other => other
                          end) items))
      | _ => Some (dataElement [JObject o])
      end
  end.

(** The values and the first value of the element under [key]. *)
Definition valuesAt (key : string) (elements : JsObject) : list JsValue :=
  match readProperty key elements with
  | JObject e =>
      match readProperty "value" e with
      | JArray values => values
      | _ => []
      end
  | _ => []
  end.

Definition firstAt (key : string) (elements : JsObject) : JsValue :=
  nth 0 (valuesAt key elements) JUndefined.

Definition readCode (elements : JsObject) : option DicomCode :=
  match firstAt "0040A043" elements with
  | JObject item =>
      match firstAt "00080100" item, firstAt "00080102" item with
      | JString v, JString d =>
          Some {| DicomCode.value := v; DicomCode.schemeDesignator := d |}
      | _, _ => None
      end
  | _ => None
  end.

Definition readValue (vt : ValueType) (elements : JsObject) : JsValue :=
  match vt with
  | text => firstAt "0040A160" elements
  | uidref => firstAt "0040A124" elements
  | image =>
      match firstAt "00081199" elements with
      | JObject ref =>
          JObject
            [("referencedSOPSequence",
              JObject
                [("referencedSOPClassUID", firstAt "00081150" ref);
                 ("referencedSOPInstanceUID", firstAt "00081155" ref)])]
      | _ => JObject []
      end
  | scoord =>
      JObject
        [("graphicType", firstAt "00700023" elements);
         ("graphicData",
          match readProperty "00700022" elements with
          | JObject _ => JArray (valuesAt "00700022" elements)
          | _ => JUndefined
          end)]
  | _ => JUndefined
  end.

(** The reader: the SR node of an element set, its children read from the
    items of element [0040A730] when there is one. [depth] bounds the
    nesting. *)
Fixpoint readContent (depth : nat) (elements : JsObject) : DicomSRContent :=
  let vt :=
    match firstAt "0040A040" elements with
    | JString name => valueTypeOfName name
    | _ => otherValueType ""
    end in
  {| valueType := vt;
     conceptNameCode := readCode elements;
     relationshipType :=
       match firstAt "0040A010" elements with
       | JString name => Some (relationshipTypeOfName name)
       | _ => None
       end;
     contentSequence :=
       match depth, readProperty "0040A730" elements with
       | S depth', JObject _ =>
           Some (map (fun item =>
                        match item with
                        | JObject io => readContent depth' io
                        | _ => newDicomSRContent (otherValueType "")
                        end)
                   (valuesAt "0040A730" elements))
       | _, _ => None
       end;
     value := readValue vt elements |}.

Definition readRoot (dataElements : JsValue) : DicomSRContent :=
  match dataElements with
  | JObject elements => readContent 8 elements
  | _ => newDicomSRContent (otherValueType "")
  end.

Definition collaborators : Collaborators :=
  {| Shape := SampleShape;
     getShapeFromScoord := shapeFromScoord;
     getScoordFromShape := scoordFromShape;
     GuidState := nat;
     guid := nextGuid;
     Date := (string * string)%type;
     DateObj := string;
     TimeObj := string;
     dateToDateObj := fst;
     getDicomDate := fun d => d;
     dateToTimeObj := snd;
     getDicomTime := fun t => t;
     getSRContent := readRoot;
     getDicomSRContentItem := writeContent;
     getElementsFromJSONTags := fun tags => JObject (elementsOfTags 8 tags);
     getMeasurementGroupCode :=
       {| DicomCode.value := "125007"; DicomCode.schemeDesignator := "DCM" |};
     getImageRegionCode :=
       {| DicomCode.value := "111030"; DicomCode.schemeDesignator := "DCM" |};
     getSourceImageCode :=
       {| DicomCode.value := "260753009"; DicomCode.schemeDesignator := "SCT" |};
     getTrackingIdentifierCode :=
       {| DicomCode.value := "112039"; DicomCode.schemeDesignator := "DCM" |};
     getShortLabelCode :=
       {| DicomCode.value := "125309"; DicomCode.schemeDesignator := "DCM" |} |}.

(** The members of [Array.prototype] in the 2023 edition of the
    language. *)
Definition engine : Engine :=
  {| arrayPrototypeNames :=
       ["at"; "concat"; "constructor"; "copyWithin"; "entries"; "every";
        "fill"; "filter"; "find"; "findIndex"; "findLast"; "findLastIndex";
        "flat"; "flatMap"; "forEach"; "includes"; "indexOf"; "join"; "keys";
        "lastIndexOf"; "map"; "pop"; "push"; "reduce"; "reduceRight";
        "reverse"; "shift"; "slice"; "some"; "sort"; "splice";
        "toLocaleString"; "toReversed"; "toSorted"; "toSpliced"; "toString";
        "unshift"; "values"; "with"] |}.

End Sample.

(** ** Sample inputs, over the sample collaborators *)
Module SampleData.

Definition X : Collaborators := Sample.collaborators.

Definition annotationA : @Annotation X :=
  {| Annotation.id := JString "A";
     Annotation.mathShape := (Sample.Point2D "1" "2" : @Shape X);
     Annotation.referenceSopUID := JString "1.2.3";
     Annotation.textExpr := JString "lesion" |}.

Definition annotationB : @Annotation X :=
  {| Annotation.id := JString "B";
     Annotation.mathShape := (Sample.Point2D "3" "4" : @Shape X);
     Annotation.referenceSopUID := JString "1.2.4";
     Annotation.textExpr := JString "" |}.

Definition annotationC : @Annotation X :=
  {| Annotation.id := JString "C";
     Annotation.mathShape := (Sample.Point2D "5" "6" : @Shape X);
     Annotation.referenceSopUID := JString "1.2.5";
     Annotation.textExpr := JString "node" |}.

(** Three annotations and the three metadata keys of the factory. *)
Definition groupMR : @AnnotationGroup X :=
  {| getList := [annotationA; annotationB; annotationC];
     metaTable :=
       [("Modality", JString "MR"); ("StudyInstanceUID", JString "1.2");
        ("ReferencedSeriesSequence", seriesReference (JString "1.2.9"))] |}.

(** As [groupMR], with one more metadata key and one more field in the
    item of the series reference. *)
Definition groupExtraMeta : @AnnotationGroup X :=
  {| getList := [annotationA];
     metaTable :=
       [("Modality", JString "MR"); ("StudyInstanceUID", JString "1.2");
        ("ReferencedSeriesSequence",
         JObject
           [("value",
             JArray
               [JObject
                  [("SeriesInstanceUID", JString "1.2.9");
                   ("Modality", JString "MR")]])]);
        ("PatientID", JString "P1")] |}.

(** No annotation and no metadata. *)
Definition groupEmpty : @AnnotationGroup X :=
  {| getList := []; metaTable := [] |}.

Definition noon : @Date X := ("20260101", "120000").

Definition modalityCT : JsObject := [("Modality", JString "CT")].

(** An element set whose SR root is a measurement group with one [scoord]
    child that has no content sequence. *)
Definition elementsLeafScoord : JsValue :=
  JObject
    [("00080060", Sample.dataElement [JString "SR"]);
     ("0020000D", Sample.dataElement [JString "1.2"]);
     ("0040A040", Sample.dataElement [JString "CONTAINER"]);
     ("0040A730",
      Sample.dataElement
        [JObject
           [("0040A040", Sample.dataElement [JString "SCOORD"]);
            ("0040A010", Sample.dataElement [JString "CONTAINS"]);
            ("00700023", Sample.dataElement [JString "POINT"]);
            ("00700022", Sample.dataElement [JString "1"; JString "2"])]])].

(** An element set whose SR root has two [scoord] children, the second
    with an [image] child under [selectedFrom] that has no referenced SOP
    sequence. *)
Definition elementsBareImage : JsValue :=
  JObject
    [("00080060", Sample.dataElement [JString "SR"]);
     ("0020000D", Sample.dataElement [JString "1.2"]);
     ("0040A040", Sample.dataElement [JString "CONTAINER"]);
     ("0040A730",
      Sample.dataElement
        [JObject
           [("0040A040", Sample.dataElement [JString "SCOORD"]);
            ("0040A010", Sample.dataElement [JString "CONTAINS"]);
            ("00700023", Sample.dataElement [JString "POINT"]);
            ("00700022", Sample.dataElement [JString "1"; JString "2"]);
            ("0040A730", Sample.dataElement [])];
         JObject
           [("0040A040", Sample.dataElement [JString "SCOORD"]);
            ("0040A010", Sample.dataElement [JString "CONTAINS"]);
            ("00700023", Sample.dataElement [JString "POINT"]);
            ("00700022", Sample.dataElement [JString "3"; JString "4"]);
            ("0040A730",
             Sample.dataElement
               [JObject
                  [("0040A040", Sample.dataElement [JString "IMAGE"]);
                   ("0040A010",
                    Sample.dataElement [JString "SELECTED FROM"])]])]])].

(** An element set with the two required elements whose SR root has no
    content sequence. *)
Definition elementsNoContent : JsValue :=
  JObject
    [("00080060", Sample.dataElement [JString "SR"]);
     ("0020000D", Sample.dataElement [JString "1.2"]);
     ("0040A040", Sample.dataElement [JString "CONTAINER"])].

(** An element set with the two required elements, an empty content
    sequence, and the series sequence given by its items. *)
Definition elementsWithSeries (items : list JsValue) : JsValue :=
  JObject
    [("00080060", Sample.dataElement [JString "SR"]);
     ("0020000D", Sample.dataElement [JString "1.2"]);
     ("00081115", Sample.dataElement items);
     ("0040A040", Sample.dataElement [JString "CONTAINER"]);
     ("0040A730", Sample.dataElement [])].

(** As [elementsWithSeries], without element [00081115]. *)
Definition elementsNoSeries : JsValue :=
  JObject
    [("00080060", Sample.dataElement [JString "SR"]);
     ("0020000D", Sample.dataElement [JString "1.2"]);
     ("0040A040", Sample.dataElement [JString "CONTAINER"]);
     ("0040A730", Sample.dataElement [])].

(** A [scoord] node with two children of each kind and a grandchild. *)
Definition scoordTwice : DicomSRContent :=
  let leaf vt rel v :=
    {| valueType := vt; conceptNameCode := None; relationshipType := Some rel;
       contentSequence := None; value := v |} in
  {| valueType := scoord; conceptNameCode := None;
     relationshipType := Some contains;
     contentSequence :=
       Some
         [leaf uidref hasProperties (JString "first-id");
          leaf text hasProperties (JString "first-label");
          leaf image selectedFrom
            (JObject
               [("referencedSOPSequence",
                 JObject [("referencedSOPInstanceUID", JString "1.1")])]);
          {| valueType := container; conceptNameCode := None;
             relationshipType := Some contains;
             contentSequence :=
               Some [leaf uidref hasProperties (JString "nested-id")];
             value := JUndefined |};
          leaf uidref hasProperties (JString "last-id");
          leaf text hasProperties (JString "last-label");
          leaf image selectedFrom
            (JObject
               [("referencedSOPSequence",
                 JObject [("referencedSOPInstanceUID", JString "2.2")])])];
     value :=
       JObject [("graphicType", JString "POINT");
                ("graphicData", JArray [JString "7"; JString "8"])] |}.

(** A root with a [text] child, the node [scoordTwice], a nested
    container holding a [scoord] node, and one more [scoord] node without
    children. *)
Definition mixedRoot : DicomSRContent :=
  let bare :=
    {| valueType := scoord; conceptNameCode := None;
       relationshipType := Some contains; contentSequence := Some [];
       value :=
         JObject [("graphicType", JString "POINT");
                  ("graphicData", JArray [JString "9"; JString "0"])] |} in
  {| valueType := container; conceptNameCode := None;
     relationshipType := None;
     contentSequence :=
       Some
         [{| valueType := text; conceptNameCode := None;
             relationshipType := Some contains; contentSequence := None;
             value := JString "note" |};
          scoordTwice;
          {| valueType := container; conceptNameCode := None;
             relationshipType := Some contains;
             contentSequence := Some [bare]; value := JUndefined |};
          bare];
     value := JUndefined |}.

(** The children of a node, none when it has no content sequence. *)
Definition childrenOf (c : DicomSRContent) : list DicomSRContent :=
  match contentSequence c with
  | Some l => l
  | None => []
  end.

(** The item of a series sequence with the series instance UID. *)
Definition seriesItem : JsObject :=
  [("0020000E", Sample.dataElement [JString "1.2.9"])].

(** A root with two [scoord] children that have no child of their own,
    around a [text] child. *)
Definition bareRoot : DicomSRContent :=
  let bare x y :=
    {| valueType := scoord; conceptNameCode := None;
       relationshipType := Some contains; contentSequence := Some [];
       value :=
         JObject [("graphicType", JString "POINT");
                  ("graphicData", JArray [JString x; JString y])] |} in
  {| valueType := container; conceptNameCode := None;
     relationshipType := None;
     contentSequence :=
       Some
         [bare "1" "1";
          {| valueType := text; conceptNameCode := None;
             relationshipType := Some contains; contentSequence := None;
             value := JString "note" |};
          bare "2" "2"];
     value := JUndefined |}.

(** Two extra tags, one of them over a generated tag. *)
Definition extraTwo : JsObject :=
  [("PatientID", JString "P1"); ("Modality", JString "CT")].

(** Extra tags over the first. *)
Definition extraThree : JsObject :=
  [("Modality", JString "US"); ("PatientName", JString "Doe")].

(** Extra tags under two names every object inherits a member for, as
    [JSON.parse] builds them. *)
Definition extraInherited : JsObject :=
  [("__proto__", JString "p"); ("constructor", JString "c")].

(** Extra tags of which two name array indices; [Object.keys] gives
    these first. *)
Definition extraIndexed : JsObject :=
  [("7", JString "seven"); ("10", JString "ten");
   ("PatientID", JString "P1")].

(** [groupMR] with one more metadata key. *)
Definition groupMRPatient : @AnnotationGroup X :=
  {| getList := getList groupMR;
     metaTable := ("PatientID", JString "P1") :: metaTable groupMR |}.

(** [elementsNoSeries] with one more element. *)
Definition elementsNoSeriesPatient : JsValue :=
  JObject
    [("00100020", Sample.dataElement [JString "P1"]);
     ("00080060", Sample.dataElement [JString "SR"]);
     ("0020000D", Sample.dataElement [JString "1.2"]);
     ("0040A040", Sample.dataElement [JString "CONTAINER"]);
     ("0040A730", Sample.dataElement [])].

(** A [uidref] child under [hasProperties]. *)
Definition idLeaf : DicomSRContent :=
  {| valueType := uidref; conceptNameCode := None;
     relationshipType := Some hasProperties; contentSequence := None;
     value := JString "given-id" |}.

End SampleData.

(** ** Vocabulary of the statements *)
Section Vocabulary.
Context `{X : Collaborators}.

(** The SR content-tree tags of an export: what the writer makes of the
    root container, a [container] node with the measurement-group code
    over the [scoord] nodes of the annotations, when the group has an
    annotation; no tag otherwise. *)
Definition contentTreeTags (g : AnnotationGroup) : JsObject :=
  match getList g with
  | [] => []
  | _ :: _ =>
      getDicomSRContentItem
        {| valueType := container;
           conceptNameCode := Some getMeasurementGroupCode;
           relationshipType := None;
           contentSequence := Some (map annotationToScoord (getList g));
           value := JUndefined |}
  end.

(** The keys of the [extraTags] argument, none when it is [undefined]. *)
Definition extraKeys (extraTags : option JsObject) : list string :=
  match extraTags with
  | Some extra => objectKeys extra
  | None => []
  end.

(** The constants of the export, by tag name. *)
Definition fixedConstants : list (string * string) :=
  [("TransferSyntaxUID", "1.2.840.10008.1.2.1");
   ("SOPClassUID", "1.2.840.10008.5.1.4.1.1.88.11");
   ("SOPInstanceUID", "1.2.840.10008.5.1.4.1.1.88.11.0");
   ("CompletionFlag", "PARTIAL");
   ("VerificationFlag", "UNVERIFIED");
   ("SeriesInstanceUID", "1.2.3.4.5.6")].

(** The element under [key] of an element set is a data element whose
    value array is [values]. *)
Definition elementAt (dataElements : JsValue) (key : string)
  (values : list JsValue) : Prop :=
  exists elements element,
    dataElements = JObject elements /\
    readProperty key elements = JObject element /\
    readProperty "value" element = JArray values.

(** The element set has no element under [key]. *)
Definition lacksElement (dataElements : JsValue) (key : string) : Prop :=
  getMember dataElements key = Ok JUndefined.

(** What the three tests of the inner loop look at in a child. *)
Definition shallow (c : DicomSRContent)
  : ValueType * option RelationshipType * JsValue :=
  (valueType c, relationshipType c, value c).

Definition isKind (vt : ValueType) (rel : RelationshipType)
  (c : DicomSRContent) : bool :=
  sameValueType (valueType c) vt &&
  sameRelationshipType (relationshipType c) rel.

(** The last child of the given kind, in sequence order. *)
Definition lastOfKind (vt : ValueType) (rel : RelationshipType)
  (children : list DicomSRContent) : option DicomSRContent :=
  find (isKind vt rel) (rev children).

(** A [scoord] node the inner loop runs through: it has a content
    sequence, and the value of every [image]/[selectedFrom] child has a
    referenced SOP sequence to read the instance UID from. *)
Definition readableScoord (item : DicomSRContent) : Prop :=
  exists children,
    contentSequence item = Some children /\
    forall child, In child children -> isKind image selectedFrom child = true ->
      exists uid, referencedSOPInstanceUIDOf (value child) = Ok uid.

(** A [scoord] node the inner loop breaks on: it has no content
    sequence, or the value of one of its [image]/[selectedFrom] children
    has no referenced SOP sequence. *)
Definition unreadableScoord (item : DicomSRContent) : Prop :=
  contentSequence item = None \/
  exists children child e,
    contentSequence item = Some children /\
    In child children /\
    isKind image selectedFrom child = true /\
    referencedSOPInstanceUIDOf (value child) = Throw e.

(** The annotation the spec describes for a [scoord] node with the given
    children, [fresh] being the generated identifier. *)
Definition describedAnnotation (item : DicomSRContent)
  (children : list DicomSRContent) (fresh : string) : Annotation :=
  {| Annotation.id :=
       match lastOfKind uidref hasProperties children with
       | Some child => value child
       | None => JString fresh
       end;
     Annotation.mathShape := getShapeFromScoord (value item);
     Annotation.referenceSopUID :=
       match lastOfKind image selectedFrom children with
       | Some child =>
           match referencedSOPInstanceUIDOf (value child) with
           | Ok uid => uid
           | Throw _ => JUndefined
           end
       | None => JUndefined
       end;
     Annotation.textExpr :=
       match lastOfKind text hasProperties children with
       | Some child => value child
       | None => JString ""
       end |}.

(** An exported annotation as the import reads it back: the shape goes
    through the codec both ways, the other fields are carried as they
    are. *)
Definition reimported (a : Annotation) : Annotation :=
  {| Annotation.id := Annotation.id a;
     Annotation.mathShape :=
       getShapeFromScoord (getScoordFromShape (Annotation.mathShape a));
     Annotation.referenceSopUID := Annotation.referenceSopUID a;
     Annotation.textExpr := Annotation.textExpr a |}.

(** The generator after [n] identifiers. *)
Fixpoint advance (n : nat) (gs : GuidState) : GuidState :=
  match n with
  | 0 => gs
  | S n' => advance n' (snd (guid gs))
  end.

(** [k in o]. *)
Definition hasKey (k : string) (o : JsObject) : bool :=
  existsb (String.eqb k) (objectKeys o).

(** The keys of [src] that [dst] has not, in the order of [src]. *)
Definition newKeys (dst src : JsObject) : list string :=
  filter (fun k => negb (hasKey k dst)) (objectKeys src).

(** The key list [Object.keys] gives after a new key whose array index is
    [n] is created. *)
Fixpoint insertKey (n : N) (k : string) (ks : list string) : list string :=
  match ks with
  | [] => [k]
  | k' :: rest =>
      match arrayIndex k' with
      | Some n' => if (n' <=? n)%N then k' :: insertKey n k rest else k :: ks
      | None => k :: ks
      end
  end.

(** The key list after [writeProperty]. *)
Definition keysAfterWrite (k : string) (ks : list string) : list string :=
  if existsb (String.eqb k) ks then ks
  else match arrayIndex k with
       | Some n => insertKey n k ks
       | None => ks ++ [k]
       end.

(** The name is no array index. *)
Definition plainName (k : string) : Prop := arrayIndex k = None.

(** A key list in the order of enumeration: the array indices first, in
    ascending order, then the other keys. *)
Fixpoint enumerationOrder (ks : list string) : Prop :=
  match ks with
  | [] => True
  | k :: rest =>
      match arrayIndex k with
      | Some n =>
          (forall k' n',
             In k' rest -> arrayIndex k' = Some n' -> (n <= n')%N) /\
          enumerationOrder rest
      | None => forall k', In k' rest -> plainName k'
      end
  end.

(** The object [toDicom] holds in [tags] when [mergeTags] is called. *)
Definition plainTags (tags : JsObject) : ProtoObject :=
  {| ownProperties := tags; prototype := ObjectPrototype |}.

(** The names of the thirteen tags written before the content tree, in
    the order of lines 175-194. *)
Definition baseTagNames : list string :=
  ["TransferSyntaxUID"; "SOPClassUID"; "SOPInstanceUID";
   "MediaStorageSOPClassUID"; "MediaStorageSOPInstanceUID"; "Modality";
   "StudyInstanceUID"; "ReferencedSeriesSequence"; "SeriesInstanceUID";
   "CompletionFlag"; "VerificationFlag"; "ContentDate"; "ContentTime"].

(** The children of a node, none when it has no content sequence. *)
Definition directChildren (c : DicomSRContent) : list DicomSRContent :=
  match contentSequence c with
  | Some l => l
  | None => []
  end.

Definition isScoord (item : DicomSRContent) : bool :=
  sameValueType (valueType item) scoord.

(** The first [n] identifiers of the generator. *)
Fixpoint freshIds (n : nat) (gs : GuidState) : list string :=
  match n with
  | 0 => []
  | S n' => fst (guid gs) :: freshIds n' (snd (guid gs))
  end.

(** The annotations described for the [scoord] items of a content
    sequence, each with the identifier generated at its turn. *)
Fixpoint describedAnnotations (items : list DicomSRContent) (gs : GuidState)
  : list Annotation :=
  match items with
  | [] => []
  | item :: rest =>
      if isScoord item
      then describedAnnotation item (directChildren item) (fst (guid gs))
             :: describedAnnotations rest (snd (guid gs))
      else describedAnnotations rest gs
  end.

(** The element builder makes of the value [v] of the tag [name] the one
    value of the element [key], whatever the other tags. *)
Definition buildsElement (name key : string) (v : JsValue) : Prop :=
  forall tags : JsObject,
    NoDup (objectKeys tags) ->
    readProperty name tags = v ->
    elementAt (getElementsFromJSONTags tags) key [v].

(** The element builder makes of the series reference [{value:
    [{SeriesInstanceUID: uid}]}] under [ReferencedSeriesSequence] the
    element [00081115] with one item, whose element [0020000E] has the
    one value [uid], whatever the other tags. *)
Definition buildsSeriesItem (uid : JsValue) : Prop :=
  forall tags : JsObject,
    NoDup (objectKeys tags) ->
    readProperty "ReferencedSeriesSequence" tags = seriesReference uid ->
    exists item : JsObject,
      elementAt (getElementsFromJSONTags tags) "00081115" [JObject item] /\
      elementAt (JObject item) "0020000E" [uid].

(** The reader finds the node [root] back in the elements built from the
    tags the writer makes of it, spread over the thirteen tags written
    before the content tree, whatever the values of these. *)
Definition readsBack (root : DicomSRContent) : Prop :=
  forall base : JsObject,
    objectKeys base = baseTagNames ->
    getSRContent
      (getElementsFromJSONTags (spread base (getDicomSRContentItem root)))
    = root.

(** The shape codec gives back the shape of the annotation. *)
Definition shapeReadsBack (a : Annotation) : Prop :=
  getShapeFromScoord (getScoordFromShape (Annotation.mathShape a))
    = Annotation.mathShape a.

(** The three metadata keys [toDicom] reads and [create] sets. *)
Definition metadataNames : list string :=
  ["Modality"; "StudyInstanceUID"; "ReferencedSeriesSequence"].

End Vocabulary.

(** * Properties *)

(** ** Objects *)

Lemma hasKey_In (k : string) (o : JsObject) :
  hasKey k o = true <-> In k (objectKeys o).
Proof.
  unfold hasKey. rewrite existsb_exists. split.
  - intros (x & Hx & E). apply String.eqb_eq in E. now subst.
  - intros H. exists k. split; [exact H | apply String.eqb_refl].
Qed.

Lemma hasKey_false (k : string) (o : JsObject) :
  hasKey k o = false <-> ~ In k (objectKeys o).
Proof.
  rewrite <- hasKey_In. destruct (hasKey k o); split; congruence.
Qed.

Lemma readProperty_cons_other (k k0 : string) (v0 : JsValue) (o : JsObject) :
  k0 <> k -> readProperty k ((k0, v0) :: o) = readProperty k o.
Proof.
  intros Hne. unfold readProperty. cbn [ownProperty].
  destruct (String.eqb_spec k0 k); [contradiction | reflexivity].
Qed.

Lemma readProperty_cons_same (k : string) (v : JsValue) (o : JsObject) :
  readProperty k ((k, v) :: o) = v.
Proof. unfold readProperty. cbn [ownProperty]. now rewrite String.eqb_refl. Qed.

Lemma hasKey_cons (k k0 : string) (v0 : JsValue) (o : JsObject) :
  hasKey k ((k0, v0) :: o) = (String.eqb k k0 || hasKey k o)%bool.
Proof. reflexivity. Qed.

Lemma ownProperty_hasKey (k : string) (o : JsObject) :
  ownProperty k o = if hasKey k o then Some (readProperty k o) else None.
Proof.
  induction o as [|[k' v'] rest IH]; [reflexivity|].
  rewrite hasKey_cons, (String.eqb_sym k k').
  destruct (String.eqb_spec k' k) as [->|Hne]; cbn [orb].
  - rewrite readProperty_cons_same. cbn [ownProperty].
    now rewrite String.eqb_refl.
  - rewrite readProperty_cons_other by assumption. cbn [ownProperty].
    destruct (String.eqb_spec k' k); [contradiction | exact IH].
Qed.

Lemma ownProperty_None (k : string) (o : JsObject) :
  ownProperty k o = None <-> ~ In k (objectKeys o).
Proof.
  rewrite ownProperty_hasKey, <- hasKey_false.
  destruct (hasKey k o); split; congruence.
Qed.

Lemma ownProperty_Some_In (k : string) (v : JsValue) (o : JsObject) :
  ownProperty k o = Some v -> In k (objectKeys o).
Proof.
  rewrite ownProperty_hasKey. destruct (hasKey k o) eqn:E; [|discriminate].
  intros _. now apply hasKey_In.
Qed.

Lemma ownProperty_In (k : string) (o : JsObject) :
  In k (objectKeys o) -> ownProperty k o = Some (readProperty k o).
Proof.
  intros H. apply hasKey_In in H. now rewrite ownProperty_hasKey, H.
Qed.

Lemma readProperty_not_key (k : string) (o : JsObject) :
  ~ In k (objectKeys o) -> readProperty k o = JUndefined.
Proof.
  intros H. apply ownProperty_None in H. unfold readProperty. now rewrite H.
Qed.

Lemma ownProperty_replace_same (k : string) (v : JsValue) (o : JsObject) :
  In k (objectKeys o) -> ownProperty k (replaceProperty k v o) = Some v.
Proof.
  induction o as [|[k' v'] rest IH]; [contradiction|].
  cbn [objectKeys map fst In replaceProperty]. intros Hin.
  destruct (String.eqb_spec k' k) as [->|Hne]; cbn [ownProperty].
  - now rewrite String.eqb_refl.
  - destruct (String.eqb_spec k' k); [contradiction|].
    apply IH. destruct Hin; [contradiction | assumption].
Qed.

Lemma ownProperty_replace_other (k k' : string) (v : JsValue) (o : JsObject) :
  k <> k' -> ownProperty k' (replaceProperty k v o) = ownProperty k' o.
Proof.
  intros Hne. induction o as [|[k0 v0] rest IH]; [reflexivity|].
  cbn [replaceProperty].
  destruct (String.eqb_spec k0 k) as [->|Hk0]; cbn [ownProperty].
  - destruct (String.eqb_spec k k'); [contradiction | reflexivity].
  - now rewrite IH.
Qed.

Lemma ownProperty_insert_same (n : N) (k : string) (v : JsValue)
  (o : JsObject) :
  ~ In k (objectKeys o) -> ownProperty k (insertIndexed n k v o) = Some v.
Proof.
  induction o as [|[k' v'] rest IH]; cbn [objectKeys map fst In insertIndexed];
    intros Hn.
  - cbn [ownProperty]. now rewrite String.eqb_refl.
  - destruct (arrayIndex k') as [n'|];
      [destruct (n' <=? n)%N|]; cbn [ownProperty].
    + destruct (String.eqb_spec k' k) as [->|]; [tauto|]. apply IH. tauto.
    + now rewrite String.eqb_refl.
    + now rewrite String.eqb_refl.
Qed.

Lemma ownProperty_insert_other (n : N) (k k' : string) (v : JsValue)
  (o : JsObject) :
  k <> k' -> ownProperty k' (insertIndexed n k v o) = ownProperty k' o.
Proof.
  intros Hne. induction o as [|[k0 v0] rest IH]; cbn [insertIndexed].
  - cbn [ownProperty]. destruct (String.eqb_spec k k'); [contradiction|].
    reflexivity.
  - destruct (arrayIndex k0) as [n'|];
      [destruct (n' <=? n)%N|]; cbn [ownProperty].
    + now rewrite IH.
    + destruct (String.eqb_spec k k'); [contradiction | reflexivity].
    + destruct (String.eqb_spec k k'); [contradiction | reflexivity].
Qed.

Lemma ownProperty_last (k k' : string) (v : JsValue) (o : JsObject) :
  ownProperty k' (o ++ [(k, v)]) =
  match ownProperty k' o with
  | Some w => Some w
  | None => if String.eqb k k' then Some v else None
  end.
Proof.
  induction o as [|[k0 v0] rest IH]; [reflexivity|].
  cbn [app ownProperty]. now destruct (String.eqb k0 k').
Qed.

Lemma ownProperty_write_same (k : string) (v : JsValue) (o : JsObject) :
  ownProperty k (writeProperty k v o) = Some v.
Proof.
  unfold writeProperty. destruct (ownProperty k o) as [w|] eqn:E.
  - apply ownProperty_replace_same. now apply ownProperty_Some_In in E.
  - destruct (arrayIndex k) as [n|].
    + apply ownProperty_insert_same. now apply ownProperty_None.
    + now rewrite ownProperty_last, E, String.eqb_refl.
Qed.

Lemma ownProperty_write_other (k k' : string) (v : JsValue) (o : JsObject) :
  k <> k' -> ownProperty k' (writeProperty k v o) = ownProperty k' o.
Proof.
  intros Hne. unfold writeProperty. destruct (ownProperty k o) as [w|].
  - now apply ownProperty_replace_other.
  - destruct (arrayIndex k) as [n|].
    + now apply ownProperty_insert_other.
    + rewrite ownProperty_last.
      destruct (String.eqb_spec k k'); [contradiction|].
      now destruct (ownProperty k' o).
Qed.

Lemma readProperty_write_same (k : string) (v : JsValue) (o : JsObject) :
  readProperty k (writeProperty k v o) = v.
Proof. unfold readProperty. now rewrite ownProperty_write_same. Qed.

Lemma readProperty_write_other (k k' : string) (v : JsValue) (o : JsObject) :
  k <> k' -> readProperty k' (writeProperty k v o) = readProperty k' o.
Proof.
  intros Hne. unfold readProperty. now rewrite ownProperty_write_other.
Qed.

Lemma readProperty_assignAll_other (k : string) (src dst : JsObject) :
  ~ In k (objectKeys src) ->
  readProperty k (assignAll dst src) = readProperty k dst.
Proof.
  unfold assignAll. revert dst.
  induction src as [|[k' v'] rest IH]; simpl; intros dst Hn; auto.
  rewrite IH by tauto.
  apply readProperty_write_other. tauto.
Qed.

Lemma objectKeys_write (k k' : string) (v : JsValue) (o : JsObject) :
  In k' (objectKeys (writeProperty k v o)) <-> k' = k \/ In k' (objectKeys o).
Proof.
  destruct (string_dec k' k) as [->|Hne].
  - split; [now left|]. intros _.
    apply (ownProperty_Some_In k v). apply ownProperty_write_same.
  - rewrite <- !hasKey_In.
    assert (H := ownProperty_write_other k k' v o (not_eq_sym Hne)).
    rewrite !ownProperty_hasKey in H.
    destruct (hasKey k' (writeProperty k v o)), (hasKey k' o);
      try discriminate; intuition congruence.
Qed.

Lemma hasKey_write (k k' : string) (v : JsValue) (o : JsObject) :
  hasKey k' (writeProperty k v o) = (String.eqb k' k || hasKey k' o)%bool.
Proof.
  apply Bool.eq_iff_eq_true.
  rewrite Bool.orb_true_iff, !hasKey_In, objectKeys_write, String.eqb_eq.
  reflexivity.
Qed.

(** *** The order of the keys *)

Lemma objectKeys_replace (k : string) (v : JsValue) (o : JsObject) :
  objectKeys (replaceProperty k v o) = objectKeys o.
Proof.
  unfold objectKeys. induction o as [|[k' v'] rest IH]; [reflexivity|].
  cbn [replaceProperty]. destruct (String.eqb k' k); cbn [map fst];
    [reflexivity | now rewrite IH].
Qed.

Lemma objectKeys_insert (n : N) (k : string) (v : JsValue) (o : JsObject) :
  objectKeys (insertIndexed n k v o) = insertKey n k (objectKeys o).
Proof.
  unfold objectKeys. induction o as [|[k' v'] rest IH]; [reflexivity|].
  cbn [insertIndexed insertKey map fst].
  destruct (arrayIndex k') as [n'|]; [destruct (n' <=? n)%N|];
    cbn [map fst]; [now rewrite IH | reflexivity | reflexivity].
Qed.

Lemma objectKeys_write_keys (k : string) (v : JsValue) (o : JsObject) :
  objectKeys (writeProperty k v o) = keysAfterWrite k (objectKeys o).
Proof.
  unfold writeProperty, keysAfterWrite. rewrite ownProperty_hasKey.
  unfold hasKey. destruct (existsb (String.eqb k) (objectKeys o)).
  - apply objectKeys_replace.
  - destruct (arrayIndex k) as [n|]; [apply objectKeys_insert|].
    unfold objectKeys. now rewrite map_app.
Qed.

Lemma objectKeys_write_order (k : string) (v : JsValue) (o : JsObject) :
  plainName k ->
  objectKeys (writeProperty k v o) =
  if hasKey k o then objectKeys o else objectKeys o ++ [k].
Proof.
  intros Hk. rewrite objectKeys_write_keys. unfold keysAfterWrite, hasKey.
  now rewrite Hk.
Qed.

Lemma NoDup_write (k : string) (v : JsValue) (o : JsObject) :
  NoDup (objectKeys o) -> NoDup (objectKeys (writeProperty k v o)).
Proof.
  intros Hnd. unfold writeProperty.
  destruct (ownProperty k o) as [w|] eqn:E.
  - now rewrite objectKeys_replace.
  - apply ownProperty_None in E. destruct (arrayIndex k) as [n|].
    + clear -Hnd E. unfold objectKeys in *.
      induction o as [|[k' v'] rest IH]; cbn [insertIndexed map fst] in *.
      * repeat constructor. intros [].
      * inversion Hnd as [|? ? Hnin Hnd']; subst.
        assert (Hnew : NoDup (k :: k' :: map fst rest))
          by (constructor; [exact E | exact Hnd]).
        destruct (arrayIndex k') as [n'|]; [destruct (n' <=? n)%N|];
          cbn [map fst]; [|exact Hnew | exact Hnew].
        constructor; [|apply IH; [exact Hnd' | cbn [In] in E; tauto]].
        intros Hin.
        assert (Hin' : In k' (objectKeys (insertIndexed n k v rest)))
          by exact Hin.
        assert (Hown := ownProperty_insert_other n k k' v rest).
        destruct (string_dec k k') as [->|Hne]; [cbn [In] in E; tauto|].
        specialize (Hown Hne).
        apply hasKey_In in Hin'. rewrite !ownProperty_hasKey, Hin' in Hown.
        destruct (hasKey k' rest) eqn:Hk'; [|discriminate].
        apply hasKey_In in Hk'. contradiction.
    + unfold objectKeys. rewrite map_app. cbn [map fst].
      apply NoDup_app; [exact Hnd | repeat constructor; intros [] | ].
      intros x Hx [<-|[]]. contradiction.
Qed.

Lemma NoDup_assignAll (dst src : JsObject) :
  NoDup (objectKeys dst) -> NoDup (objectKeys (assignAll dst src)).
Proof.
  unfold assignAll. revert dst.
  induction src as [|[k v] rest IH]; intros dst Hnd; [exact Hnd|].
  cbn [fold_left fst snd]. apply IH. now apply NoDup_write.
Qed.

(** Reading after [assignAll]: the source wins. *)
Lemma readProperty_assignAll (k : string) (src : JsObject) :
  NoDup (objectKeys src) ->
  forall dst : JsObject,
    readProperty k (assignAll dst src) =
    if hasKey k src then readProperty k src else readProperty k dst.
Proof.
  unfold assignAll.
  induction src as [|[k0 v0] rest IH]; intros Hnd dst; [reflexivity|].
  cbn [objectKeys map fst] in Hnd. inversion Hnd as [|? ? Hnin Hnd']; subst.
  cbn [fold_left fst snd]. rewrite (IH Hnd'), hasKey_cons.
  destruct (String.eqb_spec k k0) as [->|Hne]; cbn [orb].
  - apply hasKey_false in Hnin. rewrite Hnin.
    now rewrite readProperty_write_same, readProperty_cons_same.
  - rewrite readProperty_cons_other by congruence.
    rewrite readProperty_write_other by congruence. reflexivity.
Qed.

(** Keys after [assignAll] of keys that are no array indices: the keys of
    the target, then the new keys. *)
Lemma objectKeys_assignAll (src : JsObject) :
  NoDup (objectKeys src) ->
  Forall plainName (objectKeys src) ->
  forall dst : JsObject,
    objectKeys (assignAll dst src) = objectKeys dst ++ newKeys dst src.
Proof.
  unfold assignAll, newKeys.
  induction src as [|[k0 v0] rest IH]; intros Hnd Hplain dst.
  - cbn. now rewrite app_nil_r.
  - cbn [objectKeys map fst] in Hnd, Hplain.
    inversion Hnd as [|? ? Hnin Hnd']; subst.
    inversion Hplain as [|? ? Hk0 Hplain']; subst.
    cbn [fold_left fst snd objectKeys map filter].
    fold (objectKeys rest).
    rewrite (IH Hnd' Hplain'), objectKeys_write_order by assumption.
    assert (Hf : filter (fun k => negb (hasKey k (writeProperty k0 v0 dst)))
                   (objectKeys rest)
                 = filter (fun k => negb (hasKey k dst)) (objectKeys rest)).
    { apply filter_ext_in. intros k Hk. rewrite hasKey_write.
      destruct (String.eqb_spec k k0) as [->|]; [contradiction | reflexivity]. }
    rewrite Hf. destruct (hasKey k0 dst); cbn [negb].
    + reflexivity.
    + now rewrite <- app_assoc.
Qed.

Lemma hasKey_assignAll (k : string) (dst src : JsObject) :
  hasKey k (assignAll dst src) = (hasKey k dst || hasKey k src)%bool.
Proof.
  unfold assignAll. revert dst.
  induction src as [|[k0 v0] rest IH]; intros dst.
  - cbn. now rewrite Bool.orb_false_r.
  - cbn [fold_left fst snd]. rewrite IH, hasKey_write, hasKey_cons.
    destruct (String.eqb k k0), (hasKey k dst), (hasKey k rest); reflexivity.
Qed.

(** Two objects with the same keys in the same order and the same values
    are the same object. *)
Lemma object_ext (a b : JsObject) :
  objectKeys a = objectKeys b ->
  NoDup (objectKeys a) ->
  (forall k, readProperty k a = readProperty k b) ->
  a = b.
Proof.
  revert b. induction a as [|[k v] a IH]; intros [|[k' v'] b] Hk Hnd Hv;
    try discriminate; [reflexivity|].
  cbn [objectKeys map fst] in Hk, Hnd. inversion Hk as [[Hkk Hrest]].
  subst k'. inversion Hnd as [|? ? Hnin Hnd']; subst.
  assert (v = v').
  { specialize (Hv k). now rewrite !readProperty_cons_same in Hv. }
  subst v'. f_equal. apply IH; [exact Hrest | exact Hnd' |].
  intros k1. destruct (String.eqb_spec k k1) as [<-|Hne].
  - rewrite !readProperty_not_key; [reflexivity | | exact Hnin].
    unfold objectKeys. rewrite <- Hrest. exact Hnin.
  - specialize (Hv k1). now rewrite !readProperty_cons_other in Hv by assumption.
Qed.

Lemma enumerationOrder_plain (ks : list string) :
  (forall k, In k ks -> plainName k) -> enumerationOrder ks.
Proof.
  induction ks as [|k ks IH]; intros H; [exact I|].
  cbn [enumerationOrder]. rewrite (H k (or_introl eq_refl)).
  intros k' Hk'. apply H. now right.
Qed.

Lemma enumerationOrder_tail (k : string) (ks : list string) :
  enumerationOrder (k :: ks) -> enumerationOrder ks.
Proof.
  cbn [enumerationOrder]. destruct (arrayIndex k) as [n|].
  - tauto.
  - apply enumerationOrder_plain.
Qed.

Lemma enumerationOrder_front (l1 l2 : list string) :
  enumerationOrder (l1 ++ l2) -> enumerationOrder l1.
Proof.
  induction l1 as [|k l1 IH]; [intros _; exact I|].
  cbn [app enumerationOrder]. destruct (arrayIndex k) as [n|].
  - intros [Hle Hrest]. split; [|now apply IH].
    intros k' n' Hin. apply Hle. apply in_or_app. now left.
  - intros H k' Hin. apply H. apply in_or_app. now left.
Qed.

Lemma enumerationOrder_insertKey (n : N) (k : string) (ks : list string) :
  arrayIndex k = Some n ->
  enumerationOrder ks -> enumerationOrder (insertKey n k ks).
Proof.
  intros Hk. induction ks as [|k' rest IH]; intros Hord.
  - cbn [insertKey enumerationOrder]. rewrite Hk. split; [intros ? ? []|exact I].
  - cbn [insertKey]. pose proof Hord as Hord'. cbn [enumerationOrder] in Hord.
    destruct (arrayIndex k') as [n'|] eqn:Hk'.
    + destruct Hord as [Hle Hrest]. destruct (N.leb_spec n' n) as [Hcmp|Hcmp].
      * cbn [enumerationOrder]. rewrite Hk'. split; [|now apply IH].
        intros x nx Hin Hx.
        assert (Hx' : x = k \/ In x rest).
        { clear -Hin. induction rest as [|r rest IHr];
            cbn [insertKey In] in Hin.
          - destruct Hin as [<-|[]]. now left.
          - destruct (arrayIndex r) as [nr|];
              [destruct (nr <=? n)%N|]; cbn [In] in Hin |- *;
              intuition. }
        destruct Hx' as [->|Hx'].
        -- rewrite Hk in Hx. inversion Hx. now subst.
        -- now apply (Hle x).
      * cbn [enumerationOrder]. rewrite Hk, Hk'. split; [|split; assumption].
        intros x nx [<-|Hin] Hx.
        -- rewrite Hk' in Hx. inversion Hx. subst. lia.
        -- specialize (Hle x nx Hin Hx). lia.
    + cbn [enumerationOrder]. rewrite Hk, Hk'. split; [|exact Hord].
      intros x nx [<-|Hin] Hx.
      * rewrite Hk' in Hx. discriminate.
      * rewrite (Hord x Hin) in Hx. discriminate.
Qed.

Lemma enumerationOrder_last (k : string) (ks : list string) :
  plainName k -> enumerationOrder ks -> enumerationOrder (ks ++ [k]).
Proof.
  intros Hk. induction ks as [|k' rest IH]; intros Hord.
  - cbn [app enumerationOrder]. rewrite Hk. intros ? [].
  - pose proof (enumerationOrder_tail _ _ Hord) as Hrest.
    cbn [app enumerationOrder] in Hord |- *.
    destruct (arrayIndex k') as [n'|].
    + destruct Hord as [Hle _]. split; [|now apply IH].
      intros x nx Hin Hx. apply in_app_or in Hin.
      destruct Hin as [Hin|[<-|[]]]; [now apply (Hle x)|].
      rewrite Hk in Hx. discriminate.
    + intros x Hin. apply in_app_or in Hin.
      destruct Hin as [Hin|[<-|[]]]; [now apply Hord | exact Hk].
Qed.

Lemma enumerationOrder_write (k : string) (v : JsValue) (o : JsObject) :
  enumerationOrder (objectKeys o) ->
  enumerationOrder (objectKeys (writeProperty k v o)).
Proof.
  intros Hord. rewrite objectKeys_write_keys. unfold keysAfterWrite.
  destruct (existsb (String.eqb k) (objectKeys o)); [exact Hord|].
  destruct (arrayIndex k) as [n|] eqn:Hk.
  - now apply enumerationOrder_insertKey.
  - now apply enumerationOrder_last.
Qed.

Lemma enumerationOrder_assignAll (dst src : JsObject) :
  enumerationOrder (objectKeys dst) ->
  enumerationOrder (objectKeys (assignAll dst src)).
Proof.
  unfold assignAll. revert dst.
  induction src as [|[k v] rest IH]; intros dst Hord; [exact Hord|].
  cbn [fold_left fst snd]. apply IH. now apply enumerationOrder_write.
Qed.

(** A key that enumerates last is created last. *)
Lemma writeProperty_last (k : string) (v : JsValue) (o : JsObject) :
  ~ In k (objectKeys o) ->
  enumerationOrder (objectKeys o ++ [k]) ->
  writeProperty k v o = o ++ [(k, v)].
Proof.
  intros Hnin Hord. unfold writeProperty.
  apply ownProperty_None in Hnin. rewrite Hnin.
  destruct (arrayIndex k) as [n|] eqn:Hk; [|reflexivity].
  clear Hnin. induction o as [|[k' v'] rest IH]; [reflexivity|].
  cbn [objectKeys map fst app enumerationOrder] in Hord.
  fold (objectKeys rest) in Hord. cbn [insertIndexed app].
  destruct (arrayIndex k') as [n'|].
  - destruct Hord as [Hle Hrest].
    assert (Hcmp : (n' <= n)%N).
    { apply (Hle k); [|exact Hk]. apply in_or_app. right. now left. }
    apply N.leb_le in Hcmp. rewrite Hcmp. now rewrite IH.
  - assert (Hplain : plainName k).
    { apply Hord. apply in_or_app. right. now left. }
    unfold plainName in Hplain. congruence.
Qed.

Lemma assignAll_ordered (a : JsObject) :
  forall acc : JsObject,
    NoDup (objectKeys (acc ++ a)) ->
    enumerationOrder (objectKeys (acc ++ a)) ->
    assignAll acc a = acc ++ a.
Proof.
  unfold assignAll.
  induction a as [|[k v] rest IH]; intros acc Hnd Hord.
  - cbn. now rewrite app_nil_r.
  - cbn [fold_left fst snd].
    assert (Heq : acc ++ (k, v) :: rest = (acc ++ [(k, v)]) ++ rest)
      by now rewrite <- app_assoc.
    rewrite Heq in Hnd, Hord |- *.
    unfold objectKeys in Hnd, Hord. rewrite !map_app in Hnd, Hord.
    cbn [map fst] in Hnd, Hord.
    rewrite writeProperty_last.
    + apply IH; unfold objectKeys; now rewrite !map_app.
    + apply NoDup_app_remove_r in Hnd. apply NoDup_remove_2 in Hnd.
      rewrite app_nil_r in Hnd. exact Hnd.
    + now apply enumerationOrder_front in Hord.
Qed.

(** An object is what the spread of it alone builds. *)
Lemma assignAll_nil (a : JsObject) :
  NoDup (objectKeys a) -> enumerationOrder (objectKeys a) ->
  assignAll [] a = a.
Proof. intros Hnd Hord. now apply (assignAll_ordered a []). Qed.

Lemma filter_twice {A : Type} (f g : A -> bool) (l : list A) :
  filter f (filter g l) = filter (fun x => g x && f x) l.
Proof.
  induction l as [|x l IH]; [reflexivity|].
  cbn [filter]. destruct (g x); cbn [filter andb]; now rewrite IH.
Qed.

Lemma plainName_assignAll (dst src : JsObject) :
  Forall plainName (objectKeys dst) ->
  Forall plainName (objectKeys src) ->
  Forall plainName (objectKeys (assignAll dst src)).
Proof.
  intros Hd Hs. apply Forall_forall. intros k Hk.
  apply hasKey_In in Hk. rewrite hasKey_assignAll in Hk.
  apply Bool.orb_true_iff in Hk. rewrite !hasKey_In in Hk.
  rewrite Forall_forall in Hd, Hs. destruct Hk; auto.
Qed.

Lemma assignAll_assoc (a b c : JsObject) :
  NoDup (objectKeys a) -> NoDup (objectKeys b) -> NoDup (objectKeys c) ->
  Forall plainName (objectKeys b) -> Forall plainName (objectKeys c) ->
  assignAll (assignAll a b) c = assignAll a (assignAll b c).
Proof.
  intros Ha Hb Hc Pb Pc.
  assert (Hbc : NoDup (objectKeys (assignAll b c)))
    by now apply NoDup_assignAll.
  assert (Pbc : Forall plainName (objectKeys (assignAll b c)))
    by now apply plainName_assignAll.
  apply object_ext.
  - rewrite !objectKeys_assignAll by assumption.
    rewrite <- app_assoc. f_equal. unfold newKeys.
    rewrite (objectKeys_assignAll c Hc Pc b), filter_app. f_equal.
    unfold newKeys. rewrite filter_twice.
    apply filter_ext. intros k. rewrite hasKey_assignAll.
    now destruct (hasKey k a), (hasKey k b).
  - now apply NoDup_assignAll, NoDup_assignAll.
  - intros k. rewrite !readProperty_assignAll by assumption.
    rewrite hasKey_assignAll.
    now destruct (hasKey k b), (hasKey k c).
Qed.

Lemma object_entries (o : JsObject) :
  NoDup (objectKeys o) ->
  map (fun k => (k, readProperty k o)) (objectKeys o) = o.
Proof.
  induction o as [|[k v] o IH]; intros Hnd; [reflexivity|].
  cbn [objectKeys map fst] in *. inversion Hnd as [|? ? Hnin Hnd']; subst.
  rewrite readProperty_cons_same. f_equal.
  rewrite <- (IH Hnd') at 2. apply map_ext_in. intros k1 Hk1.
  rewrite readProperty_cons_other; [reflexivity|].
  intros ->. contradiction.
Qed.

Lemma writeProperty_noop (k : string) (o : JsObject) :
  In k (objectKeys o) -> writeProperty k (readProperty k o) o = o.
Proof.
  intros Hin. unfold writeProperty. rewrite (ownProperty_In k o Hin).
  induction o as [|[k0 v0] rest IH]; [contradiction|].
  cbn [replaceProperty]. destruct (String.eqb_spec k0 k) as [->|Hne].
  - now rewrite readProperty_cons_same.
  - rewrite readProperty_cons_other by assumption.
    rewrite IH; [reflexivity|]. destruct Hin as [E|Hin]; [contradiction|].
    exact Hin.
Qed.

Lemma readProperty_assignAll_congr {B : Type} (f : JsValue -> B) (k : string)
  (src : JsObject) :
  forall dst dst' : JsObject,
    f (readProperty k dst) = f (readProperty k dst') ->
    f (readProperty k (assignAll dst src))
      = f (readProperty k (assignAll dst' src)).
Proof.
  unfold assignAll.
  induction src as [|[k0 v0] rest IH]; intros dst dst' H; [exact H|].
  cbn [fold_left fst snd]. apply IH.
  destruct (String.eqb_spec k0 k) as [->|Hne].
  - now rewrite !readProperty_write_same.
  - now rewrite !readProperty_write_other by assumption.
Qed.

Lemma objectKeys_assignAll_congr (src : JsObject) :
  forall dst dst' : JsObject,
    objectKeys dst = objectKeys dst' ->
    objectKeys (assignAll dst src) = objectKeys (assignAll dst' src).
Proof.
  unfold assignAll.
  induction src as [|[k0 v0] rest IH]; intros dst dst' H; [exact H|].
  cbn [fold_left fst snd]. apply IH.
  rewrite !objectKeys_write_keys. now rewrite H.
Qed.

(** ** [mergeTags] *)
Section MergeFacts.
Context `{Js : Engine}.

Local Abbreviation mergeLoop tags2 ks start :=
  (fold_left (fun st k => mergeTag tags2 k st) ks start).

Lemma overwriteNotice_inj (k k' : string) :
  overwriteNotice k = overwriteNotice k' -> k = k'.
Proof.
  unfold overwriteNotice. intros H.
  apply (f_equal snd) in H. cbn [snd] in H.
  revert H. generalize "Overwritting tag: ".
  induction s as [|c s IH]; cbn [String.append]; intros H.
  - exact H.
  - apply IH. now inversion H.
Qed.

Lemma noticesNaming_app (k : string) (l1 l2 : list LogEntry) :
  noticesNaming k (l1 ++ l2) = noticesNaming k l1 + noticesNaming k l2.
Proof. apply count_occ_app. Qed.

Lemma noticesNaming_one (k k0 : string) :
  noticesNaming k [overwriteNotice k0] = if string_dec k0 k then 1 else 0.
Proof.
  unfold noticesNaming. destruct (string_dec k0 k) as [->|Hne].
  - now rewrite count_occ_cons_eq.
  - rewrite count_occ_cons_neq; [reflexivity|].
    intros H. apply overwriteNotice_inj in H. contradiction.
Qed.

Lemma noticesNaming_notices (k : string) (ks : list string) :
  NoDup ks ->
  noticesNaming k (map overwriteNotice ks) = if in_dec string_dec k ks then 1 else 0.
Proof.
  unfold noticesNaming.
  induction 1 as [|k0 ks Hnin Hnd IH]; [reflexivity|].
  change (map overwriteNotice (k0 :: ks))
    with (overwriteNotice k0 :: map overwriteNotice ks).
  destruct (string_dec k0 k) as [->|Hne].
  - rewrite count_occ_cons_eq by reflexivity. rewrite IH.
    destruct (in_dec string_dec k ks); [contradiction|].
    destruct (in_dec string_dec k (k :: ks)) as [|Hn]; [reflexivity|].
    exfalso. apply Hn. now left.
  - rewrite count_occ_cons_neq
      by (intros H; apply overwriteNotice_inj in H; contradiction).
    rewrite IH.
    destruct (in_dec string_dec k ks) as [Hin|Hin];
      destruct (in_dec string_dec k (k0 :: ks)) as [Hin'|Hin']; auto.
    + exfalso. apply Hin'. now right.
    + destruct Hin' as [H|H]; [contradiction | contradiction].
Qed.

Lemma mergeTag_eq (tags2 : JsObject) (k : string) (t : ProtoObject)
  (log : list LogEntry) :
  mergeTag tags2 k (t, log) =
  (assignMember k (readProperty k tags2) t,
   if memberDefined t k then log ++ [overwriteNotice k] else log).
Proof. reflexivity. Qed.

Lemma hasKey_own_eq (k : string) (a b : JsObject) :
  ownProperty k a = ownProperty k b -> hasKey k a = hasKey k b.
Proof.
  rewrite !ownProperty_hasKey.
  destruct (hasKey k a), (hasKey k b); intros H; congruence.
Qed.

Lemma ownProperty_assign_other (k k' : string) (v : JsValue)
  (t : ProtoObject) :
  k <> k' ->
  ownProperty k' (ownProperties (assignMember k v t))
    = ownProperty k' (ownProperties t).
Proof.
  intros Hne. unfold assignMember.
  destruct (ownProperty k (ownProperties t)).
  - now apply ownProperty_write_other.
  - destruct (reachesSetter (prototype t) k).
    + now destruct v.
    + now apply ownProperty_write_other.
Qed.

Lemma reachesSetter_other (p : Prototype) (k : string) :
  k <> "__proto__" -> reachesSetter p k = false.
Proof.
  intros Hne. unfold reachesSetter.
  destruct (String.eqb_spec k "__proto__"); [contradiction | reflexivity].
Qed.

(** An assignment that does not reach the setter writes the property. *)
Lemma assignMember_settled (k : string) (v : JsValue) (t : ProtoObject) :
  (k = "__proto__" -> In k (objectKeys (ownProperties t))) ->
  assignMember k v t =
  {| ownProperties := writeProperty k v (ownProperties t);
     prototype := prototype t |}.
Proof.
  intros H. unfold assignMember.
  destruct (ownProperty k (ownProperties t)) as [w|] eqn:Hown; [reflexivity|].
  destruct (string_dec k "__proto__") as [Hk|Hk].
  - apply ownProperty_None in Hown. now specialize (H Hk).
  - now rewrite reachesSetter_other.
Qed.

Lemma ownProperty_assign_same (k : string) (v : JsValue) (t : ProtoObject) :
  (k = "__proto__" -> In k (objectKeys (ownProperties t))) ->
  ownProperty k (ownProperties (assignMember k v t)) = Some v.
Proof.
  intros H. rewrite assignMember_settled by assumption.
  apply ownProperty_write_same.
Qed.

Lemma prototype_assign_other (k : string) (v : JsValue) (t : ProtoObject) :
  k <> "__proto__" -> prototype (assignMember k v t) = prototype t.
Proof.
  intros Hne. rewrite assignMember_settled; [reflexivity|].
  intros Hk. contradiction.
Qed.

(** The loop leaves alone the keys it does not go through. *)
Lemma mergeLoop_own_other (tags2 : JsObject) (ks : list string) :
  forall (t : ProtoObject) (log : list LogEntry) (k : string),
    ~ In k ks ->
    ownProperty k (ownProperties (fst (mergeLoop tags2 ks (t, log))))
      = ownProperty k (ownProperties t).
Proof.
  induction ks as [|k0 ks IH]; intros t log k Hk; [reflexivity|].
  cbn [fold_left]. rewrite mergeTag_eq, IH by (cbn [In] in Hk; tauto).
  apply ownProperty_assign_other. cbn [In] in Hk. tauto.
Qed.

Lemma mergeLoop_notices_other (tags2 : JsObject) (ks : list string) :
  forall (t : ProtoObject) (log : list LogEntry) (k : string),
    ~ In k ks ->
    noticesNaming k (snd (mergeLoop tags2 ks (t, log))) = noticesNaming k log.
Proof.
  induction ks as [|k0 ks IH]; intros t log k Hk; [reflexivity|].
  cbn [fold_left]. rewrite mergeTag_eq, IH by (cbn [In] in Hk; tauto).
  destruct (memberDefined t k0); [|reflexivity].
  rewrite noticesNaming_app, noticesNaming_one.
  destruct (string_dec k0 k) as [->|]; [cbn [In] in Hk; tauto | lia].
Qed.

(** A key the loop goes through that [tags1] owns: it gets its value in
    [tags2], and is logged once if the value it had was defined. *)
Lemma mergeLoop_own_key (tags2 : JsObject) (ks : list string) :
  NoDup ks ->
  forall (t : ProtoObject) (log : list LogEntry) (k : string) (v0 : JsValue),
    In k ks ->
    ownProperty k (ownProperties t) = Some v0 ->
    ownProperty k (ownProperties (fst (mergeLoop tags2 ks (t, log))))
      = Some (readProperty k tags2) /\
    noticesNaming k (snd (mergeLoop tags2 ks (t, log))) =
      noticesNaming k log + (if isDefined v0 then 1 else 0).
Proof.
  induction 1 as [|k0 ks Hnin Hnd IH]; intros t log k v0 Hin Hown;
    [contradiction|].
  cbn [fold_left]. rewrite mergeTag_eq.
  destruct (string_dec k0 k) as [->|Hne].
  - rewrite mergeLoop_own_other, mergeLoop_notices_other by assumption.
    split.
    + apply ownProperty_assign_same. intros _.
      now apply (ownProperty_Some_In k v0).
    + unfold memberDefined. rewrite Hown.
      destruct (isDefined v0); [|lia].
      rewrite noticesNaming_app, noticesNaming_one.
      destruct (string_dec k k); [reflexivity | contradiction].
  - destruct Hin as [Hin|Hin]; [contradiction|].
    destruct (IH (assignMember k0 (readProperty k0 tags2) t)
                (if memberDefined t k0
                 then log ++ [overwriteNotice k0] else log) k v0 Hin)
      as [Hv Hlog].
    { now rewrite ownProperty_assign_other. }
    split; [exact Hv|]. rewrite Hlog. f_equal.
    destruct (memberDefined t k0); [|reflexivity].
    rewrite noticesNaming_app, noticesNaming_one.
    destruct (string_dec k0 k); [contradiction | lia].
Qed.

(** A key the loop goes through, other than a [__proto__] that [tags1]
    does not own, is owned in the end, with its value in [tags2]. *)
Lemma mergeLoop_assigned (tags2 : JsObject) (ks : list string) :
  NoDup ks ->
  forall (t : ProtoObject) (log : list LogEntry) (k : string),
    In k ks ->
    (k = "__proto__" -> In k (objectKeys (ownProperties t))) ->
    ownProperty k (ownProperties (fst (mergeLoop tags2 ks (t, log))))
      = Some (readProperty k tags2).
Proof.
  induction 1 as [|k0 ks Hnin Hnd IH]; intros t log k Hin Hk;
    [contradiction|].
  cbn [fold_left]. rewrite mergeTag_eq.
  destruct (string_dec k0 k) as [->|Hne].
  - rewrite mergeLoop_own_other by assumption.
    now apply ownProperty_assign_same.
  - destruct Hin as [Hin|Hin]; [contradiction|].
    apply IH; [exact Hin|]. intros Hp. specialize (Hk Hp).
    apply hasKey_In. apply hasKey_In in Hk. rewrite <- Hk.
    apply hasKey_own_eq. now apply ownProperty_assign_other.
Qed.

(** While no assignment reaches the setter of [__proto__], the loop
    assigns the properties of [tags2] one after the other, the prototype
    stays, and each key is logged when it was a defined member before the
    loop. *)
Lemma mergeLoop_settled (tags2 : JsObject) (ks : list string) :
  NoDup ks ->
  forall (t : ProtoObject) (log : list LogEntry),
    (In "__proto__" ks -> In "__proto__" (objectKeys (ownProperties t))) ->
    mergeLoop tags2 ks (t, log) =
    ({| ownProperties :=
          assignAll (ownProperties t)
            (map (fun k => (k, readProperty k tags2)) ks);
        prototype := prototype t |},
     log ++ map overwriteNotice (filter (memberDefined t) ks)).
Proof.
  induction 1 as [|k0 ks Hnin Hnd IH]; intros t log Hp.
  - cbn. rewrite app_nil_r. now destruct t.
  - cbn [fold_left]. rewrite mergeTag_eq.
    rewrite assignMember_settled
      by (intros ->; apply Hp; now left).
    rewrite IH.
    + cbn [ownProperties prototype map filter]. f_equal.
      assert (Hf : filter
                     (memberDefined
                        {| ownProperties :=
                             writeProperty k0 (readProperty k0 tags2)
                               (ownProperties t);
                           prototype := prototype t |}) ks
                   = filter (memberDefined t) ks).
      { apply filter_ext_in. intros k Hk. unfold memberDefined.
        cbn [ownProperties prototype].
        rewrite ownProperty_write_other; [reflexivity|].
        intros ->. contradiction. }
      rewrite Hf. destruct (memberDefined t k0); cbn [map].
      * now rewrite <- app_assoc.
      * reflexivity.
    + cbn [ownProperties]. intros Hin. apply objectKeys_write. right.
      apply Hp. now right.
Qed.

(** A key [__proto__] that [tags1] does not own goes to the setter: the
    loop creates no such property. *)
Lemma mergeLoop_setter (tags2 : JsObject) (ks : list string) :
  NoDup ks ->
  forall (t : ProtoObject) (log : list LogEntry),
    prototype t = ObjectPrototype ->
    ownProperty "__proto__" (ownProperties t) = None ->
    ownProperty "__proto__"
      (ownProperties (fst (mergeLoop tags2 ks (t, log)))) = None.
Proof.
  induction 1 as [|k0 ks Hnin Hnd IH]; intros t log Hproto Hown;
    [exact Hown|].
  cbn [fold_left]. rewrite mergeTag_eq.
  destruct (string_dec k0 "__proto__") as [->|Hne].
  - rewrite mergeLoop_own_other by assumption.
    unfold assignMember. rewrite Hown, Hproto. cbn [reachesSetter].
    now destruct (readProperty "__proto__" tags2).
  - apply IH.
    + now rewrite prototype_assign_other.
    + now rewrite ownProperty_assign_other.
Qed.

(** The loop on two objects that have the same keys, the same prototype,
    defined values under the same keys and the same values under the keys
    of [P]: so have the objects it leaves, and it writes the same log. *)
Lemma mergeLoop_congr (tags2 : JsObject) (P : string -> Prop)
  (ks : list string) :
  forall (t t' : ProtoObject) (log : list LogEntry),
    objectKeys (ownProperties t) = objectKeys (ownProperties t') ->
    prototype t = prototype t' ->
    (forall k, isDefined (readProperty k (ownProperties t))
               = isDefined (readProperty k (ownProperties t'))) ->
    (forall k, P k -> readProperty k (ownProperties t)
                      = readProperty k (ownProperties t')) ->
    objectKeys (ownProperties (fst (mergeLoop tags2 ks (t, log))))
      = objectKeys (ownProperties (fst (mergeLoop tags2 ks (t', log)))) /\
    (forall k, P k ->
       readProperty k (ownProperties (fst (mergeLoop tags2 ks (t, log))))
       = readProperty k (ownProperties (fst (mergeLoop tags2 ks (t', log)))))
    /\
    snd (mergeLoop tags2 ks (t, log)) = snd (mergeLoop tags2 ks (t', log)).
Proof.
  induction ks as [|k0 ks IH]; intros t t' log Hkeys Hproto Hdef HP.
  - cbn [fold_left fst snd]. auto.
  - cbn [fold_left]. rewrite !mergeTag_eq.
    assert (Hhas : hasKey k0 (ownProperties t) = hasKey k0 (ownProperties t'))
      by (unfold hasKey; now rewrite Hkeys).
    assert (Hmd : memberDefined t k0 = memberDefined t' k0).
    { unfold memberDefined. rewrite !ownProperty_hasKey, <- Hhas, <- Hproto.
      destruct (hasKey k0 (ownProperties t)); [apply Hdef | reflexivity]. }
    rewrite <- Hmd.
    assert (Hwrite :
      forall v : JsValue,
        let w := writeProperty k0 v (ownProperties t) in
        let w' := writeProperty k0 v (ownProperties t') in
        objectKeys w = objectKeys w' /\
        (forall k, isDefined (readProperty k w) = isDefined (readProperty k w'))
        /\ (forall k, P k -> readProperty k w = readProperty k w')).
    { intros v. cbn zeta. split; [|split].
      - rewrite !objectKeys_write_keys. now rewrite Hkeys.
      - intros k. destruct (string_dec k0 k) as [->|Hne].
        + now rewrite !readProperty_write_same.
        + rewrite !readProperty_write_other by assumption. apply Hdef.
      - intros k Hk. destruct (string_dec k0 k) as [->|Hne].
        + now rewrite !readProperty_write_same.
        + rewrite !readProperty_write_other by assumption. now apply HP. }
    destruct (Hwrite (readProperty k0 tags2)) as (Hw1 & Hw2 & Hw3).
    apply IH; unfold assignMember;
      rewrite !ownProperty_hasKey, <- Hhas, <- Hproto;
      destruct (hasKey k0 (ownProperties t)); cbn [ownProperties prototype];
      try assumption;
      destruct (reachesSetter (prototype t) k0);
      cbn [ownProperties prototype]; try assumption;
      destruct (readProperty k0 tags2); cbn [ownProperties prototype];
      try assumption; reflexivity.
Qed.

Lemma enumerationOrder_assign (k : string) (v : JsValue) (t : ProtoObject) :
  enumerationOrder (objectKeys (ownProperties t)) ->
  enumerationOrder (objectKeys (ownProperties (assignMember k v t))).
Proof.
  intros Hord. unfold assignMember.
  destruct (ownProperty k (ownProperties t)).
  - now apply enumerationOrder_write.
  - destruct (reachesSetter (prototype t) k).
    + now destruct v.
    + now apply enumerationOrder_write.
Qed.

Lemma NoDup_assign (k : string) (v : JsValue) (t : ProtoObject) :
  NoDup (objectKeys (ownProperties t)) ->
  NoDup (objectKeys (ownProperties (assignMember k v t))).
Proof.
  intros Hnd. unfold assignMember.
  destruct (ownProperty k (ownProperties t)).
  - now apply NoDup_write.
  - destruct (reachesSetter (prototype t) k).
    + now destruct v.
    + now apply NoDup_write.
Qed.

(** The loop keeps the keys distinct and in the order of enumeration. *)
Lemma mergeLoop_object (tags2 : JsObject) (ks : list string) :
  forall (t : ProtoObject) (log : list LogEntry),
    NoDup (objectKeys (ownProperties t)) ->
    enumerationOrder (objectKeys (ownProperties t)) ->
    NoDup (objectKeys (ownProperties (fst (mergeLoop tags2 ks (t, log))))) /\
    enumerationOrder
      (objectKeys (ownProperties (fst (mergeLoop tags2 ks (t, log))))).
Proof.
  induction ks as [|k0 ks IH]; intros t log Hnd Hord; [now split|].
  cbn [fold_left]. rewrite mergeTag_eq.
  apply IH; [now apply NoDup_assign | now apply enumerationOrder_assign].
Qed.

(** Assigning to an object the values it already has leaves it as it
    is. *)
Lemma assignAll_settled (src o : JsObject) (ks : list string) :
  (forall k, In k ks ->
     In k (objectKeys o) /\ readProperty k o = readProperty k src) ->
  assignAll o (map (fun k => (k, readProperty k src)) ks) = o.
Proof.
  unfold assignAll. induction ks as [|k ks IH]; intros H; [reflexivity|].
  cbn [map fold_left fst snd].
  destruct (H k (or_introl eq_refl)) as [Hin Hv].
  rewrite <- Hv, writeProperty_noop by assumption.
  apply IH. intros k' Hk'. apply H. now right.
Qed.

(** *** The merge from the object of [toDicom] *)

Lemma mergeTags_eq (tags1 tags2 : JsObject) (log : list LogEntry) :
  mergeTags tags1 tags2 log =
  (ownProperties
     (fst (mergeLoop tags2 (objectKeys tags2) (plainTags tags1, log))),
   snd (mergeLoop tags2 (objectKeys tags2) (plainTags tags1, log))).
Proof. reflexivity. Qed.

Lemma mergeTags_other (tags1 tags2 : JsObject) (log : list LogEntry)
  (k : string) :
  ~ In k (objectKeys tags2) ->
  readProperty k (fst (mergeTags tags1 tags2 log)) = readProperty k tags1 /\
  hasKey k (fst (mergeTags tags1 tags2 log)) = hasKey k tags1 /\
  noticesNaming k (snd (mergeTags tags1 tags2 log)) = noticesNaming k log.
Proof.
  intros Hk. rewrite mergeTags_eq. cbn [fst snd].
  pose proof (mergeLoop_own_other tags2 (objectKeys tags2)
                (plainTags tags1) log k Hk) as Hown.
  split; [|split].
  - unfold readProperty. now rewrite Hown.
  - now apply hasKey_own_eq.
  - now apply mergeLoop_notices_other.
Qed.

(** The merge when [tags2] has no key [__proto__] that [tags1] has not:
    the object is the one the assignments of the properties leave, and
    the log has the keys that were defined members of [tags1]. *)
Lemma mergeTags_assignAll (tags1 tags2 : JsObject) (log : list LogEntry) :
  NoDup (objectKeys tags2) ->
  (In "__proto__" (objectKeys tags2) -> In "__proto__" (objectKeys tags1)) ->
  mergeTags tags1 tags2 log =
  (assignAll tags1 tags2,
   log ++ map overwriteNotice
            (filter (memberDefined (plainTags tags1)) (objectKeys tags2))).
Proof.
  intros Hnd Hp. rewrite mergeTags_eq.
  rewrite (mergeLoop_settled tags2 (objectKeys tags2) Hnd (plainTags tags1)
             log Hp).
  cbn [fst snd ownProperties plainTags]. now rewrite object_entries.
Qed.

End MergeFacts.

(** ** [toDicom]: the tags *)
Section ExportFacts.
Context `{X : Collaborators} `{Js : Engine}.

Lemma push_all {A B : Type} (f : A -> B) (l : list A) (acc : list B) :
  fold_left (fun seq a => seq ++ [f a]) l acc = acc ++ map f l.
Proof.
  revert acc. induction l as [|a l IH]; intros acc; simpl.
  - now rewrite app_nil_r.
  - rewrite IH. now rewrite <- app_assoc.
Qed.

Lemma scoordSequence_map (g : AnnotationGroup) :
  scoordSequence g = map annotationToScoord (getList g).
Proof. unfold scoordSequence. now rewrite push_all. Qed.

Lemma spread_baseTags (g : AnnotationGroup) (now : Date) (tags : JsObject) :
  spread (baseTags g now) tags = assignAll (baseTags g now) tags.
Proof. reflexivity. Qed.

Lemma generatedTags_eq (g : AnnotationGroup) (now : Date) :
  generatedTags g now = assignAll (baseTags g now) (contentTreeTags g).
Proof.
  unfold generatedTags, contentTreeTags. rewrite scoordSequence_map.
  destruct (getList g) as [|a l]; [reflexivity|].
  cbn [map length Nat.eqb negb]. now rewrite spread_baseTags.
Qed.

Lemma NoDup_baseTagNames : NoDup baseTagNames.
Proof.
  unfold baseTagNames.
  repeat (constructor; [cbn [In]; intuition discriminate|]). constructor.
Qed.

Lemma plainName_baseTagNames : Forall plainName baseTagNames.
Proof. unfold baseTagNames. repeat constructor. Qed.

Lemma objectKeys_baseTags (g : AnnotationGroup) (now : Date) :
  objectKeys (baseTags g now) = baseTagNames.
Proof. reflexivity. Qed.

Lemma NoDup_generatedTags (g : AnnotationGroup) (now : Date) :
  NoDup (objectKeys (generatedTags g now)).
Proof.
  rewrite generatedTags_eq. apply NoDup_assignAll.
  rewrite objectKeys_baseTags. apply NoDup_baseTagNames.
Qed.

Lemma enumerationOrder_generatedTags (g : AnnotationGroup) (now : Date) :
  enumerationOrder (objectKeys (generatedTags g now)).
Proof.
  rewrite generatedTags_eq. apply enumerationOrder_assignAll.
  rewrite objectKeys_baseTags. apply enumerationOrder_plain.
  apply Forall_forall. apply plainName_baseTagNames.
Qed.

(** The tags of a group that has an annotation: the spread of lines
    233-236. *)
Lemma generatedTags_spread (g : AnnotationGroup) (now : Date) :
  getList g <> [] ->
  generatedTags g now =
  spread (baseTags g now)
    (getDicomSRContentItem (rootContainer (scoordSequence g))) /\
  contentTreeTags g = getDicomSRContentItem (rootContainer (scoordSequence g)).
Proof.
  intros Hl. unfold generatedTags, contentTreeTags.
  rewrite scoordSequence_map.
  destruct (getList g) as [|a l]; [contradiction|]. split; reflexivity.
Qed.

Lemma baseTags_constant (g : AnnotationGroup) (now : Date) (k c : string) :
  In (k, c) fixedConstants -> readProperty k (baseTags g now) = JString c.
Proof.
  unfold fixedConstants. simpl.
  intros [E|[E|[E|[E|[E|[E|[]]]]]]]; inversion E; subst; reflexivity.
Qed.

Lemma toDicomTags_lookup (g : AnnotationGroup) (extraTags : option JsObject)
  (now : Date) (k : string) :
  ~ In k (extraKeys extraTags) ->
  readProperty k (fst (toDicomTags g extraTags now)) =
  readProperty k (generatedTags g now).
Proof.
  unfold toDicomTags. destruct extraTags as [extra|]; cbn [extraKeys];
    intros Hk; [|reflexivity].
  now apply mergeTags_other.
Qed.

(** C6. A group with no annotation exports the thirteen tags written
    before the content tree and nothing of the content tree: the five
    identifiers of the storage class, the three metadata values copied from
    the group, the series placeholder, the two flags and the content date
    and time. A group with an annotation exports, over those, the tags the
    writer makes of one root container that carries the measurement-group
    code and holds the [scoord] nodes of all annotations. The elements are
    built from these tags, after the extra tags, if any, are merged. *)
Theorem toDicom_content_tree (g : AnnotationGroup) (now : Date) :
  baseTags g now =
    [("TransferSyntaxUID", JString "1.2.840.10008.1.2.1");
     ("SOPClassUID", JString "1.2.840.10008.5.1.4.1.1.88.11");
     ("SOPInstanceUID", JString "1.2.840.10008.5.1.4.1.1.88.11.0");
     ("MediaStorageSOPClassUID", JString "1.2.840.10008.5.1.4.1.1.88.11");
     ("MediaStorageSOPInstanceUID", JString "1.2.840.10008.5.1.4.1.1.88.11.0");
     ("Modality", getMeta g "Modality");
     ("StudyInstanceUID", getMeta g "StudyInstanceUID");
     ("ReferencedSeriesSequence", getMeta g "ReferencedSeriesSequence");
     ("SeriesInstanceUID", JString "1.2.3.4.5.6");
     ("CompletionFlag", JString "PARTIAL");
     ("VerificationFlag", JString "UNVERIFIED");
     ("ContentDate", JString (getDicomDate (dateToDateObj now)));
     ("ContentTime", JString (getDicomTime (dateToTimeObj now)))] /\
  generatedTags g now =
    match getList g with
    | [] => baseTags g now
    | _ :: _ =>
        spread (baseTags g now)
          (getDicomSRContentItem
             {| valueType := container;
                conceptNameCode := Some getMeasurementGroupCode;
                relationshipType := None;
                contentSequence := Some (map annotationToScoord (getList g));
                value := JUndefined |})
    end /\
  toDicom g None now = (getElementsFromJSONTags (generatedTags g now), []) /\
  (forall extra : JsObject,
     toDicom g (Some extra) now =
       (getElementsFromJSONTags (fst (mergeTags (generatedTags g now) extra [])),
        snd (mergeTags (generatedTags g now) extra []))).
Proof.
  split; [reflexivity|]. split; [|split].
  - unfold generatedTags. rewrite scoordSequence_map.
    destruct (getList g); reflexivity.
  - reflexivity.
  - intros extra. unfold toDicom, toDicomTags.
    now destruct (mergeTags (generatedTags g now) extra []).
Qed.

(** C7. Whatever the group and the instant, [toDicom] writes the transfer
    syntax of Explicit VR Little Endian, the SOP class of Basic Text SR
    Storage, the SOP instance placeholder, the completion flag [PARTIAL],
    the verification flag [UNVERIFIED] and the series placeholder, each a
    fixed literal; each is in the final tags unless the content-tree tags
    or the extra tags name its key, and so for every group without
    annotations exported without extra tags. *)
Theorem toDicom_fixed_constants (g : AnnotationGroup) (now : Date)
  (k c : string) :
  In (k, c) fixedConstants ->
  readProperty k (baseTags g now) = JString c /\
  (forall extraTags : option JsObject,
     ~ In k (objectKeys (contentTreeTags g)) ->
     ~ In k (extraKeys extraTags) ->
     readProperty k (fst (toDicomTags g extraTags now)) = JString c) /\
  (getList g = [] ->
   readProperty k (fst (toDicomTags g None now)) = JString c).
Proof.
  intros Hc.
  assert (Hfinal : forall extraTags : option JsObject,
             ~ In k (objectKeys (contentTreeTags g)) ->
             ~ In k (extraKeys extraTags) ->
             readProperty k (fst (toDicomTags g extraTags now)) = JString c).
  { intros extraTags Htree Hextra.
    rewrite toDicomTags_lookup by assumption.
    rewrite generatedTags_eq.
    rewrite readProperty_assignAll_other by assumption.
    now apply baseTags_constant. }
  split; [now apply baseTags_constant|]. split; [exact Hfinal|].
  intros Hempty. apply Hfinal.
  - unfold contentTreeTags. rewrite Hempty. intros [].
  - intros [].
Qed.

(** C8. The node of an annotation is a [scoord] node that relates by
    [contains], carries the image-region code and the scoord of the shape,
    and has exactly three children, in this order: the [image] node under
    [selectedFrom] with the source-image code and the reference to the
    SOP instance [referenceSopUID], the [uidref] node under
    [hasProperties] with the tracking-identifier code and [id], and the
    [text] node under [hasProperties] with the short-label code and
    [textExpr]; the export has one such node per annotation, in the order
    of the group's list. *)
Theorem annotation_scoord_node (g : AnnotationGroup) :
  scoordSequence g = map annotationToScoord (getList g) /\
  forall a : Annotation,
    annotationToScoord a =
      {| valueType := scoord;
         conceptNameCode := Some getImageRegionCode;
         relationshipType := Some contains;
         contentSequence :=
           Some
             [{| valueType := image;
                 conceptNameCode := Some getSourceImageCode;
                 relationshipType := Some selectedFrom;
                 contentSequence := None;
                 value :=
                   JObject
                     [("referencedSOPSequence",
                       JObject
                         [("referencedSOPClassUID", JString "");
                          ("referencedSOPInstanceUID",
                           Annotation.referenceSopUID a)])] |};
              {| valueType := uidref;
                 conceptNameCode := Some getTrackingIdentifierCode;
                 relationshipType := Some hasProperties;
                 contentSequence := None;
                 value := Annotation.id a |};
              {| valueType := text;
                 conceptNameCode := Some getShortLabelCode;
                 relationshipType := Some hasProperties;
                 contentSequence := None;
                 value := Annotation.textExpr a |}];
         value := getScoordFromShape (Annotation.mathShape a) |}.
Proof.
  split; [apply scoordSequence_map|].
  intros a. reflexivity.
Qed.

Lemma readProperty_defined_own (k : string) (o : JsObject) :
  isDefined (readProperty k o) = true ->
  ownProperty k o = Some (readProperty k o).
Proof.
  unfold readProperty. destruct (ownProperty k o); [reflexivity|].
  discriminate.
Qed.

Lemma noticesNaming_filter (f : string -> bool) (k : string)
  (ks : list string) :
  NoDup ks ->
  noticesNaming k (map overwriteNotice (filter f ks)) =
  if in_dec string_dec k ks then (if f k then 1 else 0) else 0.
Proof.
  intros Hnd. rewrite noticesNaming_notices by now apply NoDup_filter.
  destruct (in_dec string_dec k ks) as [Hin|Hin];
    destruct (in_dec string_dec k (filter f ks)) as [Hf|Hf]; auto.
  - apply filter_In in Hf. destruct Hf as [_ ->]. reflexivity.
  - destruct (f k) eqn:Hfk; auto.
    exfalso. apply Hf. apply filter_In. auto.
  - apply filter_In in Hf. tauto.
Qed.

Lemma generatedTags_metadata (g : AnnotationGroup) (now : Date) (k : string) :
  In k ["Modality"; "StudyInstanceUID"; "ReferencedSeriesSequence"] ->
  ~ In k (objectKeys (contentTreeTags g)) ->
  In k (objectKeys (generatedTags g now)) /\
  readProperty k (generatedTags g now) = getMeta g k.
Proof.
  intros Hk Htree. rewrite generatedTags_eq. split.
  - apply hasKey_In. rewrite hasKey_assignAll.
    apply Bool.orb_true_iff. left.
    cbn [In] in Hk. decompose [or] Hk; subst; try reflexivity. contradiction.
  - rewrite readProperty_assignAll_other by assumption.
    cbn [In] in Hk. decompose [or] Hk; subst; try reflexivity. contradiction.
Qed.

(** C9, amended. With an object as [extraTags] (distinct keys, in the
    order of enumeration), every key of it is a key
    of the final tags, with its value in [extraTags], but for a key
    [__proto__] that is no generated tag, which the setter of the
    prototype takes and which makes no tag; the keys [extraTags] has not
    keep their generated value and are not logged. The overwrite of a
    generated tag leaves one notice naming it when the generated value is
    defined, and none when it is [undefined]; the whole log, when no key
    goes to the setter, is the notices of the keys that were defined
    members of the generated tags, in the order of the keys. No step of
    the merge of an object throws, whereas [null] as [extraTags] does.
    With the group's [Modality] metadata ['MR'], which the content-tree
    tags do not name, and [{Modality: 'CT'}] as extra tags, [Modality]
    ends as ['CT'] and the log is the one notice naming [Modality]. *)
Theorem toDicom_extraTags_override (g : AnnotationGroup) (extra : JsObject)
  (now : Date) :
  NoDup (objectKeys extra) ->
  enumerationOrder (objectKeys extra) ->
  (forall k, In k (objectKeys extra) ->
     (k = "__proto__" -> In k (objectKeys (generatedTags g now))) ->
     In k (objectKeys (fst (toDicomTags g (Some extra) now))) /\
     readProperty k (fst (toDicomTags g (Some extra) now))
       = readProperty k extra) /\
  (In "__proto__" (objectKeys extra) ->
   ~ In "__proto__" (objectKeys (generatedTags g now)) ->
   ~ In "__proto__" (objectKeys (fst (toDicomTags g (Some extra) now)))) /\
  (forall k, ~ In k (objectKeys extra) ->
     readProperty k (fst (toDicomTags g (Some extra) now))
       = readProperty k (generatedTags g now) /\
     noticesNaming k (snd (toDicomTags g (Some extra) now)) = 0) /\
  (forall k, In k (objectKeys extra) ->
     In k (objectKeys (generatedTags g now)) ->
     noticesNaming k (snd (toDicomTags g (Some extra) now))
       = if isDefined (readProperty k (generatedTags g now)) then 1 else 0) /\
  ((In "__proto__" (objectKeys extra) ->
    In "__proto__" (objectKeys (generatedTags g now))) ->
   snd (toDicomTags g (Some extra) now) =
     map overwriteNotice
       (filter (memberDefined (plainTags (generatedTags g now)))
          (objectKeys extra))) /\
  toDicomCall g (extraObject extra) now = Ok (toDicom g (Some extra) now) /\
  toDicomCall g extraNull now = Throw TypeError /\
  (getMeta g "Modality" = JString "MR" ->
   ~ In "Modality" (objectKeys (contentTreeTags g)) ->
   extra = [("Modality", JString "CT")] ->
   readProperty "Modality" (fst (toDicomTags g (Some extra) now))
     = JString "CT" /\
   snd (toDicomTags g (Some extra) now) = [overwriteNotice "Modality"]).
Proof.
  intros Hnd _. unfold toDicomTags.
  assert (Hassigned :
    forall k, In k (objectKeys extra) ->
      (k = "__proto__" -> In k (objectKeys (generatedTags g now))) ->
      In k (objectKeys (fst (mergeTags (generatedTags g now) extra []))) /\
      readProperty k (fst (mergeTags (generatedTags g now) extra []))
        = readProperty k extra).
  { intros k Hin Hk. rewrite mergeTags_eq. cbn [fst].
    pose proof (mergeLoop_assigned extra (objectKeys extra) Hnd
                  (plainTags (generatedTags g now)) [] k Hin Hk) as Hown.
    split.
    - exact (ownProperty_Some_In _ _ _ Hown).
    - unfold readProperty at 1. now rewrite Hown. }
  assert (Hlog :
    (In "__proto__" (objectKeys extra) ->
     In "__proto__" (objectKeys (generatedTags g now))) ->
    snd (mergeTags (generatedTags g now) extra []) =
      map overwriteNotice
        (filter (memberDefined (plainTags (generatedTags g now)))
           (objectKeys extra))).
  { intros Hp. now rewrite mergeTags_assignAll. }
  split; [exact Hassigned|]. split; [|split; [|split; [|split; [exact Hlog|]]]].
  - intros Hin Hgen. rewrite mergeTags_eq. cbn [fst].
    apply ownProperty_None. apply mergeLoop_setter;
      [exact Hnd | reflexivity | now apply ownProperty_None].
  - intros k Hk.
    destruct (mergeTags_other (generatedTags g now) extra [] k Hk)
      as (Hv & _ & Hn).
    split; [exact Hv | exact Hn].
  - intros k Hin Hgen. rewrite mergeTags_eq. cbn [snd].
    destruct (mergeLoop_own_key extra (objectKeys extra) Hnd
                (plainTags (generatedTags g now)) [] k
                (readProperty k (generatedTags g now)) Hin
                (ownProperty_In _ _ Hgen)) as [_ Hn].
    exact Hn.
  - split; [reflexivity|]. split; [reflexivity|].
    intros Hmr Htree ->.
    destruct (generatedTags_metadata g now "Modality") as [Hgen Hval];
      [cbn [In]; auto | exact Htree |].
    split.
    + apply Hassigned; [now left | intros H; discriminate H].
    + rewrite Hlog by (intros [H|[]]; discriminate H).
      cbn [objectKeys map fst filter]. unfold memberDefined.
      cbn [plainTags ownProperties].
      rewrite (ownProperty_In _ _ Hgen), Hval, Hmr. reflexivity.
Qed.

(** C10. A key of [extraTags] that is a generated tag whose value is
    [undefined] gets its value in [extraTags] and leaves no notice in the
    log: the log goes by the value, not by the presence of the key.
    [Modality] is such a tag when the group has no [Modality] metadata and
    the content-tree tags do not name it. Nor is a key logged that is no
    generated tag and no member of [Object.prototype], when no key goes to
    the setter of the prototype. *)
Theorem toDicom_extraTags_silent (g : AnnotationGroup) (extra : JsObject)
  (now : Date) (k : string) :
  NoDup (objectKeys extra) ->
  In k (objectKeys extra) ->
  In k (objectKeys (generatedTags g now)) ->
  readProperty k (generatedTags g now) = JUndefined ->
  readProperty k (fst (toDicomTags g (Some extra) now))
    = readProperty k extra /\
  noticesNaming k (snd (toDicomTags g (Some extra) now)) = 0 /\
  (getMeta g "Modality" = JUndefined ->
   ~ In "Modality" (objectKeys (contentTreeTags g)) ->
   In "Modality" (objectKeys (generatedTags g now)) /\
   readProperty "Modality" (generatedTags g now) = JUndefined) /\
  (forall k', In k' (objectKeys extra) ->
     ~ In k' (objectKeys (generatedTags g now)) ->
     named k' objectPrototypeNames = false ->
     ~ In "__proto__" (objectKeys extra) ->
     readProperty k' (fst (toDicomTags g (Some extra) now))
       = readProperty k' extra /\
     noticesNaming k' (snd (toDicomTags g (Some extra) now)) = 0).
Proof.
  intros Hnd Hk Hgen Hundef. unfold toDicomTags.
  destruct (mergeLoop_own_key extra (objectKeys extra) Hnd
              (plainTags (generatedTags g now)) [] k
              (readProperty k (generatedTags g now)) Hk
              (ownProperty_In _ _ Hgen)) as [Hv Hn].
  split; [|split; [|split]].
  - rewrite mergeTags_eq. cbn [fst]. unfold readProperty at 1.
    now rewrite Hv.
  - rewrite mergeTags_eq. cbn [snd]. rewrite Hn, Hundef. reflexivity.
  - intros Hmeta Htree.
    destruct (generatedTags_metadata g now "Modality") as [Hin Hval];
      [cbn [In]; auto | exact Htree |].
    split; [exact Hin | now rewrite Hval].
  - intros k' Hk' Hnew Hnamed Hproto.
    rewrite mergeTags_assignAll by (assumption || (intros H; contradiction)).
    cbn [fst snd app]. split.
    + rewrite readProperty_assignAll by assumption.
      apply hasKey_In in Hk'. now rewrite Hk'.
    + rewrite noticesNaming_filter by assumption.
      destruct (in_dec string_dec k' (objectKeys extra)); [|reflexivity].
      unfold memberDefined. cbn [plainTags ownProperties prototype].
      apply ownProperty_None in Hnew. rewrite Hnew.
      cbn [inheritedDefined]. now rewrite Hnamed.
Qed.

End ExportFacts.

(** ** [checkElements] and [create] *)
Section ImportFacts.
Context `{X : Collaborators} `{Js : Engine}.

Lemma throw_is_TypeError {A : Type} (r : result A) (e : JsError) :
  r = Throw e -> r = Throw TypeError.
Proof. destruct e. auto. Qed.

Lemma forEach_app {A S : Type} (body : A -> S -> result S)
  (l1 l2 : list A) (s : S) :
  forEach body (l1 ++ l2) s = (s' <- forEach body l1 s ;; forEach body l2 s').
Proof.
  revert s. induction l1 as [|x l1 IH]; intros s; simpl; auto.
  destruct (body x s); simpl; auto.
Qed.

Lemma lastOfKind_snoc (vt : ValueType) (rel : RelationshipType)
  (children : list DicomSRContent) (c : DicomSRContent) :
  lastOfKind vt rel (children ++ [c]) =
  if isKind vt rel c then Some c else lastOfKind vt rel children.
Proof. unfold lastOfKind. rewrite rev_app_distr. reflexivity. Qed.

(** One child (lines 118-130), when its reference can be read. *)
Lemma readSubItem_spec (c : DicomSRContent) (a : Annotation) :
  (isKind image selectedFrom c = true ->
   exists uid, referencedSOPInstanceUIDOf (value c) = Ok uid) ->
  readSubItem c a =
  Ok {| Annotation.id :=
          if isKind uidref hasProperties c then value c else Annotation.id a;
        Annotation.mathShape := Annotation.mathShape a;
        Annotation.referenceSopUID :=
          if isKind image selectedFrom c
          then match referencedSOPInstanceUIDOf (value c) with
               | Ok uid => uid
               | Throw _ => JUndefined
               end
          else Annotation.referenceSopUID a;
        Annotation.textExpr :=
          if isKind text hasProperties c then value c
          else Annotation.textExpr a |}.
Proof.
  intros Href. unfold readSubItem.
  change (sameValueType (valueType c) image &&
          sameRelationshipType (relationshipType c) selectedFrom)
    with (isKind image selectedFrom c).
  change (sameValueType (valueType c) uidref &&
          sameRelationshipType (relationshipType c) hasProperties)
    with (isKind uidref hasProperties c).
  change (sameValueType (valueType c) text &&
          sameRelationshipType (relationshipType c) hasProperties)
    with (isKind text hasProperties c).
  destruct (isKind image selectedFrom c) eqn:Ei.
  - destruct (Href eq_refl) as [uid ->]. cbn [bind].
    destruct (isKind uidref hasProperties c), (isKind text hasProperties c),
      a; reflexivity.
  - cbn [bind].
    destruct (isKind uidref hasProperties c), (isKind text hasProperties c),
      a; reflexivity.
Qed.

(** The inner loop (lines 117-131) from any annotation: each field ends
    as the last child of its kind sets it, and is kept when there is
    none. *)
Lemma readChildren_spec (children : list DicomSRContent) :
  forall a0 : Annotation,
    (forall child, In child children ->
       isKind image selectedFrom child = true ->
       exists uid, referencedSOPInstanceUIDOf (value child) = Ok uid) ->
    forEach readSubItem children a0 =
    Ok {| Annotation.id :=
            match lastOfKind uidref hasProperties children with
            | Some child => value child
            | None => Annotation.id a0
            end;
          Annotation.mathShape := Annotation.mathShape a0;
          Annotation.referenceSopUID :=
            match lastOfKind image selectedFrom children with
            | Some child =>
                match referencedSOPInstanceUIDOf (value child) with
                | Ok uid => uid
                | Throw _ => JUndefined
                end
            | None => Annotation.referenceSopUID a0
            end;
          Annotation.textExpr :=
            match lastOfKind text hasProperties children with
            | Some child => value child
            | None => Annotation.textExpr a0
            end |}.
Proof.
  induction children as [|c children IH] using rev_ind; intros a0 Href.
  - destruct a0; reflexivity.
  - rewrite forEach_app.
    rewrite IH by (intros child Hin; apply Href, in_or_app; now left).
    cbn [bind forEach].
    rewrite readSubItem_spec
      by (apply Href, in_or_app; right; now left).
    cbn [bind]. rewrite !lastOfKind_snoc.
    cbn [Annotation.id Annotation.mathShape Annotation.referenceSopUID
         Annotation.textExpr].
    destruct (isKind uidref hasProperties c),
      (isKind image selectedFrom c), (isKind text hasProperties c);
      reflexivity.
Qed.

Lemma createAnnotation_spec (item : DicomSRContent)
  (children : list DicomSRContent) (gs : GuidState) :
  contentSequence item = Some children ->
  (forall child, In child children ->
     isKind image selectedFrom child = true ->
     exists uid, referencedSOPInstanceUIDOf (value child) = Ok uid) ->
  createAnnotation item gs =
  Ok (describedAnnotation item children (fst (guid gs)), snd (guid gs)).
Proof.
  intros Hseq Href. unfold createAnnotation.
  destruct (guid gs) as [fresh gs']. rewrite Hseq. cbn [forOf].
  rewrite readChildren_spec by assumption. reflexivity.
Qed.

Lemma readSubItem_shallow (c c' : DicomSRContent) (a : Annotation) :
  shallow c = shallow c' -> readSubItem c a = readSubItem c' a.
Proof.
  unfold shallow. intros E. inversion E as [[Hvt Hrel Hv]].
  unfold readSubItem. now rewrite Hvt, Hrel, Hv.
Qed.

Lemma readChildren_shallow (children children' : list DicomSRContent) :
  map shallow children' = map shallow children ->
  forall a : Annotation,
    forEach readSubItem children' a = forEach readSubItem children a.
Proof.
  revert children'.
  induction children as [|c children IH]; intros [|c' children'] E a;
    try discriminate; auto.
  cbn [map] in E.
  assert (Hc : shallow c' = shallow c) by congruence.
  assert (Hrest : map shallow children' = map shallow children) by congruence.
  cbn [forEach]. rewrite (readSubItem_shallow c' c a Hc).
  destruct (readSubItem c a); cbn [bind]; auto.
Qed.

(** The outer loop (lines 109-135) over items whose [scoord] nodes can be
    read: one annotation is pushed for each [scoord] item, in order. *)
Lemma readItems_spec (items : list DicomSRContent) :
  (forall item, In item items -> valueType item = scoord ->
     readableScoord item) ->
  forall (acc : list Annotation) (gs : GuidState),
  exists (annotations : list Annotation) (gs' : GuidState),
    forEach readItem items (acc, gs) = Ok (acc ++ annotations, gs') /\
    Forall2
      (fun item a =>
         exists children fresh,
           contentSequence item = Some children /\
           a = describedAnnotation item children fresh)
      (filter (fun item => sameValueType (valueType item) scoord) items)
      annotations.
Proof.
  induction items as [|item items IH]; intros Hread acc gs.
  - exists [], gs. split; [now rewrite app_nil_r | constructor].
  - cbn [forEach filter]. unfold readItem at 1.
    assert (Hrest : forall i, In i items -> valueType i = scoord ->
                      readableScoord i)
      by (intros i Hi; apply Hread; now right).
    unfold sameValueType.
    destruct (ValueType_eq_dec (valueType item) scoord) as [Hs|Hs].
    + destruct (Hread item (or_introl eq_refl) Hs) as (children & Hseq & Href).
      rewrite (createAnnotation_spec item children gs Hseq Href).
      cbn [bind fst snd].
      destruct (IH Hrest
                  (acc ++ [describedAnnotation item children (fst (guid gs))])
                  (snd (guid gs))) as (annotations & gs' & Hrun & Hall).
      exists (describedAnnotation item children (fst (guid gs)) :: annotations),
        gs'.
      split.
      * rewrite Hrun. now rewrite <- app_assoc.
      * constructor; [|exact Hall].
        exists children, (fst (guid gs)). auto.
    + cbn [bind]. apply IH. exact Hrest.
Qed.

(** An exported node read back (lines 111-131 on the node of lines
    199-223). *)
Lemma createAnnotation_exported (a : Annotation) (gs : GuidState) :
  createAnnotation (annotationToScoord a) gs = Ok (reimported a, snd (guid gs)).
Proof.
  unfold createAnnotation. destruct (guid gs) as [fresh gs']. reflexivity.
Qed.

Lemma readItems_exported (l : list Annotation) :
  forall (acc : list Annotation) (gs : GuidState),
    forEach readItem (map annotationToScoord l) (acc, gs) =
    Ok (acc ++ map reimported l, advance (length l) gs).
Proof.
  induction l as [|a l IH]; intros acc gs.
  - simpl. now rewrite app_nil_r.
  - cbn [map forEach length advance]. unfold readItem at 1.
    change (sameValueType (valueType (annotationToScoord a)) scoord) with true.
    cbn iota. rewrite createAnnotation_exported. cbn [bind fst snd].
    rewrite IH. now rewrite <- app_assoc.
Qed.

Lemma createAnnotations_exported (g : AnnotationGroup) (gs : GuidState) :
  createAnnotations (rootContainer (scoordSequence g)) gs =
  Ok (map reimported (getList g), advance (length (getList g)) gs).
Proof.
  unfold createAnnotations. rewrite scoordSequence_map.
  cbn [rootContainer setContentSequence contentSequence forOf].
  apply (readItems_exported (getList g) [] gs).
Qed.

Lemma elementAt_read (dataElements : JsValue) (key : string)
  (values : list JsValue) :
  elementAt dataElements key values ->
  exists element,
    getMember dataElements key = Ok (JObject element) /\
    firstValue (JObject element) = Ok (nth 0 values JUndefined).
Proof.
  intros (elements & element & -> & Hel & Hval).
  exists element. split.
  - cbn [getMember]. now rewrite Hel.
  - unfold firstValue. cbn [getMember bind]. now rewrite Hval.
Qed.

Lemma readSeriesMeta_absent (dataElements : JsValue) (g1 : AnnotationGroup) :
  lacksElement dataElements "00081115" ->
  readSeriesMeta dataElements g1 = Ok g1.
Proof. unfold lacksElement, readSeriesMeta. now intros ->. Qed.

Lemma readSeriesMeta_item (dataElements : JsValue) (g1 : AnnotationGroup)
  (item : JsObject) (rest : list JsValue) :
  elementAt dataElements "00081115" (JObject item :: rest) ->
  readSeriesMeta dataElements g1 =
  match readProperty "0020000E" item with
  | JUndefined => Ok g1
  | seriesElement =>
      seriesUID <- firstValue seriesElement ;;
      Ok (setMeta "ReferencedSeriesSequence" (seriesReference seriesUID) g1)
  end.
Proof.
  intros H. destruct (elementAt_read _ _ _ H) as (element & Hget & Hfirst).
  unfold readSeriesMeta. rewrite Hget. cbn [bind isDefined].
  rewrite Hfirst. cbn [bind nth getMember].
  destruct (readProperty "0020000E" item); reflexivity.
Qed.

Lemma readMeta_required (dataElements : JsValue) (g0 : AnnotationGroup)
  (modalities studies : list JsValue) :
  elementAt dataElements "00080060" modalities ->
  elementAt dataElements "0020000D" studies ->
  readMeta dataElements g0 =
  (g2 <- readSeriesMeta dataElements
           (setMeta "Modality" (nth 0 modalities JUndefined) g0) ;;
   Ok (setMeta "StudyInstanceUID" (nth 0 studies JUndefined) g2)).
Proof.
  intros Hm Hs.
  destruct (elementAt_read _ _ _ Hm) as (em & Hgm & Hfm).
  destruct (elementAt_read _ _ _ Hs) as (es & Hgs & Hfs).
  unfold readMeta. rewrite Hgm. cbn [bind]. rewrite Hfm. cbn [bind].
  destruct (readSeriesMeta dataElements
              (setMeta "Modality" (nth 0 modalities JUndefined) g0));
    cbn [bind]; [|reflexivity].
  rewrite Hgs. cbn [bind]. rewrite Hfs. reflexivity.
Qed.

Lemma readMeta_lacking (dataElements : JsValue) (g0 : AnnotationGroup) :
  lacksElement dataElements "00080060" \/
  lacksElement dataElements "0020000D" ->
  readMeta dataElements g0 = Throw TypeError.
Proof.
  unfold lacksElement, readMeta. intros [H|H].
  - rewrite H. reflexivity.
  - destruct (getMember dataElements "00080060") as [m|e]; cbn [bind];
      [|now destruct e].
    destruct (firstValue m) as [v|e]; cbn [bind]; [|now destruct e].
    destruct (readSeriesMeta dataElements (setMeta "Modality" v g0))
      as [g2|e]; cbn [bind]; [|now destruct e].
    rewrite H. reflexivity.
Qed.

Lemma forEach_throws {A S : Type} (body : A -> S -> result S)
  (l : list A) (x : A) :
  In x l -> (forall s, body x s = Throw TypeError) ->
  forall s, forEach body l s = Throw TypeError.
Proof.
  intros Hin Hx. induction l as [|y l IH]; intros s; [contradiction|].
  cbn [forEach]. destruct (body y s) as [s'|e] eqn:E; cbn [bind].
  - destruct Hin as [->|Hin]; [rewrite Hx in E; discriminate|].
    now apply IH.
  - now destruct e.
Qed.

Lemma readSubItem_throws (c : DicomSRContent) (e : JsError) (a : Annotation) :
  isKind image selectedFrom c = true ->
  referencedSOPInstanceUIDOf (value c) = Throw e ->
  readSubItem c a = Throw TypeError.
Proof.
  intros Hk Hthrow. unfold readSubItem.
  change (sameValueType (valueType c) image &&
          sameRelationshipType (relationshipType c) selectedFrom)
    with (isKind image selectedFrom c).
  rewrite Hk, Hthrow. now destruct e.
Qed.

Lemma createAnnotation_throws (item : DicomSRContent) (gs : GuidState) :
  unreadableScoord item -> createAnnotation item gs = Throw TypeError.
Proof.
  unfold createAnnotation. destruct (guid gs) as [fresh gs'].
  intros [Hnone|(children & child & e & Hseq & Hin & Hk & Hthrow)].
  - now rewrite Hnone.
  - rewrite Hseq. cbn [forOf].
    rewrite (forEach_throws readSubItem children child Hin); [reflexivity|].
    intros a. exact (readSubItem_throws child e a Hk Hthrow).
Qed.

Lemma readItem_throws (item : DicomSRContent)
  (st : list Annotation * GuidState) :
  valueType item = scoord -> unreadableScoord item ->
  readItem item st = Throw TypeError.
Proof.
  intros Hvt Hbad. destruct st as [annotations gs]. unfold readItem.
  rewrite Hvt. change (sameValueType scoord scoord) with true. cbn iota.
  now rewrite createAnnotation_throws.
Qed.

Lemma children_readable_or_not (children : list DicomSRContent) :
  (forall child, In child children ->
     isKind image selectedFrom child = true ->
     exists uid, referencedSOPInstanceUIDOf (value child) = Ok uid) \/
  (exists child e,
     In child children /\
     isKind image selectedFrom child = true /\
     referencedSOPInstanceUIDOf (value child) = Throw e).
Proof.
  induction children as [|c children [IH|(child & e & Hin & Hk & Ht)]].
  - left. intros child [].
  - destruct (isKind image selectedFrom c) eqn:Hk.
    + destruct (referencedSOPInstanceUIDOf (value c)) as [uid|e] eqn:Hr.
      * left. intros child [<-|Hin] Hkc; [now exists uid | now apply IH].
      * right. exists c, e. repeat split; auto. now left.
    + left. intros child [<-|Hin] Hkc; [congruence | now apply IH].
  - right. exists child, e. repeat split; auto. now right.
Qed.

Lemma readable_or_unreadable (item : DicomSRContent) :
  readableScoord item \/ unreadableScoord item.
Proof.
  unfold readableScoord, unreadableScoord.
  destruct (contentSequence item) as [children|]; [|now right; left].
  destruct (children_readable_or_not children)
    as [Hall|(child & e & Hin & Hk & Ht)].
  - left. exists children. auto.
  - right. right. exists children, child, e. auto.
Qed.

Lemma readMeta_getList (dataElements : JsValue) (g0 g : AnnotationGroup) :
  readMeta dataElements g0 = Ok g -> getList g = getList g0.
Proof.
  unfold readMeta.
  destruct (getMember dataElements "00080060") as [m|]; [|discriminate].
  cbn [bind]. destruct (firstValue m) as [v|]; [|discriminate]. cbn [bind].
  assert (Hs : forall g1 g2, readSeriesMeta dataElements g1 = Ok g2 ->
                 getList g2 = getList g1).
  { intros g1 g2. unfold readSeriesMeta.
    destruct (getMember dataElements "00081115") as [el|]; [|discriminate].
    cbn [bind]. destruct (isDefined el); [|now intros [= <-]].
    destruct (firstValue el) as [i0|]; [|discriminate]. cbn [bind].
    destruct (getMember i0 "0020000E") as [se|]; [|discriminate]. cbn [bind].
    destruct (isDefined se); [|now intros [= <-]].
    destruct (firstValue se) as [u|]; [|discriminate]. cbn [bind].
    now intros [= <-]. }
  destruct (readSeriesMeta dataElements (setMeta "Modality" v g0))
    as [g2|] eqn:E; [|discriminate].
  cbn [bind]. apply Hs in E.
  destruct (getMember dataElements "0020000D") as [sm|]; [|discriminate].
  cbn [bind]. destruct (firstValue sm) as [sv|]; [|discriminate]. cbn [bind].
  intros [= <-]. exact E.
Qed.

Lemma create_list (dataElements : JsValue) (gs gs' : GuidState)
  (g : AnnotationGroup) :
  create dataElements gs = Ok (g, gs') ->
  createAnnotations (getSRContent dataElements) gs = Ok (getList g, gs').
Proof.
  unfold create.
  destruct (createAnnotations (getSRContent dataElements) gs)
    as [[annotations gs1]|]; [|discriminate].
  cbn [bind fst snd].
  destruct (readMeta dataElements (newAnnotationGroup annotations))
    as [g1|] eqn:E; [|discriminate].
  cbn [bind]. intros [= <- <-].
  apply readMeta_getList in E. now rewrite E.
Qed.

(** C2. [checkElements] returns ["No root concept name code"] when the
    root the reader extracts has no concept-name code,
    ["Not a measurement group"] when it has one whose value is not that of
    the measurement-group code, and [undefined] when it has that value;
    [getWarning] then returns the same, and nothing of the factory's
    earlier warning remains. *)
Theorem checkElements_warning (this : AnnotationFactory)
  (dataElements : JsValue) :
  let root := getSRContent dataElements in
  let r := checkElements this dataElements in
  (conceptNameCode root = None ->
   fst r = Some "No root concept name code") /\
  (forall code, conceptNameCode root = Some code ->
     DicomCode.value code <> DicomCode.value getMeasurementGroupCode ->
     fst r = Some "Not a measurement group") /\
  (forall code, conceptNameCode root = Some code ->
     DicomCode.value code = DicomCode.value getMeasurementGroupCode ->
     fst r = None) /\
  getWarning (snd r) = fst r /\
  (forall other : AnnotationFactory,
     checkElements other dataElements = checkElements this dataElements).
Proof.
  cbv zeta. unfold checkElements, getWarning.
  repeat split.
  - now intros ->.
  - intros code -> Hne.
    destruct (String.eqb_spec (DicomCode.value code)
                (DicomCode.value getMeasurementGroupCode)); [contradiction|].
    reflexivity.
  - intros code -> ->. now rewrite String.eqb_refl.
Qed.

(** C3, amended. For a [scoord] child that has a content sequence in
    which the value of every [image]/[selectedFrom] child has a referenced
    SOP sequence, the body of the loop of [create] pushes one annotation:
    its shape is decoded from the node's value; its id is the value of the
    last [uidref]/[hasProperties] child, the generated identifier when
    there is none; its textExpr is the value of the last
    [text]/[hasProperties] child, the empty string when there is none; its
    referenceSopUID is the referenced SOP instance UID of the last
    [image]/[selectedFrom] child, unset when there is none. The annotation
    depends on the value type, relationship type and value of the direct
    children only. For a [scoord] child without a content sequence, or
    with an [image]/[selectedFrom] child whose value has no referenced SOP
    sequence, the body throws; so whenever it returns, it has pushed the
    annotation described. *)
Theorem create_scoord_annotation (item : DicomSRContent)
  (annotations : list Annotation) (gs : GuidState) :
  valueType item = scoord ->
  (forall children : list DicomSRContent,
     contentSequence item = Some children ->
     (forall child, In child children ->
        isKind image selectedFrom child = true ->
        exists uid, referencedSOPInstanceUIDOf (value child) = Ok uid) ->
     readItem item (annotations, gs) =
       Ok (annotations ++ [describedAnnotation item children (fst (guid gs))],
           snd (guid gs)) /\
     (forall (item' : DicomSRContent) (children' : list DicomSRContent),
        value item' = value item ->
        contentSequence item' = Some children' ->
        map shallow children' = map shallow children ->
        createAnnotation item' gs = createAnnotation item gs)) /\
  (unreadableScoord item ->
   readItem item (annotations, gs) = Throw TypeError) /\
  (forall r, readItem item (annotations, gs) = Ok r ->
     exists children,
       contentSequence item = Some children /\
       r = (annotations ++
              [describedAnnotation item children (fst (guid gs))],
            snd (guid gs))).
Proof.
  intros Hvt.
  assert (Hok : forall children : list DicomSRContent,
             contentSequence item = Some children ->
             (forall child, In child children ->
                isKind image selectedFrom child = true ->
                exists uid, referencedSOPInstanceUIDOf (value child) = Ok uid) ->
             readItem item (annotations, gs) =
               Ok (annotations ++
                     [describedAnnotation item children (fst (guid gs))],
                   snd (guid gs))).
  { intros children Hseq Href. unfold readItem. rewrite Hvt.
    change (sameValueType scoord scoord) with true. cbn iota.
    rewrite (createAnnotation_spec item children gs Hseq Href).
    reflexivity. }
  split; [|split].
  - intros children Hseq Href. split.
    + now apply Hok.
    + intros item' children' Hv Hseq' Hsh.
      unfold createAnnotation. rewrite Hv, Hseq, Hseq'.
      destruct (guid gs) as [fresh gs']. cbn [forOf].
      now rewrite (readChildren_shallow children children' Hsh).
  - intros Hbad. now apply readItem_throws.
  - intros r Hr.
    destruct (readable_or_unreadable item)
      as [(children & Hseq & Href)|Hbad].
    + exists children. split; [exact Hseq|].
      rewrite (Hok children Hseq Href) in Hr. now inversion Hr.
    + rewrite (readItem_throws item (annotations, gs) Hvt Hbad) in Hr.
      discriminate.
Qed.

(** C4, amended. When the root has a content sequence and each of its
    [scoord] children can be read (it has a content sequence, and the
    value of every [image]/[selectedFrom] child in it has a referenced SOP
    sequence), [create] collects exactly one annotation per [scoord] child
    of the root, in the order of the content sequence, and none for the
    other children; when the root has no content sequence, or one of its
    [scoord] children cannot be read, it throws; so the list of every
    group [create] returns has exactly one annotation per [scoord] child of
    the root, in order. [toDicom] makes one [scoord] node per annotation,
    in the order of the group's list, and reading the exported root back
    yields the annotations in that order, each with its id, textExpr and
    referenceSopUID and its shape passed through the codec. *)
Theorem create_toDicom_order (root : DicomSRContent) (g : AnnotationGroup)
  (gs : GuidState) :
  (forall items : list DicomSRContent,
     contentSequence root = Some items ->
     (forall item, In item items -> valueType item = scoord ->
        readableScoord item) ->
     exists (annotations : list Annotation) (gs' : GuidState),
       createAnnotations root gs = Ok (annotations, gs') /\
       Forall2
         (fun item a =>
            exists children fresh,
              contentSequence item = Some children /\
              a = describedAnnotation item children fresh)
         (filter (fun item => sameValueType (valueType item) scoord) items)
         annotations) /\
  (contentSequence root = None ->
   createAnnotations root gs = Throw TypeError /\
   forall dataElements, getSRContent dataElements = root ->
     create dataElements gs = Throw TypeError) /\
  (forall (items : list DicomSRContent) (item : DicomSRContent),
     contentSequence root = Some items ->
     In item items -> valueType item = scoord -> unreadableScoord item ->
     createAnnotations root gs = Throw TypeError /\
     forall dataElements, getSRContent dataElements = root ->
       create dataElements gs = Throw TypeError) /\
  (forall (dataElements : JsValue) (g' : AnnotationGroup) (gs' : GuidState),
     create dataElements gs = Ok (g', gs') ->
     exists items : list DicomSRContent,
       contentSequence (getSRContent dataElements) = Some items /\
       Forall2
         (fun item a =>
            exists children fresh,
              contentSequence item = Some children /\
              a = describedAnnotation item children fresh)
         (filter (fun item => sameValueType (valueType item) scoord) items)
         (getList g')) /\
  scoordSequence g = map annotationToScoord (getList g) /\
  createAnnotations (rootContainer (scoordSequence g)) gs =
    Ok (map reimported (getList g), advance (length (getList g)) gs).
Proof.
  repeat apply conj.
  - intros items Hseq Hread.
    unfold createAnnotations. rewrite Hseq. cbn [forOf].
    destruct (readItems_spec items Hread [] gs)
      as (annotations & gs' & Hrun & Hall).
    exists annotations, gs'. split; assumption.
  - intros Hnone.
    assert (Hthrow : createAnnotations root gs = Throw TypeError)
      by (unfold createAnnotations; now rewrite Hnone).
    split; [exact Hthrow|].
    intros dataElements Hroot. unfold create. now rewrite Hroot, Hthrow.
  - intros items item Hseq Hin Hvt Hbad.
    assert (Hthrow : createAnnotations root gs = Throw TypeError).
    { unfold createAnnotations. rewrite Hseq. cbn [forOf].
      apply (forEach_throws readItem items item Hin).
      intros st. now apply readItem_throws. }
    split; [exact Hthrow|].
    intros dataElements Hroot. unfold create. now rewrite Hroot, Hthrow.
  - intros dataElements g' gs' Hcreate. apply create_list in Hcreate.
    unfold createAnnotations in Hcreate.
    destruct (contentSequence (getSRContent dataElements)) as [items|];
      [|discriminate].
    exists items. split; [reflexivity|]. cbn [forOf] in Hcreate.
    assert (Hread : forall item, In item items -> valueType item = scoord ->
                      readableScoord item).
    { intros item Hin Hvt.
      destruct (readable_or_unreadable item) as [Hr|Hbad]; [exact Hr|].
      rewrite (forEach_throws readItem items item Hin) in Hcreate;
        [discriminate|].
      intros st. now apply readItem_throws. }
    destruct (readItems_spec items Hread [] gs)
      as (annotations & gs1 & Hrun & Hall).
    rewrite Hrun in Hcreate. inversion Hcreate. subst. exact Hall.
  - apply scoordSequence_map.
  - apply createAnnotations_exported.
Qed.

(** C5, amended. [create] throws whenever the element set lacks element
    [00080060] or [0020000D]. When both are data elements and the
    annotations are read, the group gets [Modality] and [StudyInstanceUID]
    from their first values; it gets no [ReferencedSeriesSequence], and
    nothing is thrown, when element [00081115] is absent or its first item
    has no sub-element [0020000E]; it gets [ReferencedSeriesSequence] with
    the first value of that sub-element when the first item has it. *)
Theorem create_metadata (dataElements : JsValue) (gs : GuidState) :
  (lacksElement dataElements "00080060" \/
   lacksElement dataElements "0020000D" ->
   create dataElements gs = Throw TypeError) /\
  (forall (annotations : list Annotation) (gs' : GuidState)
          (modalities studies : list JsValue),
     createAnnotations (getSRContent dataElements) gs
       = Ok (annotations, gs') ->
     elementAt dataElements "00080060" modalities ->
     elementAt dataElements "0020000D" studies ->
     (lacksElement dataElements "00081115" ->
      create dataElements gs =
        Ok ({| getList := annotations;
               metaTable :=
                 [("Modality", nth 0 modalities JUndefined);
                  ("StudyInstanceUID", nth 0 studies JUndefined)] |}, gs')) /\
     (forall (item : JsObject) (rest : list JsValue),
        elementAt dataElements "00081115" (JObject item :: rest) ->
        readProperty "0020000E" item = JUndefined ->
        create dataElements gs =
          Ok ({| getList := annotations;
                 metaTable :=
                   [("Modality", nth 0 modalities JUndefined);
                    ("StudyInstanceUID", nth 0 studies JUndefined)] |},
              gs')) /\
     (forall (item : JsObject) (rest series : list JsValue),
        elementAt dataElements "00081115" (JObject item :: rest) ->
        elementAt (JObject item) "0020000E" series ->
        create dataElements gs =
          Ok ({| getList := annotations;
                 metaTable :=
                   [("Modality", nth 0 modalities JUndefined);
                    ("ReferencedSeriesSequence",
                     seriesReference (nth 0 series JUndefined));
                    ("StudyInstanceUID", nth 0 studies JUndefined)] |},
              gs'))).
Proof.
  split.
  - intros Hlack. unfold create.
    destruct (createAnnotations (getSRContent dataElements) gs) as [r|e];
      cbn [bind]; [|now destruct e].
    now rewrite readMeta_lacking.
  - intros annotations gs' modalities studies Hann Hm Hs.
    unfold create. rewrite Hann. cbn [bind fst snd].
    rewrite (readMeta_required _ _ _ _ Hm Hs).
    split; [|split].
    + intros Hlack. now rewrite readSeriesMeta_absent.
    + intros item rest Hel Hsub.
      rewrite (readSeriesMeta_item _ _ _ _ Hel), Hsub. reflexivity.
    + intros item rest series Hel Hsub.
      rewrite (readSeriesMeta_item _ _ _ _ Hel).
      destruct (elementAt_read _ _ _ Hsub) as (se & Hget & Hfirst).
      cbn [getMember] in Hget. inversion Hget as [Hse]. rewrite Hse.
      rewrite Hfirst. reflexivity.
Qed.

(** What [create] finds in the elements [toDicom] builds, from what the
    collaborators do on any tags: lines 182-185 give the tags [Modality],
    [StudyInstanceUID] and [ReferencedSeriesSequence] the metadata of the
    group, and lines 228-237 spread the writer's tags of the root
    container over the tags written before. *)
Lemma exported_elements (g : AnnotationGroup) (now : Date)
  (seriesUID : JsValue) :
  getList g <> [] ->
  getMeta g "ReferencedSeriesSequence" = seriesReference seriesUID ->
  (forall k, In k metadataNames -> ~ In k (objectKeys (contentTreeTags g))) ->
  buildsElement "Modality" "00080060" (getMeta g "Modality") ->
  buildsElement "StudyInstanceUID" "0020000D" (getMeta g "StudyInstanceUID") ->
  buildsSeriesItem seriesUID ->
  readsBack (rootContainer (scoordSequence g)) ->
  getSRContent (fst (toDicom g None now)) = rootContainer (scoordSequence g) /\
  elementAt (fst (toDicom g None now)) "00080060" [getMeta g "Modality"] /\
  elementAt (fst (toDicom g None now)) "0020000D"
    [getMeta g "StudyInstanceUID"] /\
  exists item : JsObject,
    elementAt (fst (toDicom g None now)) "00081115" [JObject item] /\
    elementAt (JObject item) "0020000E" [seriesUID].
Proof.
  intros Hl Hseries Htree Hm Hs Hr Hroot.
  change (fst (toDicom g None now))
    with (getElementsFromJSONTags (generatedTags g now)).
  assert (Hmeta : forall k, In k metadataNames ->
                    readProperty k (generatedTags g now) = getMeta g k).
  { intros k Hk. now apply generatedTags_metadata, Htree. }
  pose proof (NoDup_generatedTags g now) as Hnd.
  split; [|split; [|split]].
  - rewrite (proj1 (generatedTags_spread g now Hl)).
    apply Hroot. apply objectKeys_baseTags.
  - apply Hm; [exact Hnd|]. apply Hmeta. cbn [metadataNames In]. auto.
  - apply Hs; [exact Hnd|]. apply Hmeta. cbn [metadataNames In]. auto.
  - apply Hr; [exact Hnd|]. rewrite <- Hseries. apply Hmeta.
    cbn [metadataNames In]. auto.
Qed.

Lemma create_exported (g : AnnotationGroup) (dataElements : JsValue)
  (gs : GuidState) (seriesUID : JsValue) (item : JsObject) :
  getSRContent dataElements = rootContainer (scoordSequence g) ->
  Forall shapeReadsBack (getList g) ->
  elementAt dataElements "00080060" [getMeta g "Modality"] ->
  elementAt dataElements "0020000D" [getMeta g "StudyInstanceUID"] ->
  getMeta g "ReferencedSeriesSequence" = seriesReference seriesUID ->
  elementAt dataElements "00081115" [JObject item] ->
  elementAt (JObject item) "0020000E" [seriesUID] ->
  create dataElements gs =
    Ok (setMeta "StudyInstanceUID" (getMeta g "StudyInstanceUID")
          (setMeta "ReferencedSeriesSequence"
             (getMeta g "ReferencedSeriesSequence")
             (setMeta "Modality" (getMeta g "Modality")
                (newAnnotationGroup (getList g)))),
        advance (length (getList g)) gs).
Proof.
  intros Hroot Hshape Hm Hs Hseries Hel Hsub.
  unfold create. rewrite Hroot, createAnnotations_exported.
  cbn [bind fst snd].
  assert (Hl : map reimported (getList g) = getList g).
  { induction Hshape as [|a l Ha _ IH]; [reflexivity|].
    cbn [map]. rewrite IH. f_equal.
    unfold reimported. rewrite Ha. now destruct a. }
  rewrite Hl, (readMeta_required _ _ _ _ Hm Hs),
    (readSeriesMeta_item _ _ _ _ Hel).
  destruct (elementAt_read _ _ _ Hsub) as (se & Hget & Hfirst).
  cbn [getMember] in Hget. inversion Hget as [Hse]. rewrite Hse, Hfirst.
  rewrite Hseries. reflexivity.
Qed.

(** C1, amended. Let a group have an annotation, and let its
    [ReferencedSeriesSequence] metadata be [{value: [{SeriesInstanceUID:
    uid}]}]. Let the collaborators keep what they are given: the writer's
    tags of the root container name none of the three metadata tags; the
    element builder makes of the tags [Modality] and [StudyInstanceUID]
    the elements [00080060] and [0020000D] with the group's values, and
    of the series reference the element [00081115] with one item holding
    [uid] as [0020000E]; the reader finds the root container back in the
    elements built from the writer's tags of it; and the shape codec
    gives back the shapes of the group. Then [create] on the elements
    [toDicom] returns for the group, without extra tags, returns a group
    with the same annotations (shape, id, textExpr and referenceSopUID,
    in the same order) and with exactly the metadata [Modality],
    [ReferencedSeriesSequence] and [StudyInstanceUID], each as in the
    group; no other metadata key is carried over. *)
Theorem create_toDicom_roundtrip (g : AnnotationGroup) (now : Date)
  (gs : GuidState) (seriesUID : JsValue) :
  getList g <> [] ->
  getMeta g "ReferencedSeriesSequence" = seriesReference seriesUID ->
  (forall k, In k metadataNames -> ~ In k (objectKeys (contentTreeTags g))) ->
  buildsElement "Modality" "00080060" (getMeta g "Modality") ->
  buildsElement "StudyInstanceUID" "0020000D" (getMeta g "StudyInstanceUID") ->
  buildsSeriesItem seriesUID ->
  readsBack (rootContainer (scoordSequence g)) ->
  Forall shapeReadsBack (getList g) ->
  create (fst (toDicom g None now)) gs =
    Ok ({| getList := getList g;
           metaTable :=
             [("Modality", getMeta g "Modality");
              ("ReferencedSeriesSequence",
               getMeta g "ReferencedSeriesSequence");
              ("StudyInstanceUID", getMeta g "StudyInstanceUID")] |},
        advance (length (getList g)) gs).
Proof.
  intros Hl Hseries Htree Hm Hs Hr Hroot Hshape.
  destruct (exported_elements g now seriesUID Hl Hseries Htree Hm Hs Hr Hroot)
    as (Hback & Hmod & Hstudy & item & Hel & Hsub).
  exact (create_exported g _ gs seriesUID item
           Hback Hshape Hmod Hstudy Hseries Hel Hsub).
Qed.

End ImportFacts.

(** ** The sample collaborators keep what they are given *)
Section SampleFacts.
Import Sample SampleData.

Lemma elementAt_intro (elements element : JsObject) (key : string)
  (values : list JsValue) :
  readProperty key elements = JObject element ->
  readProperty "value" element = JArray values ->
  elementAt (JObject elements) key values.
Proof. intros H1 H2. exists elements, element. auto. Qed.

Lemma elementsOfTags_cons (d : nat) (n : string) (v : JsValue)
  (rest : JsObject) :
  elementsOfTags (S d) ((n, v) :: rest) =
  match tagKey n tagKeys with
  | None => []
  | Some key =>
      match elementOfValue d v with
      | None => []
      | Some el => [(key, el)]
      end
  end ++ elementsOfTags (S d) rest.
Proof.
  change (elementsOfTags (S d) ((n, v) :: rest))
    with (match tagKey n tagKeys with
          | None => []
          | Some key =>
              match v with
              | JUndefined => []
              | JArray values => [(key, dataElement values)]
              | JString s => [(key, dataElement [JString s])]
              | JObject o =>
                  match readProperty "value" o with
                  | JArray items =>
                      [(key,
                        dataElement
                          (map (fun item =>
                                  match item with
                                  | JObject io =>
                                      JObject (elementsOfTags d io)
                                  | other => other
                                  end) items))]
                  | _ => [(key, dataElement [JObject o])]
                  end
              end
          end ++ elementsOfTags (S d) rest).
  f_equal. destruct (tagKey n tagKeys) as [key|]; [|reflexivity].
  destruct v as [|s|values|o]; try reflexivity.
  unfold elementOfValue. now destruct (readProperty "value" o).
Qed.

Lemma tagKey_inj (dict : list (string * string)) (n n' key : string) :
  NoDup (map snd dict) ->
  tagKey n dict = Some key -> tagKey n' dict = Some key -> n = n'.
Proof.
  assert (Hin : forall m k d, tagKey m d = Some k -> In k (map snd d)).
  { intros m k d. induction d as [|[a b] d IH]; cbn [tagKey map snd In];
      [discriminate|].
    destruct (String.eqb a m).
    - intros [= <-]. now left.
    - intros H. right. now apply IH. }
  induction dict as [|[a b] dict IH]; cbn [tagKey map snd]; [discriminate|].
  intros Hnd Hn Hn'. inversion Hnd as [|? ? Hnin Hnd']; subst.
  destruct (String.eqb_spec a n) as [<-|Ha];
    destruct (String.eqb_spec a n') as [<-|Ha']; auto.
  - inversion Hn; subst. exfalso. apply Hnin. now apply (Hin n' key).
  - inversion Hn'; subst. exfalso. apply Hnin. now apply (Hin n key).
Qed.

Lemma NoDup_tagKeys : NoDup (map snd tagKeys).
Proof.
  unfold tagKeys. cbn [map snd].
  repeat (constructor; [cbn [In]; intuition discriminate|]). constructor.
Qed.

(** The element under the key of a tag name is the element of the value
    of the tag. *)
Lemma elements_lookup (d : nat) (name key : string) (tags : JsObject) :
  tagKey name tagKeys = Some key ->
  NoDup (objectKeys tags) ->
  readProperty key (elementsOfTags (S d) tags) =
  match elementOfValue d (readProperty name tags) with
  | Some el => el
  | None => JUndefined
  end.
Proof.
  intros Hname. induction tags as [|[n v] rest IH]; intros Hnd;
    [reflexivity|].
  cbn [objectKeys map fst] in Hnd. inversion Hnd as [|? ? Hnin Hnd']; subst.
  rewrite elementsOfTags_cons. destruct (string_dec n name) as [->|Hne].
  - rewrite Hname, readProperty_cons_same.
    destruct (elementOfValue d v) as [el|]; cbn [app].
    + apply readProperty_cons_same.
    + rewrite (IH Hnd'), (readProperty_not_key name rest Hnin). reflexivity.
  - rewrite (readProperty_cons_other name n v rest Hne).
    destruct (tagKey n tagKeys) as [key'|] eqn:Hn; [|exact (IH Hnd')].
    destruct (elementOfValue d v); cbn [app]; [|exact (IH Hnd')].
    rewrite readProperty_cons_other; [exact (IH Hnd')|].
    intros ->. apply Hne. exact (tagKey_inj tagKeys n name key NoDup_tagKeys Hn Hname).
Qed.

Lemma sample_buildsElement (name key s : string) :
  tagKey name tagKeys = Some key ->
  buildsElement (X:=X) name key (JString s).
Proof.
  intros Hk tags Hnd Hv.
  change (@getElementsFromJSONTags X tags) with (JObject (elementsOfTags 8 tags)).
  apply (elementAt_intro _ [("value", JArray [JString s])]); [|reflexivity].
  rewrite (elements_lookup 7 name key tags Hk Hnd), Hv. reflexivity.
Qed.

Lemma sample_buildsSeriesItem (s : string) :
  buildsSeriesItem (X:=X) (JString s).
Proof.
  intros tags Hnd Hv. exists [("0020000E", dataElement [JString s])].
  change (@getElementsFromJSONTags X tags) with (JObject (elementsOfTags 8 tags)).
  split.
  - apply (elementAt_intro _
             [("value",
               JArray [JObject [("0020000E", dataElement [JString s])]])]);
      [|reflexivity].
    rewrite (elements_lookup 7 "ReferencedSeriesSequence" "00081115" tags
               eq_refl Hnd), Hv.
    reflexivity.
  - apply (elementAt_intro _ [("value", JArray [JString s])]); reflexivity.
Qed.

Lemma readContent_S (d : nat) (elements : JsObject) :
  readContent (S d) elements =
  {| valueType :=
       match firstAt "0040A040" elements with
       | JString name => valueTypeOfName name
       | _ => otherValueType ""
       end;
     conceptNameCode := readCode elements;
     relationshipType :=
       match firstAt "0040A010" elements with
       | JString name => Some (relationshipTypeOfName name)
       | _ => None
       end;
     contentSequence :=
       match readProperty "0040A730" elements with
       | JObject _ =>
           Some (map (fun item =>
                        match item with
                        | JObject io => readContent d io
                        | _ => newDicomSRContent (otherValueType "")
                        end)
                   (valuesAt "0040A730" elements))
       | _ => None
       end;
     value :=
       readValue
         match firstAt "0040A040" elements with
         | JString name => valueTypeOfName name
         | _ => otherValueType ""
         end elements |}.
Proof. reflexivity. Qed.

(** Reading a tag of the spread of a node's tags over the tags written
    first. *)
Lemma spread_lookup (base tree : JsObject) (name : string) :
  objectKeys base = baseTagNames ->
  NoDup (objectKeys tree) ->
  hasKey name tree = true \/ named name baseTagNames = false ->
  readProperty name (spread base tree) = readProperty name tree.
Proof.
  intros Hbase Hnd Hname. unfold spread.
  rewrite readProperty_assignAll by assumption.
  destruct (hasKey name tree) eqn:Htree; [reflexivity|].
  destruct Hname as [Hname|Hname]; [discriminate|].
  rewrite readProperty_assignAll
    by (rewrite Hbase; apply NoDup_baseTagNames).
  assert (Hno : hasKey name base = false)
    by (unfold hasKey; rewrite Hbase; exact Hname).
  rewrite Hno. apply hasKey_false in Htree.
  now rewrite (readProperty_not_key name tree Htree).
Qed.

(** The container root of a group, read back by the sample reader. *)
Lemma sample_readsBack (g : @AnnotationGroup X) :
  NoDup (objectKeys
           (writeContent (rootContainer (X:=X) (scoordSequence (X:=X) g)))) ->
  readRoot
    (JObject
       (elementsOfTags 8
          (writeContent (rootContainer (X:=X) (scoordSequence (X:=X) g)))))
  = rootContainer (X:=X) (scoordSequence (X:=X) g) ->
  readsBack (X:=X) (rootContainer (X:=X) (scoordSequence (X:=X) g)).
Proof.
  intros Hnd Hread base Hbase.
  set (root := rootContainer (X:=X) (scoordSequence (X:=X) g)) in *.
  change (@getDicomSRContentItem X root) with (writeContent root).
  change (@getElementsFromJSONTags X (spread base (writeContent root)))
    with (JObject (elementsOfTags 8 (spread base (writeContent root)))).
  change (@getSRContent X) with readRoot.
  rewrite <- Hread at 2. unfold readRoot.
  assert (Hsp : NoDup (objectKeys (spread base (writeContent root)))).
  { unfold spread. apply NoDup_assignAll, NoDup_assignAll. constructor. }
  assert (Hlook : forall name key,
             tagKey name tagKeys = Some key ->
             hasKey name (writeContent root) = true
             \/ named name baseTagNames = false ->
             readProperty key
               (elementsOfTags 8 (spread base (writeContent root)))
             = readProperty key (elementsOfTags 8 (writeContent root))).
  { intros name key Hk Hname.
    rewrite (elements_lookup 7 name key _ Hk Hsp).
    rewrite (elements_lookup 7 name key _ Hk Hnd).
    now rewrite spread_lookup. }
  assert (Hvt : hasKey "ValueType" (writeContent root) = true)
    by reflexivity.
  rewrite !readContent_S.
  unfold readCode, readValue, firstAt, valuesAt.
  rewrite !(Hlook "ValueType" "0040A040" eq_refl (or_introl Hvt)).
  rewrite !(Hlook "ConceptNameCodeSequence" "0040A043" eq_refl
              (or_intror eq_refl)).
  rewrite !(Hlook "RelationshipType" "0040A010" eq_refl (or_intror eq_refl)).
  rewrite !(Hlook "ContentSequence" "0040A730" eq_refl (or_intror eq_refl)).
  rewrite !(Hlook "TextValue" "0040A160" eq_refl (or_intror eq_refl)).
  rewrite !(Hlook "UID" "0040A124" eq_refl (or_intror eq_refl)).
  rewrite !(Hlook "ReferencedSOPSequence" "00081199" eq_refl
              (or_intror eq_refl)).
  rewrite !(Hlook "GraphicType" "00700023" eq_refl (or_intror eq_refl)).
  rewrite !(Hlook "GraphicData" "00700022" eq_refl (or_intror eq_refl)).
  reflexivity.
Qed.

Lemma readsBack_groupMR :
  readsBack (X:=X) (rootContainer (X:=X) (scoordSequence (X:=X) groupMR)).
Proof.
  apply sample_readsBack.
  - vm_compute. repeat (constructor; [cbn [In]; intuition discriminate|]).
    constructor.
  - vm_compute. reflexivity.
Qed.

End SampleFacts.

(** ** Runs on the sample inputs *)
Section Runs.
Import SampleData.
#[local] Existing Instance Sample.engine.

(** C1: the export of [groupMR] read back. *)
Lemma create_toDicom_roundtrip_sample :
  create (X:=X) (fst (toDicom (X:=X) groupMR None noon)) 0 =
    Ok ({| getList := [annotationA; annotationB; annotationC];
           metaTable :=
             [("Modality", JString "MR");
              ("ReferencedSeriesSequence", seriesReference (JString "1.2.9"));
              ("StudyInstanceUID", JString "1.2")] |}, 3).
Proof.
  refine (create_toDicom_roundtrip (X:=X) groupMR noon 0 (JString "1.2.9")
            _ _ _ _ _ _ _ _).
  - discriminate.
  - reflexivity.
  - intros k Hk. apply hasKey_false. cbn [metadataNames In] in Hk.
    destruct Hk as [<-|[<-|[<-|[]]]]; reflexivity.
  - apply sample_buildsElement. reflexivity.
  - apply sample_buildsElement. reflexivity.
  - apply sample_buildsSeriesItem.
  - apply readsBack_groupMR.
  - repeat constructor.
Defined.

(** C1 as stated fails: the export of [groupExtraMeta], whose list is not
    empty and whose three metadata keys are set, reads back without the
    key [PatientID] and with a [ReferencedSeriesSequence] that has lost a
    field. *)
Lemma create_toDicom_drops_metadata :
  exists g' : @AnnotationGroup X,
    create (X:=X) (fst (toDicom (X:=X) groupExtraMeta None noon)) 0
      = Ok (g', 1) /\
    getList g' = getList groupExtraMeta /\
    getMeta (X:=X) groupExtraMeta "PatientID" = JString "P1" /\
    getMeta (X:=X) g' "PatientID" = JUndefined /\
    getMeta (X:=X) groupExtraMeta "ReferencedSeriesSequence" =
      JObject
        [("value",
          JArray
            [JObject
               [("SeriesInstanceUID", JString "1.2.9");
                ("Modality", JString "MR")]])] /\
    getMeta (X:=X) g' "ReferencedSeriesSequence" =
      JObject
        [("value", JArray [JObject [("SeriesInstanceUID", JString "1.2.9")]])].
Proof.
  eexists. split; [vm_compute; reflexivity|].
  repeat split.
Qed.

(** C3: the node [scoordTwice] has two children of each kind; the last
    of each kind sets the field, and the grandchild is not looked at. *)
Lemma create_scoord_annotation_sample :
  readItem (X:=X) scoordTwice ([], 0) =
    Ok ([{| Annotation.id := JString "last-id";
            Annotation.mathShape := (Sample.Point2D "7" "8" : @Shape X);
            Annotation.referenceSopUID := JString "2.2";
            Annotation.textExpr := JString "last-label" |}], 1).
Proof.
  refine (proj1 (proj1 (create_scoord_annotation (X:=X) scoordTwice [] 0
                          eq_refl)
                   (childrenOf scoordTwice) eq_refl _)).
  intros child Hin Hkind. simpl in Hin.
  repeat (destruct Hin as [E|Hin];
          [subst child; try (vm_compute in Hkind; discriminate Hkind);
           eexists; reflexivity|]).
  contradiction.
Defined.

(** C3 as stated fails: the root read from [elementsLeafScoord] has one
    [scoord] child, without a content sequence, and [create] throws
    instead of building its annotation. *)
Lemma create_leaf_scoord_throws :
  contentSequence (@getSRContent X elementsLeafScoord) =
    Some
      [{| valueType := scoord; conceptNameCode := None;
          relationshipType := Some contains; contentSequence := None;
          value :=
            JObject [("graphicType", JString "POINT");
                     ("graphicData", JArray [JString "1"; JString "2"])] |}] /\
  create (X:=X) elementsLeafScoord 0 = Throw TypeError.
Proof. split; vm_compute; reflexivity. Qed.

(** C4: the [scoord] children of [mixedRoot], and [groupMR] exported and
    read back. *)
Lemma create_toDicom_order_sample :
  (exists (annotations : list (@Annotation X)) (gs' : nat),
     createAnnotations (X:=X) mixedRoot 0 = Ok (annotations, gs') /\
     Forall2
       (fun item a =>
          exists children fresh,
            contentSequence item = Some children /\
            a = describedAnnotation (X:=X) item children fresh)
       (filter (fun item => sameValueType (valueType item) scoord)
          (childrenOf mixedRoot))
       annotations) /\
  scoordSequence (X:=X) groupMR =
    [annotationToScoord (X:=X) annotationA;
     annotationToScoord (X:=X) annotationB;
     annotationToScoord (X:=X) annotationC] /\
  createAnnotations (X:=X)
    (rootContainer (X:=X) (scoordSequence (X:=X) groupMR)) 0 =
    Ok ([annotationA; annotationB; annotationC], 3).
Proof.
  destruct (create_toDicom_order (X:=X) mixedRoot groupMR 0)
    as (Hread & _ & _ & _ & Hexport & Hback).
  split; [|split; [exact Hexport | exact Hback]].
  apply (Hread (childrenOf mixedRoot) eq_refl).
  intros item Hin Hs. simpl in Hin.
  destruct Hin as [E|[E|[E|[E|[]]]]]; subst item; try discriminate Hs.
  - exists (childrenOf scoordTwice). split; [reflexivity|].
    intros child Hc Hkind. simpl in Hc.
    repeat (destruct Hc as [E|Hc];
            [subst child; try (vm_compute in Hkind; discriminate Hkind);
             eexists; reflexivity|]).
    contradiction.
  - exists []. split; [reflexivity|]. intros child [].
Defined.

(** C4 as stated fails: the root read from [elementsBareImage] has two
    [scoord] children, and [create] throws instead of producing two
    annotations. *)
Lemma create_bare_image_throws :
  option_map (map valueType)
    (contentSequence (@getSRContent X elementsBareImage))
    = Some [scoord; scoord] /\
  create (X:=X) elementsBareImage 0 = Throw TypeError.
Proof. split; vm_compute; reflexivity. Qed.

(** C5: an element set with a series sequence of one item. *)
Lemma create_metadata_sample :
  create (X:=X) (elementsWithSeries [JObject seriesItem]) 0 =
    Ok ({| getList := [];
           metaTable :=
             [("Modality", JString "SR");
              ("ReferencedSeriesSequence", seriesReference (JString "1.2.9"));
              ("StudyInstanceUID", JString "1.2")] |}, 0).
Proof.
  refine (proj2 (proj2
            (proj2 (create_metadata (X:=X)
                      (elementsWithSeries [JObject seriesItem]) 0)
               [] 0 [JString "SR"] [JString "1.2"] _ _ _))
            seriesItem [] [JString "1.2.9"] _ _).
  - vm_compute. reflexivity.
  - eapply elementAt_intro; vm_compute; reflexivity.
  - eapply elementAt_intro; vm_compute; reflexivity.
  - eapply elementAt_intro; vm_compute; reflexivity.
  - eapply elementAt_intro; vm_compute; reflexivity.
Defined.

(** C5 as stated fails: with both required elements present and a root
    without content sequence, [create] throws and sets no metadata; with
    the content read and element [00081115] present without an item,
    [create] throws instead of leaving [ReferencedSeriesSequence] out,
    where without the element it returns the group. *)
Lemma create_empty_series_throws :
  (getMember elementsNoContent "00080060"
     = Ok (Sample.dataElement [JString "SR"]) /\
   getMember elementsNoContent "0020000D"
     = Ok (Sample.dataElement [JString "1.2"]) /\
   create (X:=X) elementsNoContent 0 = Throw TypeError) /\
  (getMember (elementsWithSeries []) "00081115" = Ok (Sample.dataElement []) /\
   createAnnotations (X:=X) (@getSRContent X (elementsWithSeries [])) 0
     = Ok ([], 0) /\
   create (X:=X) (elementsWithSeries []) 0 = Throw TypeError /\
   create (X:=X) elementsNoSeries 0 =
     Ok ({| getList := [];
            metaTable :=
              [("Modality", JString "SR");
               ("StudyInstanceUID", JString "1.2")] |}, 0)).
Proof. repeat split; vm_compute; reflexivity. Qed.

(** C7: the series placeholder in the export of [groupMR]. *)
Lemma toDicom_fixed_constants_sample :
  readProperty "SeriesInstanceUID" (baseTags (X:=X) groupMR noon)
    = JString "1.2.3.4.5.6" /\
  readProperty "SeriesInstanceUID"
    (fst (toDicomTags (X:=X) groupMR None noon))
    = JString "1.2.3.4.5.6".
Proof.
  destruct (toDicom_fixed_constants (X:=X) groupMR noon
              "SeriesInstanceUID" "1.2.3.4.5.6") as (Hbase & Hfinal & _).
  - simpl. auto 10.
  - split; [exact Hbase|]. apply (Hfinal None).
    + vm_compute. intuition discriminate.
    + simpl. tauto.
Defined.

(** C9: [{Modality: 'CT'}] over the export of [groupMR]. *)
Lemma toDicom_extraTags_override_sample :
  readProperty "Modality"
    (fst (toDicomTags (X:=X) groupMR (Some modalityCT) noon))
    = JString "CT" /\
  snd (toDicomTags (X:=X) groupMR (Some modalityCT) noon)
    = [overwriteNotice "Modality"].
Proof.
  destruct (toDicom_extraTags_override (X:=X) groupMR modalityCT noon)
    as (_ & _ & _ & _ & _ & _ & _ & Hmr).
  - repeat constructor. simpl. tauto.
  - apply enumerationOrder_plain, Forall_forall.
    repeat (apply Forall_cons; [reflexivity|]). apply Forall_nil.
  - apply Hmr.
    + reflexivity.
    + apply hasKey_false. reflexivity.
    + reflexivity.
Defined.

(** C9 as stated fails. [groupEmpty] has no [Modality] metadata, the
    generated tags have the key [Modality], [{Modality: 'CT'}] overwrites
    it, and the log stays empty. The keys [__proto__] and [constructor]
    of [extraInherited] are no generated tags of [groupMR]: both are
    logged, and [__proto__] does not end up in the final tags. And [null]
    as extra tags makes the call throw. *)
Lemma toDicom_extraTags_unlogged :
  (In "Modality" (objectKeys (generatedTags (X:=X) groupEmpty noon)) /\
   readProperty "Modality"
     (fst (toDicomTags (X:=X) groupEmpty (Some modalityCT) noon))
     = JString "CT" /\
   snd (toDicomTags (X:=X) groupEmpty (Some modalityCT) noon) = []) /\
  (hasKey "__proto__" (generatedTags (X:=X) groupMR noon) = false /\
   hasKey "constructor" (generatedTags (X:=X) groupMR noon) = false /\
   hasKey "__proto__" (fst (toDicomTags (X:=X) groupMR (Some extraInherited) noon))
     = false /\
   readProperty "constructor"
     (fst (toDicomTags (X:=X) groupMR (Some extraInherited) noon))
     = JString "c" /\
   snd (toDicomTags (X:=X) groupMR (Some extraInherited) noon)
     = [overwriteNotice "__proto__"; overwriteNotice "constructor"]) /\
  toDicomCall (X:=X) groupMR extraNull noon = Throw TypeError.
Proof.
  split; [|split].
  - split; [|split].
    + simpl. auto 10.
    + reflexivity.
    + reflexivity.
  - repeat split; vm_compute; reflexivity.
  - reflexivity.
Qed.

(** C10: [Modality] over the export of [groupEmpty]. *)
Lemma toDicom_extraTags_silent_sample :
  readProperty "Modality"
    (fst (toDicomTags (X:=X) groupEmpty (Some modalityCT) noon))
    = JString "CT" /\
  noticesNaming "Modality"
    (snd (toDicomTags (X:=X) groupEmpty (Some modalityCT) noon))
    = 0.
Proof.
  destruct (toDicom_extraTags_silent (X:=X) groupEmpty modalityCT noon
              "Modality") as (Hv & Hn & _).
  - repeat constructor. simpl. tauto.
  - simpl. auto.
  - apply hasKey_In. reflexivity.
  - reflexivity.
  - split; [exact Hv | exact Hn].
Defined.

End Runs.

(** * Further properties *)

(** ** More on [mergeTags] and the tags of [toDicom] *)
Section MoreExportFacts.
Context `{X : Collaborators} `{Js : Engine}.

(** X1. On objects, whose keys are distinct and in the order of
    enumeration, [mergeTags] leaves in [tags1] the object the spread
    [{...tags1, ...tags2}] builds, whatever the log before, unless
    [tags2] has a key [__proto__] that [tags1] has not: the assignment
    gives that key to the setter of the prototype, where the spread makes
    a property of it. So the final tags of [toDicom] with extra tags are
    the spread of the generated tags and the extra tags. *)
Theorem mergeTags_is_spread (tags1 tags2 : JsObject) (log : list LogEntry) :
  NoDup (objectKeys tags1) ->
  enumerationOrder (objectKeys tags1) ->
  NoDup (objectKeys tags2) ->
  (In "__proto__" (objectKeys tags2) -> In "__proto__" (objectKeys tags1)) ->
  fst (mergeTags tags1 tags2 log) = spread tags1 tags2 /\
  (forall (g : AnnotationGroup) (now : Date),
     (In "__proto__" (objectKeys tags2) ->
      In "__proto__" (objectKeys (generatedTags g now))) ->
     fst (toDicomTags g (Some tags2) now) = spread (generatedTags g now) tags2).
Proof.
  intros H1 Hord H2 Hp. split.
  - unfold spread. rewrite mergeTags_assignAll by assumption.
    cbn [fst]. now rewrite assignAll_nil.
  - intros g now Hgen. unfold toDicomTags, spread.
    rewrite mergeTags_assignAll by assumption. cbn [fst].
    now rewrite (assignAll_nil _ (NoDup_generatedTags g now)
                   (enumerationOrder_generatedTags g now)).
Qed.

(** X2. The order of the final tags. They are always in the order of
    enumeration: the array indices first, in ascending order. When
    neither the writer nor [extraTags] names an array index and no key
    goes to the setter of the prototype, the thirteen tags written first
    keep their place, the content-tree tags that are new follow in the
    writer's order, and the extra tags that are new come last, in the
    order of [extraTags]; an overwritten tag stays where it was. *)
Theorem toDicom_tag_order (g : AnnotationGroup) (extra : JsObject)
  (now : Date) :
  NoDup (objectKeys (contentTreeTags g)) ->
  NoDup (objectKeys extra) ->
  Forall plainName (objectKeys (contentTreeTags g)) ->
  Forall plainName (objectKeys extra) ->
  (In "__proto__" (objectKeys extra) ->
   In "__proto__" (objectKeys (generatedTags g now))) ->
  objectKeys (generatedTags g now) =
    baseTagNames ++ newKeys (baseTags g now) (contentTreeTags g) /\
  objectKeys (fst (toDicomTags g (Some extra) now)) =
    objectKeys (generatedTags g now) ++ newKeys (generatedTags g now) extra /\
  (forall other : JsObject,
     enumerationOrder (objectKeys (fst (toDicomTags g (Some other) now))) /\
     NoDup (objectKeys (fst (toDicomTags g (Some other) now)))).
Proof.
  intros Htree Hextra Ptree Pextra Hp. split; [|split].
  - rewrite generatedTags_eq. now rewrite objectKeys_assignAll.
  - unfold toDicomTags. rewrite mergeTags_assignAll by assumption.
    cbn [fst]. now rewrite objectKeys_assignAll.
  - intros other. unfold toDicomTags. rewrite mergeTags_eq. cbn [fst].
    destruct (mergeLoop_object other (objectKeys other)
                (plainTags (generatedTags g now)) []
                (NoDup_generatedTags g now)
                (enumerationOrder_generatedTags g now)) as [Hnd Hord].
    split; assumption.
Qed.

(** X3. Merging the same object a second time changes nothing, when no
    key goes to the setter of the prototype: [tags1] stays as the first merge
    left it, and the second merge logs one notice for each key of [tags2]
    whose value in [tags2] is defined. *)
Theorem mergeTags_idempotent (tags1 tags2 : JsObject)
  (log log' : list LogEntry) :
  NoDup (objectKeys tags2) ->
  enumerationOrder (objectKeys tags2) ->
  (In "__proto__" (objectKeys tags2) -> In "__proto__" (objectKeys tags1)) ->
  mergeTags (fst (mergeTags tags1 tags2 log)) tags2 log' =
    (fst (mergeTags tags1 tags2 log),
     log' ++ map overwriteNotice
               (filter (fun k => isDefined (readProperty k tags2))
                  (objectKeys tags2))).
Proof.
  intros Hnd _ Hp. rewrite (mergeTags_assignAll tags1 tags2 log Hnd Hp).
  cbn [fst].
  assert (Hhas : forall k, In k (objectKeys tags2) ->
                   hasKey k (assignAll tags1 tags2) = true).
  { intros k Hk. rewrite hasKey_assignAll. apply hasKey_In in Hk.
    rewrite Hk. apply Bool.orb_true_r. }
  rewrite mergeTags_assignAll;
    [|exact Hnd | intros H; apply hasKey_In; now apply Hhas].
  f_equal.
  - rewrite <- (object_entries tags2 Hnd) at 2.
    apply assignAll_settled. intros k Hk. split.
    + apply hasKey_In. now apply Hhas.
    + rewrite readProperty_assignAll by assumption.
      apply hasKey_In in Hk. now rewrite Hk.
  - f_equal. f_equal. apply filter_ext_in. intros k Hk.
    unfold memberDefined. cbn [plainTags ownProperties].
    rewrite ownProperty_hasKey, (Hhas k Hk).
    rewrite readProperty_assignAll by assumption.
    apply hasKey_In in Hk. now rewrite Hk.
Qed.

(** X4. Merging [tags2] and then [tags3] into [tags1] leaves the object
    that merging, into [tags1], the merge of [tags3] into [tags2] leaves,
    for tags that name neither an array index nor [__proto__]. *)
Theorem mergeTags_compose (tags1 tags2 tags3 : JsObject)
  (log1 log2 log3 log4 : list LogEntry) :
  NoDup (objectKeys tags1) ->
  NoDup (objectKeys tags2) ->
  NoDup (objectKeys tags3) ->
  Forall plainName (objectKeys tags2) ->
  Forall plainName (objectKeys tags3) ->
  ~ In "__proto__" (objectKeys tags2) ->
  ~ In "__proto__" (objectKeys tags3) ->
  fst (mergeTags (fst (mergeTags tags1 tags2 log1)) tags3 log2) =
  fst (mergeTags tags1 (fst (mergeTags tags2 tags3 log3)) log4).
Proof.
  intros H1 H2 H3 P2 P3 N2 N3.
  rewrite (mergeTags_assignAll tags1 tags2 log1 H2)
    by (intros H; contradiction).
  cbn [fst].
  rewrite (mergeTags_assignAll _ tags3 log2 H3) by (intros H; contradiction).
  rewrite (mergeTags_assignAll tags2 tags3 log3 H3)
    by (intros H; contradiction).
  cbn [fst].
  rewrite (mergeTags_assignAll tags1 _ log4 (NoDup_assignAll tags2 tags3 H2)).
  - cbn [fst]. now apply assignAll_assoc.
  - intros H. apply hasKey_In in H. rewrite hasKey_assignAll in H.
    apply Bool.orb_true_iff in H. rewrite !hasKey_In in H. tauto.
Qed.

(** X5. Precedence in the final tags, for every key but a [__proto__]
    that [extraTags] has and the generated tags have not: a key of
    [extraTags] has its value there; any other key the content-tree tags
    name has the writer's value; any other key has the value written
    first, the group's metadata for [Modality], [StudyInstanceUID] and
    [ReferencedSeriesSequence]. *)
Theorem toDicom_tag_precedence (g : AnnotationGroup) (extra : JsObject)
  (now : Date) (k : string) :
  NoDup (objectKeys (contentTreeTags g)) ->
  NoDup (objectKeys extra) ->
  (k = "__proto__" -> In k (objectKeys extra) ->
   In k (objectKeys (generatedTags g now))) ->
  readProperty k (fst (toDicomTags g (Some extra) now)) =
    if hasKey k extra then readProperty k extra
    else if hasKey k (contentTreeTags g)
         then readProperty k (contentTreeTags g)
         else readProperty k (baseTags g now).
Proof.
  intros Htree Hextra Hk. unfold toDicomTags.
  destruct (hasKey k extra) eqn:Hhas.
  - apply hasKey_In in Hhas. rewrite mergeTags_eq. cbn [fst].
    unfold readProperty at 1.
    now rewrite (mergeLoop_assigned extra (objectKeys extra) Hextra
                   (plainTags (generatedTags g now)) [] k Hhas
                   (fun Hp => Hk Hp Hhas)).
  - apply hasKey_false in Hhas.
    rewrite (proj1 (mergeTags_other _ extra [] k Hhas)).
    rewrite generatedTags_eq.
    now rewrite readProperty_assignAll by assumption.
Qed.

Lemma toDicomTags_same (g g' : AnnotationGroup)
  (extraTags : option JsObject) (now : Date) :
  getList g = getList g' ->
  getMeta g "Modality" = getMeta g' "Modality" ->
  getMeta g "StudyInstanceUID" = getMeta g' "StudyInstanceUID" ->
  getMeta g "ReferencedSeriesSequence"
    = getMeta g' "ReferencedSeriesSequence" ->
  toDicomTags g extraTags now = toDicomTags g' extraTags now.
Proof.
  intros Hl Hm Hs Hr.
  assert (Hb : baseTags g now = baseTags g' now)
    by (unfold baseTags; now rewrite Hm, Hs, Hr).
  assert (Hq : scoordSequence g = scoordSequence g')
    by (unfold scoordSequence; now rewrite Hl).
  unfold toDicomTags, generatedTags. now rewrite Hb, Hq.
Qed.

(** X6. [toDicom] reads nothing of a group but its list and the three
    metadata keys [Modality], [StudyInstanceUID] and
    [ReferencedSeriesSequence]: two groups that agree on those export the
    same elements and write the same log, whatever else their metadata
    hold. *)
Theorem toDicom_reads_three_metadata (g g' : AnnotationGroup)
  (extraTags : option JsObject) (now : Date) :
  getList g = getList g' ->
  getMeta g "Modality" = getMeta g' "Modality" ->
  getMeta g "StudyInstanceUID" = getMeta g' "StudyInstanceUID" ->
  getMeta g "ReferencedSeriesSequence"
    = getMeta g' "ReferencedSeriesSequence" ->
  toDicom g extraTags now = toDicom g' extraTags now.
Proof.
  intros Hl Hm Hs Hr. unfold toDicom.
  now rewrite (toDicomTags_same g g' extraTags now Hl Hm Hs Hr).
Qed.

Lemma baseTags_instant (g : AnnotationGroup) (now now' : Date) (k : string) :
  k <> "ContentDate" -> k <> "ContentTime" ->
  readProperty k (baseTags g now) = readProperty k (baseTags g now').
Proof.
  intros Hd Ht.
  change (baseTags g now)
    with ([("TransferSyntaxUID", JString "1.2.840.10008.1.2.1");
           ("SOPClassUID", JString "1.2.840.10008.5.1.4.1.1.88.11");
           ("SOPInstanceUID", JString "1.2.840.10008.5.1.4.1.1.88.11.0");
           ("MediaStorageSOPClassUID",
            JString "1.2.840.10008.5.1.4.1.1.88.11");
           ("MediaStorageSOPInstanceUID",
            JString "1.2.840.10008.5.1.4.1.1.88.11.0");
           ("Modality", getMeta g "Modality");
           ("StudyInstanceUID", getMeta g "StudyInstanceUID");
           ("ReferencedSeriesSequence", getMeta g "ReferencedSeriesSequence");
           ("SeriesInstanceUID", JString "1.2.3.4.5.6");
           ("CompletionFlag", JString "PARTIAL");
           ("VerificationFlag", JString "UNVERIFIED");
           ("ContentDate", JString (getDicomDate (dateToDateObj now)));
           ("ContentTime", JString (getDicomTime (dateToTimeObj now)))]).
  change (baseTags g now')
    with ([("TransferSyntaxUID", JString "1.2.840.10008.1.2.1");
           ("SOPClassUID", JString "1.2.840.10008.5.1.4.1.1.88.11");
           ("SOPInstanceUID", JString "1.2.840.10008.5.1.4.1.1.88.11.0");
           ("MediaStorageSOPClassUID",
            JString "1.2.840.10008.5.1.4.1.1.88.11");
           ("MediaStorageSOPInstanceUID",
            JString "1.2.840.10008.5.1.4.1.1.88.11.0");
           ("Modality", getMeta g "Modality");
           ("StudyInstanceUID", getMeta g "StudyInstanceUID");
           ("ReferencedSeriesSequence", getMeta g "ReferencedSeriesSequence");
           ("SeriesInstanceUID", JString "1.2.3.4.5.6");
           ("CompletionFlag", JString "PARTIAL");
           ("VerificationFlag", JString "UNVERIFIED");
           ("ContentDate", JString (getDicomDate (dateToDateObj now')));
           ("ContentTime", JString (getDicomTime (dateToTimeObj now')))]).
  unfold readProperty. cbn [ownProperty].
  repeat match goal with
         | |- context [String.eqb ?a k] =>
             destruct (String.eqb_spec a k); [first [reflexivity | congruence]|]
         end.
  reflexivity.
Qed.

Lemma baseTags_defined_instant (g : AnnotationGroup) (now now' : Date)
  (k : string) :
  isDefined (readProperty k (baseTags g now))
    = isDefined (readProperty k (baseTags g now')).
Proof.
  destruct (string_dec k "ContentDate") as [->|Hd]; [reflexivity|].
  destruct (string_dec k "ContentTime") as [->|Ht]; [reflexivity|].
  now rewrite (baseTags_instant g now now' k Hd Ht).
Qed.

(** X7. The instant of the call reaches the export through [ContentDate]
    and [ContentTime] only: at two instants the final tags have the same
    keys in the same order and the same value under every other key, and
    the same log is written. *)
Theorem toDicom_instant (g : AnnotationGroup) (extraTags : option JsObject)
  (now now' : Date) :
  objectKeys (fst (toDicomTags g extraTags now))
    = objectKeys (fst (toDicomTags g extraTags now')) /\
  (forall k, k <> "ContentDate" -> k <> "ContentTime" ->
     readProperty k (fst (toDicomTags g extraTags now))
       = readProperty k (fst (toDicomTags g extraTags now'))) /\
  snd (toDicomTags g extraTags now) = snd (toDicomTags g extraTags now').
Proof.
  assert (Hkeys : objectKeys (generatedTags g now)
                  = objectKeys (generatedTags g now')).
  { rewrite !generatedTags_eq. now apply objectKeys_assignAll_congr. }
  assert (Hval : forall k, k <> "ContentDate" -> k <> "ContentTime" ->
                   readProperty k (generatedTags g now)
                     = readProperty k (generatedTags g now')).
  { intros k Hd Ht. rewrite !generatedTags_eq.
    apply (readProperty_assignAll_congr (fun v => v)).
    now apply baseTags_instant. }
  assert (Hdef : forall k, isDefined (readProperty k (generatedTags g now))
                   = isDefined (readProperty k (generatedTags g now'))).
  { intros k. rewrite !generatedTags_eq.
    apply (readProperty_assignAll_congr isDefined).
    apply baseTags_defined_instant. }
  unfold toDicomTags. destruct extraTags as [extra|]; cbn [fst snd].
  - rewrite !mergeTags_eq. cbn [fst snd].
    destruct (mergeLoop_congr extra
                (fun k => k <> "ContentDate" /\ k <> "ContentTime")
                (objectKeys extra)
                (plainTags (generatedTags g now))
                (plainTags (generatedTags g now')) [])
      as (Hk & Hv & Hl); try assumption; try reflexivity.
    + intros k [Hd Ht]. now apply Hval.
    + split; [exact Hk|]. split; [|exact Hl].
      intros k Hd Ht. apply Hv. now split.
  - split; [exact Hkeys|]. split; [exact Hval | reflexivity].
Qed.

End MoreExportFacts.

(** ** More on [create] *)
Section MoreImportFacts.
Context `{X : Collaborators} `{Js : Engine}.

Lemma NoDup_map_JString (l : list string) :
  NoDup l -> NoDup (map JString l).
Proof.
  intros Hnd. apply NoDup_map_NoDup_ForallPairs; [|exact Hnd].
  intros x y _ _ E. now inversion E.
Qed.

Lemma freshIds_app (n m : nat) (gs : GuidState) :
  freshIds (n + m) gs = freshIds n gs ++ freshIds m (advance n gs).
Proof.
  revert gs. induction n as [|n IH]; intros gs; [reflexivity|].
  cbn [Nat.add freshIds advance app]. now rewrite IH.
Qed.

(** The outer loop in closed form, each [scoord] item with the identifier
    generated at its turn. *)
Lemma readItems_closed (items : list DicomSRContent) :
  (forall item, In item items -> valueType item = scoord ->
     readableScoord item) ->
  forall (acc : list Annotation) (gs : GuidState),
    forEach readItem items (acc, gs) =
    Ok (acc ++ describedAnnotations items gs,
        advance (length (filter isScoord items)) gs).
Proof.
  induction items as [|item items IH]; intros Hread acc gs.
  - cbn. now rewrite app_nil_r.
  - assert (Hrest : forall i, In i items -> valueType i = scoord ->
                      readableScoord i)
      by (intros i Hi; apply Hread; now right).
    cbn [forEach filter describedAnnotations]. unfold readItem at 1.
    unfold isScoord, sameValueType.
    destruct (ValueType_eq_dec (valueType item) scoord) as [Hs|Hs].
    + destruct (Hread item (or_introl eq_refl) Hs) as (children & Hseq & Href).
      rewrite (createAnnotation_spec item children gs Hseq Href).
      cbn [bind fst snd length advance].
      rewrite (IH Hrest). unfold directChildren. rewrite Hseq.
      now rewrite <- app_assoc.
    + cbn [bind]. apply (IH Hrest).
Qed.

Lemma readItems_filter (items : list DicomSRContent)
  (st : list Annotation * GuidState) :
  forEach readItem items st = forEach readItem (filter isScoord items) st.
Proof.
  revert st. induction items as [|item items IH]; intros st; [reflexivity|].
  cbn [forEach filter]. destruct (isScoord item) eqn:E.
  - cbn [forEach]. destruct (readItem item st); cbn [bind]; auto.
  - unfold readItem at 1. destruct st as [annotations gs].
    unfold isScoord in E. rewrite E. cbn [bind]. apply IH.
Qed.

Lemma ids_describedAnnotations (items : list DicomSRContent) :
  (forall item, In item items -> isScoord item = true ->
     lastOfKind uidref hasProperties (directChildren item) = None) ->
  forall gs : GuidState,
    map Annotation.id (describedAnnotations items gs) =
    map JString (freshIds (length (filter isScoord items)) gs).
Proof.
  induction items as [|item items IH]; intros Hno gs; [reflexivity|].
  cbn [describedAnnotations filter].
  assert (Hrest : forall i, In i items -> isScoord i = true ->
                    lastOfKind uidref hasProperties (directChildren i) = None)
    by (intros i Hi; apply Hno; now right).
  destruct (isScoord item) eqn:E.
  - cbn [map length freshIds]. rewrite (IH Hrest). f_equal.
    unfold describedAnnotation. cbn [Annotation.id].
    now rewrite (Hno item (or_introl eq_refl) E).
  - apply (IH Hrest).
Qed.

Lemma isScoord_true (item : DicomSRContent) :
  isScoord item = true <-> valueType item = scoord.
Proof.
  unfold isScoord, sameValueType.
  destruct (ValueType_eq_dec (valueType item) scoord); split; congruence.
Qed.

(** X8. [create] asks the generator for one identifier per [scoord]
    child of the root, in order, whether or not a child of the node
    overrides the id: on a root that can be read the annotations are the
    described ones, the k-th with the k-th generated identifier as default
    id, and the generator is left as many identifiers further as the root
    has [scoord] children, also in every group [create] returns. *)
Theorem create_generated_ids (root : DicomSRContent)
  (items : list DicomSRContent) (gs : GuidState) :
  contentSequence root = Some items ->
  (forall item, In item items -> valueType item = scoord ->
     readableScoord item) ->
  createAnnotations root gs =
    Ok (describedAnnotations items gs,
        advance (length (filter isScoord items)) gs) /\
  length (describedAnnotations items gs) = length (filter isScoord items) /\
  (forall (dataElements : JsValue) (g : AnnotationGroup) (gs' : GuidState),
     getSRContent dataElements = root ->
     create dataElements gs = Ok (g, gs') ->
     getList g = describedAnnotations items gs /\
     gs' = advance (length (filter isScoord items)) gs).
Proof.
  intros Hseq Hread.
  assert (Hrun : createAnnotations root gs =
                 Ok (describedAnnotations items gs,
                     advance (length (filter isScoord items)) gs)).
  { unfold createAnnotations. rewrite Hseq. cbn [forOf].
    apply (readItems_closed items Hread [] gs). }
  split; [exact Hrun|]. split.
  - clear. revert gs. induction items as [|item items IH]; intros gs;
      [reflexivity|].
    cbn [describedAnnotations filter].
    destruct (isScoord item); cbn [length]; now rewrite IH.
  - intros dataElements g gs' Hroot Hcreate.
    apply create_list in Hcreate. rewrite Hroot, Hrun in Hcreate.
    inversion Hcreate. auto.
Qed.

(** X9. Default ids are fresh: on a root whose [scoord] children can be
    read and have no [uidref]/[hasProperties] child, the ids of two
    imports in a row are the identifiers the generator hands out, in
    order; when those are distinct, so are all the ids, within an import
    and across the two. *)
Theorem create_default_ids_distinct (root : DicomSRContent)
  (items : list DicomSRContent) (gs : GuidState) (n : nat) :
  contentSequence root = Some items ->
  n = length (filter isScoord items) ->
  (forall item, In item items -> valueType item = scoord ->
     readableScoord item /\
     lastOfKind uidref hasProperties (directChildren item) = None) ->
  exists first second : list Annotation,
    createAnnotations root gs = Ok (first, advance n gs) /\
    createAnnotations root (advance n gs)
      = Ok (second, advance n (advance n gs)) /\
    map Annotation.id (first ++ second)
      = map JString (freshIds (n + n) gs) /\
    (NoDup (freshIds (n + n) gs) ->
     NoDup (map Annotation.id (first ++ second))).
Proof.
  intros Hseq -> Hitems.
  assert (Hread : forall item, In item items -> valueType item = scoord ->
                    readableScoord item)
    by (intros item Hin Hvt; now apply Hitems).
  assert (Hno : forall item, In item items -> isScoord item = true ->
                  lastOfKind uidref hasProperties (directChildren item) = None)
    by (intros item Hin Hs; apply Hitems; [exact Hin | now apply isScoord_true]).
  assert (Hrun : forall gs0, createAnnotations root gs0 =
                   Ok (describedAnnotations items gs0,
                       advance (length (filter isScoord items)) gs0)).
  { intros gs0. unfold createAnnotations. rewrite Hseq. cbn [forOf].
    apply (readItems_closed items Hread [] gs0). }
  exists (describedAnnotations items gs),
    (describedAnnotations items
       (advance (length (filter isScoord items)) gs)).
  assert (Hids : map Annotation.id
                   (describedAnnotations items gs ++
                    describedAnnotations items
                      (advance (length (filter isScoord items)) gs))
                 = map JString
                     (freshIds (length (filter isScoord items) +
                                length (filter isScoord items)) gs)).
  { rewrite map_app, !(ids_describedAnnotations items Hno).
    now rewrite freshIds_app, map_app. }
  repeat split.
  - apply Hrun.
  - apply Hrun.
  - exact Hids.
  - intros Hnd. rewrite Hids. now apply NoDup_map_JString.
Qed.

(** X10. [create] looks at the [scoord] children of the root only: two
    roots with the same [scoord] children in the same order yield the same
    annotations, or both throw, whatever their other children, their own
    value, code and relationship type. *)
Theorem create_scoord_children_only (root root' : DicomSRContent)
  (gs : GuidState) :
  option_map (filter isScoord) (contentSequence root)
    = option_map (filter isScoord) (contentSequence root') ->
  createAnnotations root gs = createAnnotations root' gs.
Proof.
  unfold createAnnotations.
  destruct (contentSequence root) as [items|],
    (contentSequence root') as [items'|]; cbn [option_map forOf];
    intros E; try discriminate; [|reflexivity].
  rewrite (readItems_filter items), (readItems_filter items').
  now inversion E.
Qed.

Lemma readSeriesMeta_table (dataElements : JsValue) (g1 g2 : AnnotationGroup) :
  readSeriesMeta dataElements g1 = Ok g2 ->
  g2 = g1 \/
  exists seriesUID,
    g2 = setMeta "ReferencedSeriesSequence" (seriesReference seriesUID) g1.
Proof.
  unfold readSeriesMeta.
  destruct (getMember dataElements "00081115") as [el|]; [|discriminate].
  cbn [bind]. destruct (isDefined el); [|intros [= <-]; now left].
  destruct (firstValue el) as [i0|]; [|discriminate]. cbn [bind].
  destruct (getMember i0 "0020000E") as [se|]; [|discriminate]. cbn [bind].
  destruct (isDefined se); [|intros [= <-]; now left].
  destruct (firstValue se) as [u|]; [|discriminate]. cbn [bind].
  intros [= <-]. right. now exists u.
Qed.

(** X11. The metadata of a group [create] returns are [Modality] and
    [StudyInstanceUID], in this order, with [ReferencedSeriesSequence]
    between them or not, and nothing else; [ReferencedSeriesSequence],
    when set, is an object [{value: [{SeriesInstanceUID: uid}]}]. *)
Theorem create_metadata_keys (dataElements : JsValue) (gs gs' : GuidState)
  (g : AnnotationGroup) :
  create dataElements gs = Ok (g, gs') ->
  exists modality study,
    metaTable g =
      [("Modality", modality); ("StudyInstanceUID", study)] \/
    exists seriesUID,
      metaTable g =
        [("Modality", modality);
         ("ReferencedSeriesSequence", seriesReference seriesUID);
         ("StudyInstanceUID", study)].
Proof.
  unfold create.
  destruct (createAnnotations (getSRContent dataElements) gs)
    as [[annotations gs1]|]; [|discriminate].
  cbn [bind fst snd]. unfold readMeta.
  destruct (getMember dataElements "00080060") as [m|]; [|discriminate].
  cbn [bind]. destruct (firstValue m) as [modality|]; [|discriminate].
  cbn [bind].
  destruct (readSeriesMeta dataElements
              (setMeta "Modality" modality (newAnnotationGroup annotations)))
    as [g2|] eqn:E; [|discriminate].
  cbn [bind].
  destruct (getMember dataElements "0020000D") as [sm|]; [|discriminate].
  cbn [bind]. destruct (firstValue sm) as [study|]; [|discriminate].
  cbn [bind]. intros [= <- <-]. exists modality, study.
  destruct (readSeriesMeta_table _ _ _ E) as [->|[u ->]].
  - left. reflexivity.
  - right. exists u. reflexivity.
Qed.

(** X12. One child of a [scoord] node sets at most one of the three
    fields id, textExpr and referenceSopUID, and never the shape; a child
    without relationship type sets nothing. *)
Theorem readSubItem_one_field (child : DicomSRContent) (a a' : Annotation) :
  readSubItem child a = Ok a' ->
  Annotation.mathShape a' = Annotation.mathShape a /\
  ((Annotation.id a' = Annotation.id a /\
    Annotation.textExpr a' = Annotation.textExpr a) \/
   (Annotation.id a' = Annotation.id a /\
    Annotation.referenceSopUID a' = Annotation.referenceSopUID a) \/
   (Annotation.textExpr a' = Annotation.textExpr a /\
    Annotation.referenceSopUID a' = Annotation.referenceSopUID a)) /\
  (relationshipType child = None -> a' = a).
Proof.
  unfold readSubItem.
  destruct child as [vt code rel children v].
  cbn [valueType relationshipType value].
  destruct rel as [rel|].
  - destruct vt; unfold sameValueType, sameRelationshipType; cbn;
      repeat match goal with
             | |- context [RelationshipType_eq_dec ?x ?y] =>
                 destruct (RelationshipType_eq_dec x y)
             end;
      try destruct (referencedSOPInstanceUIDOf v); cbn;
      intros E; inversion E; subst a'; cbn;
      (split; [reflexivity|]); (split; [tauto | discriminate]).
  - unfold sameRelationshipType. rewrite !Bool.andb_false_r. cbn [bind].
    intros [= <-]. split; [reflexivity|]. split; [tauto | reflexivity].
Qed.

(** X13. [create] reads nothing of the element set but the SR root the
    reader extracts and the elements [00080060], [00081115] and
    [0020000D]: two element sets that agree on those give the same group,
    or both throw. *)
Theorem create_reads_three_elements (d d' : JsValue) (gs : GuidState) :
  getSRContent d = getSRContent d' ->
  getMember d "00080060" = getMember d' "00080060" ->
  getMember d "00081115" = getMember d' "00081115" ->
  getMember d "0020000D" = getMember d' "0020000D" ->
  create d gs = create d' gs.
Proof.
  intros Hroot Hm Hr Hs.
  unfold create, readMeta, readSeriesMeta. now rewrite Hroot, Hm, Hr, Hs.
Qed.

(** X14. What [toDicom] exports for a group that has an annotation passes
    [checkElements]: the root container carries the measurement-group
    code, so when the reader finds it back in the elements built from
    the writer's tags, [checkElements] returns no warning and leaves none
    in the factory, whatever warning was there. *)
Theorem toDicom_passes_checkElements (this : AnnotationFactory)
  (g : AnnotationGroup) (now : Date) :
  getList g <> [] ->
  readsBack (rootContainer (scoordSequence g)) ->
  fst (checkElements this (fst (toDicom g None now))) = None /\
  getWarning (snd (checkElements this (fst (toDicom g None now)))) = None.
Proof.
  intros Hl Hroot. unfold checkElements.
  change (fst (toDicom g None now))
    with (getElementsFromJSONTags (generatedTags g now)).
  rewrite (proj1 (generatedTags_spread g now Hl)).
  rewrite (Hroot (baseTags g now) (objectKeys_baseTags g now)).
  cbn [rootContainer setContentSequence setConceptNameCode conceptNameCode
       newDicomSRContent].
  rewrite String.eqb_refl. split; reflexivity.
Qed.

(** X15. Export, import, export again: for a group that has an
    annotation and a series reference as metadata, with collaborators
    that keep what they are given (the writer's tags name none of the
    three metadata tags, the element builder keeps [Modality],
    [StudyInstanceUID] and the series instance UID, the reader finds the
    root container back, the shape codec gives back the shapes of the
    group), [create] returns a group that [toDicom] exports as it exports
    the first one, for all extra tags and at every instant. *)
Theorem toDicom_create_toDicom (g : AnnotationGroup) (now : Date)
  (gs : GuidState) (seriesUID : JsValue) :
  getList g <> [] ->
  getMeta g "ReferencedSeriesSequence" = seriesReference seriesUID ->
  (forall k, In k metadataNames -> ~ In k (objectKeys (contentTreeTags g))) ->
  buildsElement "Modality" "00080060" (getMeta g "Modality") ->
  buildsElement "StudyInstanceUID" "0020000D" (getMeta g "StudyInstanceUID") ->
  buildsSeriesItem seriesUID ->
  readsBack (rootContainer (scoordSequence g)) ->
  Forall shapeReadsBack (getList g) ->
  exists (g' : AnnotationGroup) (gs' : GuidState),
    create (fst (toDicom g None now)) gs = Ok (g', gs') /\
    forall (extraTags : option JsObject) (later : Date),
      toDicom g' extraTags later = toDicom g extraTags later.
Proof.
  intros Hl Hseries Htree Hm Hs Hr Hroot Hshape.
  destruct (exported_elements g now seriesUID Hl Hseries Htree Hm Hs Hr Hroot)
    as (Hback & Hmod & Hstudy & item & Hel & Hsub).
  eexists. eexists. split.
  - exact (create_exported g _ gs seriesUID item
             Hback Hshape Hmod Hstudy Hseries Hel Hsub).
  - intros extraTags later. unfold toDicom.
    now rewrite (toDicomTags_same _ g extraTags later).
Qed.

End MoreImportFacts.

(** ** More runs on the sample inputs *)
Section MoreRuns.
Import SampleData.

#[local] Existing Instance Sample.engine.

Ltac distinct_keys :=
  vm_compute;
  repeat (constructor; [cbn [In]; intuition discriminate|]);
  constructor.

Ltac plain_keys :=
  repeat (apply Forall_cons; [reflexivity|]); apply Forall_nil.

Ltac ordered_keys :=
  apply enumerationOrder_plain, Forall_forall; plain_keys.

Ltac no_setter :=
  let H := fresh in
  intros H; exfalso; revert H; apply hasKey_false; reflexivity.

(** X1: two extra tag sets, and extra tags over the export of
    [groupMR]. *)
Lemma mergeTags_is_spread_sample :
  fst (mergeTags extraTwo extraThree []) =
    [("PatientID", JString "P1"); ("Modality", JString "US");
     ("PatientName", JString "Doe")] /\
  fst (toDicomTags (X:=X) groupMR (Some extraThree) noon)
    = spread (generatedTags (X:=X) groupMR noon) extraThree.
Proof.
  destruct (mergeTags_is_spread (X:=X) extraTwo extraThree [])
    as [Hmerge Hexport].
  - distinct_keys.
  - ordered_keys.
  - distinct_keys.
  - no_setter.
  - split; [exact Hmerge|]. apply (Hexport groupMR noon). no_setter.
Defined.

(** X2: the keys of the export of [groupMR] with [extraTwo], and with
    [extraIndexed], whose keys [7] and [10] go first. *)
Lemma toDicom_tag_order_sample :
  objectKeys (fst (toDicomTags (X:=X) groupMR (Some extraTwo) noon)) =
    baseTagNames
    ++ ["ValueType"; "ConceptNameCodeSequence"; "ContentSequence"]
    ++ ["PatientID"] /\
  objectKeys (fst (toDicomTags (X:=X) groupMR (Some extraIndexed) noon)) =
    ["7"; "10"] ++ baseTagNames
    ++ ["ValueType"; "ConceptNameCodeSequence"; "ContentSequence"]
    ++ ["PatientID"] /\
  enumerationOrder
    (objectKeys (fst (toDicomTags (X:=X) groupMR (Some extraIndexed) noon))).
Proof.
  destruct (toDicom_tag_order (X:=X) groupMR extraTwo noon)
    as (Hgen & Hfinal & Hall).
  - distinct_keys.
  - distinct_keys.
  - plain_keys.
  - plain_keys.
  - no_setter.
  - split; [|split].
    + rewrite Hfinal, Hgen. vm_compute. reflexivity.
    + vm_compute. reflexivity.
    + exact (proj1 (Hall extraIndexed)).
Defined.

(** X3: [extraThree] merged twice into [extraTwo]. *)
Lemma mergeTags_idempotent_sample :
  mergeTags (fst (mergeTags extraTwo extraThree [])) extraThree [] =
    ([("PatientID", JString "P1"); ("Modality", JString "US");
      ("PatientName", JString "Doe")],
     [overwriteNotice "Modality"; overwriteNotice "PatientName"]).
Proof.
  refine (mergeTags_idempotent extraTwo extraThree [] [] _ _ _).
  - distinct_keys.
  - ordered_keys.
  - no_setter.
Defined.

(** X4: three tag sets merged in the two orders. *)
Lemma mergeTags_compose_sample :
  fst (mergeTags (fst (mergeTags modalityCT extraTwo [])) extraThree []) =
  fst (mergeTags modalityCT (fst (mergeTags extraTwo extraThree [])) []).
Proof.
  refine (mergeTags_compose modalityCT extraTwo extraThree [] [] [] []
            _ _ _ _ _ _ _).
  - distinct_keys.
  - distinct_keys.
  - distinct_keys.
  - plain_keys.
  - plain_keys.
  - apply hasKey_false. reflexivity.
  - apply hasKey_false. reflexivity.
Defined.

(** X5: [Modality], [ValueType] and [SOPClassUID] in the export of
    [groupMR] with [extraTwo]. *)
Lemma toDicom_tag_precedence_sample :
  readProperty "Modality"
    (fst (toDicomTags (X:=X) groupMR (Some extraTwo) noon))
    = JString "CT" /\
  readProperty "ValueType"
    (fst (toDicomTags (X:=X) groupMR (Some extraTwo) noon))
    = JString "CONTAINER" /\
  readProperty "SOPClassUID"
    (fst (toDicomTags (X:=X) groupMR (Some extraTwo) noon))
    = JString "1.2.840.10008.5.1.4.1.1.88.11".
Proof.
  assert (Hkeys : NoDup (objectKeys (contentTreeTags (X:=X) groupMR)))
    by distinct_keys.
  assert (Hextra : NoDup (objectKeys extraTwo)) by distinct_keys.
  rewrite (toDicom_tag_precedence (X:=X) groupMR extraTwo noon "Modality"
             Hkeys Hextra) by (intros H; discriminate H).
  rewrite (toDicom_tag_precedence (X:=X) groupMR extraTwo noon "ValueType"
             Hkeys Hextra) by (intros H; discriminate H).
  rewrite (toDicom_tag_precedence (X:=X) groupMR extraTwo noon "SOPClassUID"
             Hkeys Hextra) by (intros H; discriminate H).
  vm_compute. auto.
Defined.

(** X6: [groupMR] and [groupMRPatient] export alike. *)
Lemma toDicom_reads_three_metadata_sample :
  getMeta (X:=X) groupMRPatient "PatientID" = JString "P1" /\
  getMeta (X:=X) groupMR "PatientID" = JUndefined /\
  toDicom (X:=X) groupMRPatient (Some extraTwo) noon
    = toDicom (X:=X) groupMR (Some extraTwo) noon.
Proof.
  split; [reflexivity|]. split; [reflexivity|].
  apply (toDicom_reads_three_metadata (X:=X) groupMRPatient groupMR);
    reflexivity.
Defined.

Lemma mixedRoot_readable :
  forall item, In item (childrenOf mixedRoot) -> valueType item = scoord ->
    readableScoord item.
Proof.
  intros item Hin Hs. simpl in Hin.
  destruct Hin as [E|[E|[E|[E|[]]]]]; subst item; try discriminate Hs.
  - exists (childrenOf scoordTwice). split; [reflexivity|].
    intros child Hc Hkind. simpl in Hc.
    repeat (destruct Hc as [E|Hc];
            [subst child; try (vm_compute in Hkind; discriminate Hkind);
             eexists; reflexivity|]).
    contradiction.
  - exists []. split; [reflexivity|]. intros child [].
Defined.

(** X8: the two [scoord] children of [mixedRoot]; the first has its own
    id and still uses up an identifier. *)
Lemma create_generated_ids_sample :
  createAnnotations (X:=X) mixedRoot 0 =
    Ok (describedAnnotations (X:=X) (childrenOf mixedRoot) 0, 2) /\
  map Annotation.id (describedAnnotations (X:=X) (childrenOf mixedRoot) 0)
    = [JString "last-id"; JString "gg"].
Proof.
  split; [|reflexivity].
  exact (proj1 (create_generated_ids (X:=X) mixedRoot (childrenOf mixedRoot) 0
                  eq_refl mixedRoot_readable)).
Defined.

Lemma bareRoot_items :
  forall item, In item (childrenOf bareRoot) -> valueType item = scoord ->
    readableScoord item /\
    lastOfKind uidref hasProperties (directChildren item) = None.
Proof.
  intros item Hin Hs. simpl in Hin.
  destruct Hin as [E|[E|[E|[]]]]; subst item; try discriminate Hs;
    (split; [|reflexivity]);
    exists []; (split; [reflexivity|]); intros child [].
Defined.

(** X9: [bareRoot] imported twice in a row. *)
Lemma create_default_ids_distinct_sample :
  exists first second : list (@Annotation X),
    createAnnotations (X:=X) bareRoot 0 = Ok (first, 2) /\
    createAnnotations (X:=X) bareRoot 2 = Ok (second, 4) /\
    map Annotation.id (first ++ second)
      = [JString "g"; JString "gg"; JString "ggg"; JString "gggg"] /\
    NoDup (map Annotation.id (first ++ second)).
Proof.
  destruct (create_default_ids_distinct (X:=X) bareRoot (childrenOf bareRoot)
              0 2 eq_refl eq_refl bareRoot_items)
    as (first & second & H1 & H2 & Hids & Hnd).
  exists first, second. split; [exact H1|]. split; [exact H2|].
  split; [exact Hids|]. apply Hnd. distinct_keys.
Defined.

(** X10: [bareRoot] and a root with its two [scoord] children only. *)
Lemma create_scoord_children_only_sample :
  createAnnotations (X:=X) bareRoot 0 =
  createAnnotations (X:=X)
    (setContentSequence (filter isScoord (childrenOf bareRoot))
       (newDicomSRContent text)) 0.
Proof.
  apply (create_scoord_children_only (X:=X)). reflexivity.
Defined.

(** X11: the metadata read from an element set with a series
    sequence. *)
Lemma create_metadata_keys_sample :
  exists (g : @AnnotationGroup X) (modality study : JsValue),
    create (X:=X) (elementsWithSeries [JObject seriesItem]) 0 = Ok (g, 0) /\
    (metaTable g = [("Modality", modality); ("StudyInstanceUID", study)] \/
     exists seriesUID,
       metaTable g =
         [("Modality", modality);
          ("ReferencedSeriesSequence", seriesReference seriesUID);
          ("StudyInstanceUID", study)]).
Proof.
  assert (Hrun : create (X:=X) (elementsWithSeries [JObject seriesItem]) 0 =
                 Ok ({| getList := [];
                        metaTable :=
                          [("Modality", JString "SR");
                           ("ReferencedSeriesSequence",
                            seriesReference (JString "1.2.9"));
                           ("StudyInstanceUID", JString "1.2")] |}, 0))
    by (vm_compute; reflexivity).
  destruct (create_metadata_keys (X:=X) _ _ _ _ Hrun)
    as (modality & study & Hkeys).
  eexists. exists modality, study. split; [exact Hrun | exact Hkeys].
Defined.

(** X12: a [uidref] child sets the id and nothing else. *)
Lemma readSubItem_one_field_sample :
  readSubItem (X:=X) idLeaf annotationA
    = Ok (setId (X:=X) (JString "given-id") annotationA) /\
  Annotation.mathShape (setId (X:=X) (JString "given-id") annotationA)
    = Annotation.mathShape annotationA.
Proof.
  split; [reflexivity|].
  exact (proj1 (readSubItem_one_field (X:=X) idLeaf annotationA
                  (setId (X:=X) (JString "given-id") annotationA) eq_refl)).
Defined.

(** X13: one more element changes nothing. *)
Lemma create_reads_three_elements_sample :
  create (X:=X) elementsNoSeriesPatient 0 = create (X:=X) elementsNoSeries 0.
Proof.
  apply (create_reads_three_elements (X:=X)); vm_compute; reflexivity.
Defined.

(** X14: the export of [groupMR] is checked, by a factory that holds a
    warning. *)
Lemma toDicom_passes_checkElements_sample :
  fst (checkElements (X:=X) {| warning := Some "Not a measurement group" |}
         (fst (toDicom (X:=X) groupMR None noon))) = None /\
  getWarning
    (snd (checkElements (X:=X) {| warning := Some "Not a measurement group" |}
            (fst (toDicom (X:=X) groupMR None noon)))) = None.
Proof.
  apply (toDicom_passes_checkElements (X:=X)).
  - discriminate.
  - apply readsBack_groupMR.
Defined.

(** X15: [groupMR] exported, imported and exported again. *)
Lemma toDicom_create_toDicom_sample :
  exists (g' : @AnnotationGroup X) (gs' : nat),
    create (X:=X) (fst (toDicom (X:=X) groupMR None noon)) 0 = Ok (g', gs') /\
    forall (extraTags : option JsObject) (later : @Date X),
      toDicom (X:=X) g' extraTags later
        = toDicom (X:=X) groupMR extraTags later.
Proof.
  refine (toDicom_create_toDicom (X:=X) groupMR noon 0 (JString "1.2.9")
            _ _ _ _ _ _ _ _).
  - discriminate.
  - reflexivity.
  - intros k Hk. apply hasKey_false. cbn [metadataNames In] in Hk.
    destruct Hk as [<-|[<-|[<-|[]]]]; reflexivity.
  - apply sample_buildsElement. reflexivity.
  - apply sample_buildsElement. reflexivity.
  - apply sample_buildsSeriesItem.
  - apply readsBack_groupMR.
  - repeat constructor.
Defined.

End MoreRuns.
